(** * Divide-and-conquer (DnC) robust aggregation and the experiment driver

    A shallow embedding of [src/strategies/aggregate.py] (function
    [aggregate_dnc]) and of the control flow of [src/main.py] (functions
    [main] and [fit_config]).

    Conventions of the embedding.
    - A numpy array of floats is a list of exact rationals ([Qc]); a layer
      of a model is represented by its ravelled data.  The arithmetic of
      the arrays is exact.  The one scalar computation in floats, the
      number of clients to keep (line 37), is rounded as Python rounds it.
    - A Python exception is an element of [exn]; a computation that may
      raise returns a [result].
    - numpy's process-wide random generator is a piece of global state that
      is threaded explicitly through [aggregate_dnc].
    - numpy's [random.randint], [random.seed] and [linalg.svd] are library
      code: they are the fields of the class [Numpy].
    - What [main] calls and what may raise there (the import of the
      aggregation function, hydra's [instantiate], the simulation) answers
      through the record [World]; the dataset loaders and the seeding are
      taken to succeed. *)

From Stdlib Require Import Ascii String QArith Qround Qcanon.
From stdpp Require Import base decidable option list strings gmap sorting.

Open Scope nat_scope.

(** ** Python exceptions and results *)

Inductive exn : Type :=
  | IndexError
  | ValueError
  | TypeError
  | KeyError
  | LinAlgError
  | ModuleNotFoundError
  | AttributeError
  | OtherError (name : string).

Inductive result (A : Type) : Type :=
  | Ok (a : A)
  | Raise (e : exn).
Arguments Ok {A} a.
Arguments Raise {A} e.

Definition result_bind {A B} (r : result A) (k : A → result B) : result B :=
  match r with
  | Ok a => k a
  | Raise e => Raise e
  end.

Declare Scope result_scope.
Delimit Scope result_scope with result.
Notation "x <- e ;; k" := (result_bind e (λ x, k))
  (at level 100, e at next level, right associativity) : result_scope.

Fixpoint mapM {A B} (f : A → result B) (l : list A) : result (list B) :=
  match l with
  | [] => Ok []
  | a :: l' =>
      (b <- f a ;; bs <- mapM f l' ;; Ok (b :: bs))%result
  end.

(** ** Scalars *)

Definition Qc_of_Z (z : Z) : Qc := Q2Qc (inject_Z z).
Definition Qc_of_nat (n : nat) : Qc := Qc_of_Z (Z.of_nat n).

Definition Qc_leb (x y : Qc) : bool := Qle_bool x y.
Definition Qc_eqb (x y : Qc) : bool := Qeq_bool x y.

(** Python's [int(x)] on a finite float: truncation toward zero. *)
Definition py_int (x : Qc) : Z := Z.quot (Qnum x) (Zpos (Qden x)).

(** ** Python's float arithmetic

    A Python float is an IEEE 754 binary64 number, and the result of an
    arithmetic operation is the exact result rounded to the nearest such
    number, a tie going to the one with the even significand. *)

(** The integer nearest to [x]; a tie goes to the even one. *)
Definition round_half_even (x : Q) : Z :=
  let f := Qfloor x in
  match Qcompare (x - inject_Z f) (1 # 2) with
  | Lt => f
  | Gt => (f + 1)%Z
  | Eq => if Z.even f then f else (f + 1)%Z
  end.

(** [2 ^ e] for every integer [e]. *)
Definition Qpow2 (e : Z) : Q :=
  if (0 <=? e)%Z then inject_Z (2 ^ e) else / inject_Z (2 ^ (- e)).

(** The exponent of a positive [x]: [2 ^ e <= x < 2 ^ (e + 1)]. *)
Definition Qexponent (x : Q) : Z :=
  let e := (Z.log2 (Qnum x) - Z.log2 (Zpos (Qden x)))%Z in
  if Qle_bool (Qpow2 e) x then e else (e - 1)%Z.

(** A positive [x] rounded to 53 significant bits; below [2 ^ -1022] the
    doubles stay [2 ^ -1074] apart. *)
Definition binary64_pos (x : Q) : Q :=
  let e := Z.max (Qexponent x - 52) (-1074) in
  inject_Z (round_half_even (x / Qpow2 e)) * Qpow2 e.

Definition is_integer (x : Qc) : bool := Pos.eqb (Qden x) 1.

(** The double that stands for [x].  A value without a fractional part is
    left as it is: up to [2 ^ 53] every integer is a double, and the
    integers of line 37 are counts of clients.  Overflow is not modelled. *)
Definition binary64 (x : Qc) : Qc :=
  if is_integer x then x
  else if Qle_bool 0 x then Q2Qc (binary64_pos x)
       else (- Q2Qc (binary64_pos (- x)))%Qc.

Definition float_mul (x y : Qc) : Qc := binary64 (x * y).
Definition float_sub (x y : Qc) : Qc := binary64 (x - y).

(** ** One-dimensional numpy arrays *)

Abbreviation NDArray := (list Qc) (only parsing).
Abbreviation NDArrays := (list (list Qc)) (only parsing).

(** Binary ufuncs broadcast: the operands have the same length, or one of
    them has length one; anything else raises [ValueError]. *)
Definition np_binop (f : Qc → Qc → Qc) (a b : NDArray) : result NDArray :=
  if Nat.eqb (length a) (length b) then Ok (zip_with f a b)
  else match a, b with
       | [x], _ => Ok (map (f x) b)
       | _, [y] => Ok (map (λ x, f x y) a)
       | _, _ => Raise ValueError
       end.

Definition np_add : NDArray → NDArray → result NDArray := np_binop Qcplus.
Definition np_subtract : NDArray → NDArray → result NDArray := np_binop Qcminus.

(** [np.inner] of two vectors: the operands must have the same length. *)
Definition sum_Qc (l : list Qc) : Qc := foldr Qcplus (Qc_of_Z 0) l.

Definition np_inner (a b : NDArray) : result Qc :=
  if Nat.eqb (length a) (length b) then Ok (sum_Qc (zip_with Qcmult a b))
  else Raise ValueError.

(** [functools.reduce(f, xs)] without an initial value. *)
Definition reduce {A} (f : A → A → result A) (xs : list A) : result A :=
  match xs with
  | [] => Raise TypeError
  | x :: xs' => foldl (λ acc y, (a <- acc ;; f a y)%result) (Ok x) xs'
  end.

(** Python's [zip( *rows )]: the columns of [rows], cut at the shortest row. *)
Fixpoint zip_star {A} (rows : list (list A)) : list (list A) :=
  match rows with
  | [] => []
  | r :: rs =>
      match rs with
      | [] => map (λ x, [x]) r
      | _ :: _ => zip_with cons r (zip_star rs)
      end
  end.

(** Python's [l[:k]] for any integer [k]. *)
Definition slice_to {A} (k : Z) (l : list A) : list A :=
  if (0 <=? k)%Z then take (Z.to_nat k) l
  else take (length l - Z.to_nat (- k)) l.

(** [np.argsort]: the indices of [s] by increasing value.  The order among
    equal values is that of an insertion sort, which is what numpy runs on
    short arrays: equal values keep their relative order. *)
Fixpoint argsort_insert (p : Qc * nat) (l : list (Qc * nat)) : list (Qc * nat) :=
  match l with
  | [] => [p]
  | q :: l' => if Qc_leb p.1 q.1 then p :: l else q :: argsort_insert p l'
  end.

Definition argsort_pairs (ps : list (Qc * nat)) : list (Qc * nat) :=
  foldr argsort_insert [] ps.

Definition np_argsort (s : list Qc) : list nat :=
  (argsort_pairs (zip s (seq 0 (length s)))).*2.

(** ** The numpy library interface *)

Class Numpy : Type := {
  (** the state of the process-wide generator [np.random] *)
  rng_state : Type;
  (** [np.random.seed(seed)]: the state the generator is reset to *)
  np_random_seed : Z → rng_state;
  (** [np.random.randint(0, high, size=size)]: the indices drawn and the
      state the generator is left in *)
  np_random_randint : nat → nat → rng_state → list nat * rng_state;
  randint_length : ∀ high size g,
    length (np_random_randint high size g).1 = size;
  randint_range : ∀ high size g,
    0 < high → Forall (λ i, i < high) (np_random_randint high size g).1;
  (** the entries of a draw are independent of each other: every array of
      [size] indices below [high], with or without repeated entries, is
      the draw of some state *)
  randint_any : ∀ high size idx,
    length idx = size → Forall (λ i, i < high) idx →
    ∃ g, (np_random_randint high size g).1 = idx;
  (** [np.linalg.svd(m, full_matrices=False)[2][0, :]]: the right singular
      vector of the largest singular value of the matrix with rows [m] *)
  linalg_svd_vh0 : list NDArray → NDArray;
  svd_vh0_length : ∀ (m : list NDArray) d,
    m ≠ [] → 0 < d → Forall (λ r, length r = d) m →
    length (linalg_svd_vh0 m) = d
}.

(** ** Collaborators of [aggregate_dnc] that live outside [src/] *)

(** What one client sends back: its layers and its [num_examples]. *)
Abbreviation ClientResult := (list (list Qc) * Z)%type (only parsing).

(** Modelled from the spec: [flatten_params] is imported from the package's
    [utils] module, which is not part of the sources at hand.  A FlatUpdate
    is "a single numeric vector derived from a ClientUpdate by concatenating
    all layers in a fixed, stable layer order". *)
Definition flatten_params (params : NDArrays) : NDArray := concat params.

(** Modelled from the spec: [aggregate] is imported from
    [flwr.server.strategy.aggregate]; it is FedAvg's "weighted mean over all
    updates", computed layer by layer: the layers are scaled by
    [num_examples], the scaled layers of all clients are added up, and the
    sum is divided by the total number of examples.  A zero total is outside
    the exact model (numpy then produces non-finite values). *)
Definition aggregate (results : list ClientResult) : result NDArrays :=
  let num_examples_total := foldr Z.add 0%Z (results.*2) in
  let weighted_weights :=
    map (λ r : ClientResult,
           map (λ layer, map (λ x, (x * Qc_of_Z r.2)%Qc) layer) r.1) results in
  mapM (λ layer_updates,
          (s <- reduce np_add layer_updates ;;
           Ok (map (λ x, (x / Qc_of_Z num_examples_total)%Qc) s))%result)
       (zip_star weighted_weights).

(** ** [aggregate_dnc] *)

Section aggregate_dnc.
Context `{N : Numpy}.

(** Computations that may raise and that read and advance the global
    generator. *)
Definition M (A : Type) : Type := rng_state → result A * rng_state.

Definition M_ret {A} (a : A) : M A := λ g, (Ok a, g).
Definition M_lift {A} (r : result A) : M A := λ g, (r, g).
Definition M_bind {A B} (m : M A) (k : A → M B) : M B :=
  λ g, match m g with
       | (Ok a, g') => k a g'
       | (Raise e, g') => (Raise e, g')
       end.

(** [fp[params_indexes]]: indexing by an array of indices. *)
Definition take_indices (fp : NDArray) (params_indexes : list nat)
  : result NDArray :=
  mapM (λ i, match fp !! i with
             | Some x => Ok x
             | None => Raise IndexError
             end) params_indexes.

(** Lines 16-22: the updates an iteration works on.  [b'] is the value line
    18 rebinds [b] to; inside that branch it is [b] again. *)
Definition dnc_sample (flattened_params : list NDArray) (b : Z)
  : M (list NDArray) :=
  if (0 <? b)%Z then
    match flattened_params with
    | [] => M_lift (Raise IndexError)
    | fp0 :: _ =>
        if (b <? Z.of_nat (length fp0))%Z then
          let b' := Z.min b (Z.of_nat (length fp0)) in
          λ g, let (params_indexes, g') :=
                 np_random_randint (length fp0) (Z.to_nat b') g in
               (mapM (λ fp, take_indices fp params_indexes) flattened_params,
                g')
        else M_ret flattened_params
    end
  else M_ret flattened_params.

(** Lines 24-27: the coordinate-wise mean. *)
Definition dnc_mu (sampled_params : list NDArray) : result NDArray :=
  mapM (λ layer_updates,
          (s <- reduce (λ x y, Ok (x + y)%Qc) layer_updates ;;
           Ok (s / Qc_of_nat (length sampled_params))%Qc)%result)
       (zip_star sampled_params).

(** Lines 29-31: the centred updates. *)
Definition dnc_model_c (sampled_params : list NDArray) (mu : NDArray)
  : result (list NDArray) :=
  mapM (λ row, np_subtract row mu) sampled_params.

(** Line 32: [v[0, :]].  [np.linalg.svd] wants a matrix; a matrix without
    columns has no singular vector to index. *)
Definition dnc_v0 (model_c : list NDArray) : result NDArray :=
  match model_c with
  | [] => Raise LinAlgError
  | r :: rs =>
      if forallb (λ r', Nat.eqb (length r') (length r)) rs then
        if Nat.eqb (length r) 0 then Raise IndexError
        else Ok (linalg_svd_vh0 model_c)
      else Raise ValueError
  end.

(** Line 33: the scores. *)
Definition dnc_s (sampled_params : list NDArray) (v0 : NDArray)
  : result (list Qc) :=
  mapM (λ model_i, (x <- np_inner model_i v0 ;; Ok (x * x)%Qc)%result)
       sampled_params.

Definition dnc_scores (sampled_params : list NDArray) : result (list Qc) :=
  (mu <- dnc_mu sampled_params ;;
   model_c <- dnc_model_c sampled_params mu ;;
   v0 <- dnc_v0 model_c ;;
   dnc_s sampled_params v0)%result.

(** Line 37, in float arithmetic: [c] is a float (the double that stands
    for the rational it is given as), the two integers are converted to
    float, the product and the difference are rounded. *)
Definition dnc_to_keep (num_clients : nat) (c : Qc) (num_malicious : Z) : Z :=
  py_int (float_sub (Qc_of_nat num_clients)
                    (float_mul (binary64 c) (Qc_of_Z num_malicious))).

(** Line 38. *)

Definition dnc_I (num_clients : nat) (c : Qc) (num_malicious : Z)
           (s : list Qc) : list nat :=
  slice_to (dnc_to_keep num_clients c num_malicious) (np_argsort s).

(** One pass through the body of the loop. *)
Definition dnc_iteration (flattened_params : list NDArray)
           (c : Qc) (b : Z) (num_malicious : Z) : M (list nat) :=
  M_bind (dnc_sample flattened_params b) (λ sampled_params,
  M_bind (M_lift (dnc_scores sampled_params)) (λ s,
  M_ret (dnc_I (length flattened_params) c num_malicious s))).

(** Lines 15-39: [iters] more passes, appending to [I_good]. *)
Fixpoint dnc_loop (iters : nat) (flattened_params : list NDArray)
         (c : Qc) (b : Z) (num_malicious : Z) (I_good : list (list nat))
  : M (list (list nat)) :=
  match iters with
  | O => M_ret I_good
  | S iters' =>
      M_bind (dnc_iteration flattened_params c b num_malicious) (λ I,
      dnc_loop iters' flattened_params c b num_malicious (I_good ++ [I]))
  end.

Definition mem (i : nat) (I : list nat) : bool := existsb (Nat.eqb i) I.

(** Line 41: [list(set.intersection( *I_good ))]; without an operand the
    call raises [TypeError].  Every member is a client index.  Python leaves
    the order in which a set is listed open; here the members come by
    increasing index. *)
Definition dnc_I_final (num_clients : nat) (I_good : list (list nat))
  : result (list nat) :=
  match I_good with
  | [] => Raise TypeError
  | _ :: _ =>
      Ok (List.filter (λ i, forallb (mem i) I_good) (seq 0 num_clients))
  end.

(** Line 43. *)
Definition dnc_res (results : list ClientResult) (I_final : list nat)
  : result (list ClientResult) :=
  mapM (λ i, match results !! i with
             | Some r => Ok r
             | None => Raise IndexError
             end) I_final.

(** The kept-index sets of all iterations. *)
Definition dnc_I_good (results : list ClientResult)
           (c : Qc) (b : Z) (niters : Z) (num_malicious : Z)
  : M (list (list nat)) :=
  dnc_loop (Z.to_nat niters) (map (λ r : ClientResult, flatten_params r.1) results)
           c b num_malicious [].

Definition aggregate_dnc (results : list ClientResult)
           (c : Qc) (b : Z) (niters : Z) (num_malicious : Z) : M NDArrays :=
  M_bind (dnc_I_good results c b niters num_malicious) (λ I_good,
  M_lift (I_final <- dnc_I_final (length results) I_good ;;
          res <- dnc_res results I_final ;;
          aggregate res)%result).

End aggregate_dnc.

(** ** An instance of the library interface

    The generator state is a counter [g]; the [k]-th index of a draw is the
    [k]-th digit of [g] written in base [high], so that every array of
    indices is the draw of some state.  The singular vector is the first
    unit vector, which is a right singular vector of the largest singular
    value whenever the rows of the matrix differ in their first coordinate
    only (and for every matrix with one column, and for the zero matrix). *)

Definition unit_vector (d : nat) : NDArray :=
  match d with
  | O => []
  | S d' => Qc_of_Z 1 :: replicate d' (Qc_of_Z 0)
  end.

Definition counter_randint (high size g : nat) : list nat * nat :=
  (map (λ k, (g / high ^ k) `mod` high) (seq 0 size), S g).

(** The counter whose digits in base [high] are [idx]. *)
Definition counter_of_digits (high : nat) (idx : list nat) : nat :=
  foldr (λ i acc, i + high * acc) 0 idx.

Definition first_unit_vector (m : list NDArray) : NDArray :=
  match m with
  | [] => []
  | r :: _ => unit_vector (length r)
  end.

Definition counter_numpy : Numpy.
Proof.
  refine {| rng_state := nat;
            np_random_seed := Z.to_nat;
            np_random_randint := counter_randint;
            linalg_svd_vh0 := first_unit_vector |}.
  - intros high size g. unfold counter_randint. simpl.
    by rewrite length_map, length_seq.
  - intros high size g Hh. unfold counter_randint. simpl.
    apply Forall_map, Forall_forall. intros k _. simpl.
    apply Nat.mod_upper_bound. lia.
  - intros high size idx <- Hall. exists (counter_of_digits high idx).
    unfold counter_randint. simpl. induction idx as [|i idx IH].
    { reflexivity. }
    apply Forall_cons in Hall as [Hi Hall]. specialize (IH Hall).
    assert (Hh : high ≠ 0) by lia.
    cbn [length seq map counter_of_digits foldr].
    fold (counter_of_digits high idx). f_equal.
    + rewrite Nat.pow_0_r, Nat.div_1_r, Nat.mul_comm.
      rewrite Nat.Div0.mod_add. by apply Nat.mod_small.
    + rewrite <- fmap_S_seq, <- list_fmap_compose.
      rewrite <- IH at 2. apply map_ext. intros k. simpl.
      rewrite <- Nat.Div0.div_div. f_equal. f_equal.
      rewrite (Nat.mul_comm high), Nat.div_add by done.
      by rewrite Nat.div_small.
  - intros [|r m] d; [done|]. intros _ Hd Hall.
    apply Forall_cons in Hall as [Hr _]. simpl. rewrite Hr.
    destruct d; [lia|]. simpl. by rewrite length_replicate.
Defined.

(** ** The experiment driver, [src/main.py] *)

(** The fields of the hydra configuration that [main] branches on, and the
    one fact about the file system it asks for. *)
Record Config : Type := {
  cfg_seed : Z;
  cfg_strategy_name : string;
  cfg_server_attack_fn : string;
  cfg_server_num_malicious : Z;
  cfg_dataset : string;
  cfg_aggregate_fn_function : string;
  history_dir_exists : bool
}.

Inductive attack : Type :=
  | no_attack
  | gaussian_attack
  | lie_attack
  | fang_attack
  | minmax_attack.

(** What [main] does to the world, in order. *)
Inductive event : Type :=
  | SetSeeds (seed : Z)
  | PrintLine (msg : string)
  | Rmtree
  | GetDataset (name : string)
  | DoFlPartitioning (num_classes : nat)
  | ImportModule (module_name : string)
  | Instantiate (strategy : string)
  | StartSimulation (attack_fn : attack)
  | ToCsv (file_name : string).

(** How a call of [main] ends.  [msg] is the text the source gives the
    exception where the source raises it, Python's text or the name that
    was not found where Python raises it, and what the library says where a
    library raises it. *)
Inductive outcome : Type :=
  | Returned
  | Raised (e : exn) (msg : string).

(** Effects are logged; an exception ends the run. *)
Definition IO (A : Type) : Type := list event * (A + exn * string).

Definition IO_ret {A} (a : A) : IO A := ([], inl a).
Definition IO_emit (ev : event) : IO unit := ([ev], inl tt).
Definition IO_raise {A} (e : exn) (msg : string) : IO A := ([], inr (e, msg)).
Definition IO_bind {A B} (m : IO A) (k : A → IO B) : IO B :=
  match m.2 with
  | inl a => (m.1 ++ (k a).1, (k a).2)
  | inr err => (m.1, inr err)
  end.

(** A call into a library: it is logged, and it returns or raises what the
    library answers. *)
Definition IO_call {A} (ev : event) (answer : A + exn * string) : IO A :=
  ([ev], answer).

(** A computation without effects.  The text of its error is not
    modelled. *)
Definition IO_lift {A} (r : result A) : IO A :=
  match r with
  | Ok a => IO_ret a
  | Raise e => IO_raise e ""
  end.

Declare Scope IO_scope.
Delimit Scope IO_scope with IO.
Notation "x <- e ;; k" := (IO_bind e (λ x, k))
  (at level 100, e at next level, right associativity) : IO_scope.
Notation "e ;; k" := (IO_bind e (λ _, k))
  (at level 100, right associativity) : IO_scope.

Definition str_in (s : string) (l : list string) : bool :=
  existsb (String.eqb s) l.

(** [s.rsplit('.', 1)] when it has two parts: what is before the last dot
    and what is after it; [None] when [s] has no dot. *)
Fixpoint rsplit_dot (s : string) : option (string * string) :=
  match s with
  | EmptyString => None
  | String a s' =>
      match rsplit_dot s' with
      | Some (module_name, function_name) =>
          Some (String a module_name, function_name)
      | None => if Ascii.eqb a "."%char then Some (EmptyString, s') else None
      end
  end.

(** Lines 89-95. *)
Definition attacks : gmap string attack :=
  <["na" := no_attack]> (<["gaussian" := gaussian_attack]>
  (<["lie" := lie_attack]> (<["fang" := fang_attack]>
  (<["minmax" := minmax_attack]> ∅)))).

(** Lines 114-149. *)
Definition prepare_dataset (dataset_name : string) : IO unit :=
  if str_in dataset_name ["mnist"; "fmnist"; "cifar"] then
    (IO_emit (GetDataset dataset_name) ;; IO_emit (DoFlPartitioning 10))%IO
  else if String.eqb dataset_name "cifar100" then
    (IO_emit (GetDataset dataset_name) ;; IO_emit (DoFlPartitioning 100))%IO
  else if String.eqb dataset_name "income" then
    IO_emit (GetDataset dataset_name)
  else if String.eqb dataset_name "house" then
    IO_emit (GetDataset dataset_name)
  else IO_raise ValueError "Dataset not supported".

(** The guard of line 79. *)
Definition skip_bulyan (cfg : Config) : bool :=
  String.eqb (cfg_strategy_name cfg) "bulyan"
  && (20 <? cfg_server_num_malicious cfg)%Z.

(** The guard of line 83. *)
Definition skip_attack (cfg : Config) : bool :=
  negb (String.eqb (cfg_server_attack_fn cfg) "gaussian")
  && (cfg_server_num_malicious cfg =? 0)%Z
  && negb (String.eqb (cfg_server_attack_fn cfg) "na").

(** Lines 342-348. *)
Definition fit_config {A : Type} (server_round : A) : gmap string Z :=
  <["epochs" := 1%Z]> (<["batch_size" := 32%Z]> ∅).

(** The part of the state that lines 65-66 of [main] set: both statements
    put the global generator in the state that belongs to [seed], whatever
    state it was in. *)
Definition main_seed `{N : Numpy} (seed : Z) (g : rng_state) : rng_state :=
  let g1 := np_random_seed seed in
  let g2 := np_random_seed seed in
  g2.

(** Has the simulation been started, or a result file been written? *)
Definition is_simulation_event (ev : event) : bool :=
  match ev with
  | StartSimulation _ | ToCsv _ => true
  | _ => false
  end.

Definition simulation_started (trace : list event) : bool :=
  existsb is_simulation_event trace.

(** ** Vocabulary of the statements *)

Definition supported_strategies : list string :=
  ["flanders"; "krum"; "dnc"; "fedavg"; "bulyan"; "trimmedmean"; "fedmedian"].

Definition supported_attacks : list string :=
  ["na"; "gaussian"; "lie"; "fang"; "minmax"].

(** The two conditions under which [main] skips the experiment. *)
Definition guard_bulyan (cfg : Config) : Prop :=
  cfg_strategy_name cfg = "bulyan" ∧ (20 < cfg_server_num_malicious cfg)%Z.

Definition guard_attack (cfg : Config) : Prop :=
  cfg_server_attack_fn cfg ≠ "gaussian" ∧ cfg_server_attack_fn cfg ≠ "na"
  ∧ cfg_server_num_malicious cfg = 0%Z.

(** A matrix: all rows have [d] entries. *)
Definition rect (d : nat) (m : list NDArray) : Prop :=
  Forall (λ r, length r = d) m.

Definition score_le (p r : Qc * nat) : Prop := (p.1 <= r.1)%Qc.

(** No index outside [I] has a smaller score than an index inside. *)
Definition smallest_scores (s : list Qc) (I : list nat) : Prop :=
  ∀ i j x y, i ∈ I → j ∉ I → s !! i = Some x → s !! j = Some y → (x <= y)%Qc.


(** [I] is what some pass through the loop body keeps: the slice of the
    sorted order of the scores [s] of that pass. *)
Definition kept_by_iteration `{N : Numpy} (flattened_params : list NDArray)
           (c : Qc) (b : Z) (num_malicious : Z)
           (s : list Qc) (I : list nat) : Prop :=
  ∃ g sampled_params,
    (dnc_sample flattened_params b g).1 = Ok sampled_params
    ∧ dnc_scores sampled_params = Ok s
    ∧ length s = length flattened_params
    ∧ I = dnc_I (length flattened_params) c num_malicious s.

(** The index arrays that [iters] consecutive calls of
    [np.random.randint(0, high, size=size)] deliver from the state [g]. *)
Fixpoint randint_draws `{N : Numpy} (iters high size : nat) (g : rng_state)
  : list (list nat) :=
  match iters with
  | O => []
  | S iters' =>
      (np_random_randint high size g).1
      :: randint_draws iters' high size (np_random_randint high size g).2
  end.

(** The scores as the spec words them, step (e): "the squared inner product
    of its centered update with v". *)
Definition dnc_scores_centred `{N : Numpy} (sampled_params : list NDArray)
  : result (list Qc) :=
  (mu <- dnc_mu sampled_params ;;
   model_c <- dnc_model_c sampled_params mu ;;
   v0 <- dnc_v0 model_c ;;
   dnc_s model_c v0)%result.

(** Did the computation end with an exception? *)
Definition raises {A} (r : result A) : bool :=
  match r with
  | Ok _ => false
  | Raise _ => true
  end.

(** ** Deciding equality of computed values *)

Fixpoint list_eqb {A} (eqb : A → A → bool) (l l' : list A) : bool :=
  match l, l' with
  | [], [] => true
  | a :: l, a' :: l' => eqb a a' && list_eqb eqb l l'
  | _, _ => false
  end.

#[global] Instance exn_eq_dec : EqDecision exn.
Proof. solve_decision. Defined.

Definition result_eqb {A} (eqb : A → A → bool) (r r' : result A) : bool :=
  match r, r' with
  | Ok a, Ok a' => eqb a a'
  | Raise e, Raise e' => bool_decide (e = e')
  | _, _ => false
  end.

(** ** Inputs used to run the definitions *)

Definition q (z : Z) : Qc := Qc_of_Z z.

Definition example_cfg (strategy attack_fn : string) (num_malicious : Z)
  : Config := {|
  cfg_seed := 33;
  cfg_strategy_name := strategy;
  cfg_server_attack_fn := attack_fn;
  cfg_server_num_malicious := num_malicious;
  cfg_dataset := "mnist";
  cfg_aggregate_fn_function := "strategies.aggregate.aggregate_dnc";
  history_dir_exists := true
|}.

(** Two clients whose updates are large in different coordinates. *)
Definition two_clients : list ClientResult :=
  [([[q 0; q 5]], 1%Z); ([[q 5; q 0]], 1%Z)].

(** Three clients with one parameter each. *)
Definition three_clients : list ClientResult :=
  [([[q 1]], 1%Z); ([[q 5]], 1%Z); ([[q 6]], 1%Z)].

(** Ten clients with one parameter each, 1 to 10. *)
Definition ten_clients : list ClientResult :=
  map (λ k, ([[q (Z.of_nat k)]], 1%Z)) (seq 1 10).

(** The floats 0.2, 1.4 and 1.1, as the rationals they are written as. *)
Definition c_0_2 : Qc := Q2Qc (1 # 5).
Definition c_1_4 : Qc := Q2Qc (7 # 5).
Definition c_1_1 : Qc := Q2Qc (11 # 10).

(** Two clients that sent the same update. *)
Definition same_clients : list ClientResult :=
  [([[q 7; q 8]], 3%Z); ([[q 7; q 8]], 5%Z)].

(** ** The nested function [client_fn] of [main], lines 153-175 *)

Inductive client_class : Type :=
  | MnistClient
  | FMnistClient
  | CifarClient
  | Cifar100Client
  | HouseClient
  | IncomeClient.

Inductive evaluate_fn : Type :=
  | mnist_evaluate
  | fmnist_evaluate
  | cifar_evaluate
  | mobilenet_evaluate
  | house_evaluate
  | income_evaluate.

(** Lines 97-104. *)
Definition clients : gmap string (client_class * evaluate_fn) :=
  <["mnist" := (MnistClient, mnist_evaluate)]>
  (<["fmnist" := (FMnistClient, fmnist_evaluate)]>
  (<["cifar" := (CifarClient, cifar_evaluate)]>
  (<["cifar100" := (Cifar100Client, mobilenet_evaluate)]>
  (<["house" := (HouseClient, house_evaluate)]>
  (<["income" := (IncomeClient, income_evaluate)]> ∅))))).

(** Python's [l[i]] for an integer [i]: a negative index counts from the
    end; [None] stands for [IndexError]. *)
Definition py_getitem {A} (l : list A) (i : Z) : option A :=
  if (0 <=? i)%Z then l !! Z.to_nat i
  else if (- Z.of_nat (length l) <=? i)%Z
       then l !! (length l - Z.to_nat (- i))
       else None.

Section client_fn.
(** The directory handle of the image datasets, the data of one client of
    the tabular datasets, and Python's [int] on a string ([None] stands for
    [ValueError]). *)
Variables (FedDir Partition : Type) (int_of_str : string → option Z).

(** The names of [main] that [client_fn] reads: [fed_dir] is assigned for
    the image datasets only, the four arrays for the tabular datasets only;
    [None] is a name that was never assigned. *)
Record closure : Type := {
  fed_dir : option FedDir;
  x_train : option (list Partition);
  y_train : option (list Partition);
  x_test : option (list Partition);
  y_test : option (list Partition)
}.

(** What the call of a client class is given. *)
Inductive client_obj : Type :=
  | ImageClient (cls : client_class) (cid : string) (dir : FedDir)
  | TabularClient (cls : client_class) (cid : string)
                  (x_tr y_tr x_te y_te : Partition).

Inductive client_fn_result : Type :=
  | Client (c : client_obj)
  | ClientRaise (e : exn)
  | ClientNameError.

(** [name[cid_idx]] for one of the four arrays. *)
Definition closure_getitem (name : option (list Partition)) (cid_idx : Z)
           (k : Partition → client_fn_result) : client_fn_result :=
  match name with
  | None => ClientNameError
  | Some arr =>
      match py_getitem arr cid_idx with
      | None => ClientRaise IndexError
      | Some part => k part
      end
  end.

Definition tabular_client (env : closure) (cls : client_class)
           (cid : string) (cid_idx : Z) : client_fn_result :=
  closure_getitem (x_train env) cid_idx (λ x_tr,
  closure_getitem (y_train env) cid_idx (λ y_tr,
  closure_getitem (x_test env) cid_idx (λ x_te,
  closure_getitem (y_test env) cid_idx (λ y_te,
  Client (TabularClient cls cid x_tr y_tr x_te y_te))))).

Definition client_fn (env : closure) (cid : string) (dataset_name : string)
  : client_fn_result :=
  match clients !! dataset_name with
  | None => ClientRaise KeyError
  | Some (client, _) =>
      match int_of_str cid with
      | None => ClientRaise ValueError
      | Some cid_idx =>
          if str_in dataset_name ["mnist"; "fmnist"; "cifar"; "cifar100"] then
            match fed_dir env with
            | None => ClientNameError
            | Some dir => Client (ImageClient client cid dir)
            end
          else if String.eqb dataset_name "income" then
            tabular_client env client cid cid_idx
          else if String.eqb dataset_name "house" then
            tabular_client env client cid cid_idx
          else ClientRaise ValueError
      end
  end.

End client_fn.

Arguments fed_dir {FedDir Partition} _.
Arguments x_train {FedDir Partition} _.
Arguments y_train {FedDir Partition} _.
Arguments x_test {FedDir Partition} _.
Arguments y_test {FedDir Partition} _.
Arguments ImageClient {FedDir Partition} cls cid dir.
Arguments TabularClient {FedDir Partition} cls cid x_tr y_tr x_te y_te.
Arguments Client {FedDir Partition} c.
Arguments ClientRaise {FedDir Partition} e.
Arguments ClientNameError {FedDir Partition}.
Arguments client_fn {FedDir Partition} int_of_str env cid dataset_name.
Arguments tabular_client {FedDir Partition} env cls cid cid_idx.

(** ** Saving the results, lines 305-338 of [main] *)

(** What the simulation hands back: the centralised losses and metrics,
    each a list of (round, value). *)
Record History : Type := {
  losses_centralized : list (Z * Qc);
  metrics_centralized : gmap string (list (Z * Qc))
}.

(** One line of a results file. *)
Record csv_row : Type := {
  row_round : Z;
  row_loss : Qc;
  row_accuracy : Qc;
  row_auc : Qc;
  row_TP : Qc;
  row_TN : Qc;
  row_FP : Qc;
  row_FN : Qc;
  row_attack_fn : string;
  row_dataset_name : string;
  row_num_malicious : Z;
  row_strategy : string;
  row_aggregate_fn : string
}.

Inductive csv_line : Type :=
  | Header
  | Data (r : csv_row).

(** The files that exist, with their lines.  Directories are taken to
    exist. *)
Abbreviation file_system := (gmap string (list csv_line)) (only parsing).

(** [posixpath.join(a, b)] for a [b] that does not start with a slash. *)
Fixpoint ends_with_sep (s : string) : bool :=
  match s with
  | EmptyString => false
  | String c s' =>
      match s' with
      | EmptyString => Ascii.eqb c "/"%char
      | String _ _ => ends_with_sep s'
      end
  end.

Definition os_path_join (a b : string) : string :=
  if String.eqb a "" || ends_with_sep a then (a ++ b)%string
  else (a ++ "/" ++ b)%string.

(** [first, second = zip( *pairs )]: unpacking fails on an empty list. *)
Definition unzip_pairs {A B} (pairs : list (A * B)) : result (list A * list B) :=
  match pairs with
  | [] => Raise ValueError
  | _ :: _ => Ok (pairs.*1, pairs.*2)
  end.

(** [_, values = zip( *history.metrics_centralized[name] )]. *)
Definition metric_values (history : History) (name : string)
  : result (list Qc) :=
  match metrics_centralized history !! name with
  | None => Raise KeyError
  | Some pairs => (p <- unzip_pairs pairs ;; Ok p.2)%result
  end.

(** The columns of the frame, once unpacked. *)
Record columns : Type := {
  col_rounds : list Z;
  col_loss : list Qc;
  col_accuracy : list Qc;
  col_auc : list Qc;
  col_tp : list Qc;
  col_tn : list Qc;
  col_fp : list Qc;
  col_fn : list Qc
}.

(** Lines 307-313. *)
Definition unpack_history (history : History) : result columns :=
  (p <- unzip_pairs (losses_centralized history) ;;
   test_accuracy <- metric_values history "accuracy" ;;
   test_auc <- metric_values history "auc" ;;
   tp <- metric_values history "TP" ;;
   tn <- metric_values history "TN" ;;
   fp <- metric_values history "FP" ;;
   fn <- metric_values history "FN" ;;
   Ok {| col_rounds := p.1; col_loss := p.2; col_accuracy := test_accuracy;
         col_auc := test_auc; col_tp := tp; col_tn := tn; col_fp := fp;
         col_fn := fn |})%result.

(** Lines 318-334: [pd.DataFrame] of a dictionary of columns wants columns
    of one length; the five columns built by comprehension have the length
    of [rounds]. *)
Definition DataFrame (cfg : Config) (cols : columns) : result (list csv_row) :=
  let n := length (col_rounds cols) in
  if forallb (λ c : list Qc, Nat.eqb (length c) n)
             [col_loss cols; col_accuracy cols; col_auc cols; col_tp cols;
              col_tn cols; col_fp cols; col_fn cols]
  then
    Ok (map (λ t : Z * (Qc * (Qc * (Qc * (Qc * (Qc * (Qc * Qc)))))),
               let '(r, (l, (a, (u, (tp, (tn, (fp, fn))))))) := t in
               {| row_round := r; row_loss := l; row_accuracy := a;
                  row_auc := u; row_TP := tp; row_TN := tn; row_FP := fp;
                  row_FN := fn;
                  row_attack_fn := cfg_server_attack_fn cfg;
                  row_dataset_name := cfg_dataset cfg;
                  row_num_malicious := cfg_server_num_malicious cfg;
                  row_strategy := cfg_strategy_name cfg;
                  row_aggregate_fn := cfg_aggregate_fn_function cfg |})
            (zip (col_rounds cols) (zip (col_loss cols)
              (zip (col_accuracy cols) (zip (col_auc cols)
                (zip (col_tp cols) (zip (col_tn cols)
                  (zip (col_fp cols) (col_fn cols)))))))))
  else Raise ValueError.

(** Lines 335-338: append without a header to a file that exists, write
    header and rows otherwise. *)
Definition to_csv (fs : file_system) (file_name : string)
           (data : list csv_row) : file_system :=
  match fs !! file_name with
  | Some old => <[file_name := old ++ map Data data]> fs
  | None => <[file_name := Header :: map Data data]> fs
  end.

(** Lines 317-338: the loop over the files; the files written so far stay
    written when a later pass raises. *)
Fixpoint save_loop (cfg : Config) (cols : columns) (path_to_save : list string)
         (fs : file_system) : file_system * result unit :=
  match path_to_save with
  | [] => (fs, Ok tt)
  | file_name :: rest =>
      match DataFrame cfg cols with
      | Raise e => (fs, Raise e)
      | Ok data => save_loop cfg cols rest (to_csv fs file_name data)
      end
  end.

(** Lines 305-338: the file system afterwards, and how the lines end. *)
Definition save_results (cfg : Config) (save_path : string)
           (history : History) (fs : file_system)
  : file_system * result unit :=
  match unpack_history history with
  | Raise e => (fs, Raise e)
  | Ok cols =>
      save_loop cfg cols
                [os_path_join save_path "results.csv"; "outputs/all_results.csv"]
                fs
  end.

(** ** The strategy, the simulation and [main] itself *)

(** What the world outside [main] answers when it is called. *)
Record World : Type := {
  (** line 182, [importlib.import_module(module_name, package=__package__)]:
      the names the module defines, or the exception of the import *)
  import_module : string → list string + exn * string;
  (** lines 185-278, hydra's [instantiate] of the strategy of that name *)
  instantiate : string → unit + exn * string;
  (** lines 283-303, the server and the simulation with that attack: the
      history of the run, or the exception that ended it *)
  start_simulation : attack → History + exn * string;
  (** line 305, [HydraConfig.get().runtime.output_dir] *)
  output_dir : string
}.

(** Lines 177-280. *)
Definition define_strategy (w : World) (cfg : Config) : IO unit :=
  let name := cfg_strategy_name cfg in
  if String.eqb name "flanders" then
    match rsplit_dot (cfg_aggregate_fn_function cfg) with
    | None =>
        IO_raise ValueError "not enough values to unpack (expected 2, got 1)"
    | Some (module_name, function_name) =>
        (module <- IO_call (ImportModule module_name)
                           (import_module w module_name) ;;
         (if str_in function_name module then IO_ret tt
          else IO_raise AttributeError function_name) ;;
         IO_call (Instantiate name) (instantiate w name))%IO
    end
  else if str_in name ["krum"; "dnc"; "fedavg"; "bulyan"; "trimmedmean";
                       "fedmedian"] then
    IO_call (Instantiate name) (instantiate w name)
  else IO_raise ValueError "Strategy not supported".

(** Lines 317-338 as [main] logs them: every pass builds the frame and
    writes it. *)
Fixpoint write_results (cfg : Config) (cols : columns)
         (path_to_save : list string) : IO unit :=
  match path_to_save with
  | [] => IO_ret tt
  | file_name :: rest =>
      (_ <- IO_lift (DataFrame cfg cols) ;;
       IO_emit (ToCsv file_name) ;;
       write_results cfg cols rest)%IO
  end.

(** Lines 305-338. *)
Definition save_step (w : World) (cfg : Config) (history : History)
  : IO unit :=
  (cols <- IO_lift (unpack_history history) ;;
   write_results cfg cols
     [os_path_join (output_dir w) "results.csv"; "outputs/all_results.csv"])%IO.

(** Lines 283-338: the arguments of [start_simulation] are evaluated first,
    among them [attacks[attack_fn]]. *)
Definition run_and_save (w : World) (cfg : Config) : IO unit :=
  match attacks !! cfg_server_attack_fn cfg with
  | None => IO_raise KeyError (cfg_server_attack_fn cfg)
  | Some a =>
      (history <- IO_call (StartSimulation a) (start_simulation w a) ;;
       save_step w cfg history)%IO
  end.

Definition main_IO (w : World) (cfg : Config) : IO unit :=
  (IO_emit (SetSeeds (cfg_seed cfg)) ;;
   IO_emit (PrintLine "config") ;;
   if skip_bulyan cfg then
     IO_emit (PrintLine "Skipping experiment because strategy is bulyan and num_malicious is > 20")
   else if skip_attack cfg then
     IO_emit (PrintLine "Skipping experiment because attack_fn is not gaussian and num_malicious is 0")
   else
     (IO_emit (PrintLine "Starting experiments") ;;
      (if history_dir_exists cfg then IO_emit Rmtree else IO_ret tt) ;;
      prepare_dataset (cfg_dataset cfg) ;;
      define_strategy w cfg ;;
      run_and_save w cfg))%IO.

Definition main (w : World) (cfg : Config) : list event * outcome :=
  ((main_IO w cfg).1,
   match (main_IO w cfg).2 with
   | inl _ => Returned
   | inr (e, msg) => Raised e msg
   end).

(** ** More vocabulary *)

Definition supported_datasets : list string :=
  ["mnist"; "fmnist"; "cifar"; "cifar100"; "income"; "house"].

(** The strategy step of [main] goes through: the name is a supported one,
    hydra builds the strategy, and for flanders the path of the aggregation
    function has a dot, the module before it is imported and defines the
    name after it. *)
Definition strategy_accepted (w : World) (cfg : Config) : Prop :=
  In (cfg_strategy_name cfg) supported_strategies
  ∧ instantiate w (cfg_strategy_name cfg) = inl tt
  ∧ (cfg_strategy_name cfg = "flanders" →
     ∃ module_name function_name module,
       rsplit_dot (cfg_aggregate_fn_function cfg)
       = Some (module_name, function_name)
       ∧ import_module w module_name = inl module
       ∧ In function_name module).

(** What [main] does once it is past the two guards and the removal of the
    history directory. *)
Definition steps_after_guards (w : World) (cfg : Config) : IO unit :=
  (prepare_dataset (cfg_dataset cfg) ;;
   define_strategy w cfg ;;
   run_and_save w cfg)%IO.

(** The two files [main] writes. *)
Definition run_results_csv (w : World) : string :=
  os_path_join (output_dir w) "results.csv".

Definition all_results_csv : string := "outputs/all_results.csv".

Definition outcome_of {A} (r : A + exn * string) : outcome :=
  match r with
  | inl _ => Returned
  | inr (e, msg) => Raised e msg
  end.

(** The metrics that lines 308-313 read. *)
Definition metric_names : list string :=
  ["accuracy"; "auc"; "TP"; "TN"; "FP"; "FN"].

(** The history has at least one centralised loss, and every metric that is
    read has as many entries as there are losses. *)
Definition history_complete (history : History) : Prop :=
  losses_centralized history ≠ []
  ∧ Forall (λ name, ∃ pairs,
              metrics_centralized history !! name = Some pairs
              ∧ length pairs = length (losses_centralized history))
           metric_names.

(** The lengths that [pd.DataFrame] compares. *)
Definition columns_aligned (cols : columns) : Prop :=
  Forall (λ c : list Qc, length c = length (col_rounds cols))
         [col_loss cols; col_accuracy cols; col_auc cols; col_tp cols;
          col_tn cols; col_fp cols; col_fn cols].

(** The loop body draws nothing. *)
Definition no_draw (flattened_params : list NDArray) (b : Z) : Prop :=
  (b ≤ 0)%Z
  ∨ ∃ fp0, head flattened_params = Some fp0 ∧ (Z.of_nat (length fp0) ≤ b)%Z.

(** A history of two rounds with every metric, and a history without any
    entry. *)
Definition example_history : History := {|
  losses_centralized := [(0%Z, q 2); (1%Z, q 1)];
  metrics_centralized :=
    <["accuracy" := [(0%Z, q 0); (1%Z, q 1)]]>
    (<["auc" := [(0%Z, q 0); (1%Z, q 1)]]>
    (<["TP" := [(0%Z, q 3); (1%Z, q 4)]]>
    (<["TN" := [(0%Z, q 3); (1%Z, q 4)]]>
    (<["FP" := [(0%Z, q 2); (1%Z, q 1)]]>
    (<["FN" := [(0%Z, q 2); (1%Z, q 1)]]> ∅)))))
|}.

Definition empty_history : History := {|
  losses_centralized := [];
  metrics_centralized := ∅
|}.

(** A world in which everything that is called answers: the module
    defines [aggregate_dnc], and the simulation hands back [history]. *)
Definition world_of (history : History) : World := {|
  import_module := λ _, inl ["aggregate"; "aggregate_dnc"];
  instantiate := λ _, inl tt;
  start_simulation := λ _, inl history;
  output_dir := "outputs/2024-01-01/10-00-00"
|}.

(** The same world without the module of the aggregation function. *)
Definition world_without_module (history : History) : World := {|
  import_module := λ module_name, inr (ModuleNotFoundError, module_name);
  instantiate := λ _, inl tt;
  start_simulation := λ _, inl history;
  output_dir := "outputs/2024-01-01/10-00-00"
|}.

(** The strategy flanders with an attack name that is not supported, and
    the world without the module. *)
Definition flanders_cfg : Config := example_cfg "flanders" "alie" 2.

Definition no_module_world : World := world_without_module example_history.

(** What a file holds after [rows] were saved to it. *)
Definition saved (old : option (list csv_line)) (rows : list csv_row)
  : list csv_line :=
  match old with
  | Some lines => lines ++ map Data rows
  | None => Header :: map Data rows
  end.

(** Closures to run [client_fn] with: the one [main] builds for a tabular
    dataset with three clients, and the one for an image dataset. *)
Definition tabular_closure : closure string nat := {|
  fed_dir := None;
  x_train := Some [10; 11; 12];
  y_train := Some [20; 21; 22];
  x_test := Some [30; 31; 32];
  y_test := Some [40; 41; 42]
|}.

Definition image_closure : closure string nat := {|
  fed_dir := Some "fed_dir"%string;
  x_train := None;
  y_train := None;
  x_test := None;
  y_test := None
|}.

(** How many indices the slice [l[:k]] of a list of [n] elements has. *)
Definition slice_length (n : nat) (k : Z) : nat :=
  if (0 <=? k)%Z then Nat.min (Z.to_nat k) n else n - Z.to_nat (- k).

(** A parser of plain decimal numerals, enough to run [client_fn]. *)
Definition digit_of_ascii (a : ascii) : option Z :=
  let n := nat_of_ascii a in
  if (48 <=? n) && (n <=? 57) then Some (Z.of_nat (n - 48)) else None.

Fixpoint decimal_of_str (acc : Z) (s : string) : option Z :=
  match s with
  | EmptyString => Some acc
  | String a s' =>
      match digit_of_ascii a with
      | None => None
      | Some dgt => decimal_of_str (10 * acc + dgt) s'
      end
  end.

Definition plain_int_of_str (s : string) : option Z :=
  match s with
  | EmptyString => None
  | String a s' =>
      if Ascii.eqb a "-"%char then
        match s' with
        | EmptyString => None
        | String _ _ => Z.opp <$> decimal_of_str 0 s'
        end
      else decimal_of_str 0 s
  end.

(** * Properties of the driver *)

Lemma skip_bulyan_spec cfg : skip_bulyan cfg = true ↔ guard_bulyan cfg.
Proof.
  unfold skip_bulyan, guard_bulyan.
  rewrite andb_true_iff, String.eqb_eq, Z.ltb_lt. tauto.
Qed.

Lemma skip_attack_spec cfg : skip_attack cfg = true ↔ guard_attack cfg.
Proof.
  unfold skip_attack, guard_attack.
  rewrite !andb_true_iff, !negb_true_iff, !String.eqb_neq, Z.eqb_eq. tauto.
Qed.

Lemma str_in_spec s l : str_in s l = true ↔ In s l.
Proof.
  unfold str_in. rewrite existsb_exists. split.
  - intros (x & Hx & Heq). apply String.eqb_eq in Heq. by subst.
  - intros Hin. exists s. split; [done | apply String.eqb_refl].
Qed.

Lemma str_in_false s l : ¬ In s l → str_in s l = false.
Proof.
  intros Hn. destruct (str_in s l) eqn:E; [|done].
  apply str_in_spec in E. contradiction.
Qed.

Lemma attacks_lookup_None a : ¬ In a supported_attacks → attacks !! a = None.
Proof.
  intros Hn. unfold attacks.
  rewrite !lookup_insert_ne, lookup_empty; [done|..];
    intros <-; apply Hn; unfold supported_attacks; simpl; tauto.
Qed.

Lemma IO_bind_fst {A B} (m : IO A) (k : A → IO B) :
  (IO_bind m k).1 = m.1 ++ match m.2 with
                           | inl a => (k a).1
                           | inr _ => []
                           end.
Proof.
  unfold IO_bind. destruct m as [t [a|err]]; simpl; [done|].
  by rewrite app_nil_r.
Qed.

Lemma IO_bind_snd {A B} (m : IO A) (k : A → IO B) :
  (IO_bind m k).2 = match m.2 with
                    | inl a => (k a).2
                    | inr err => inr err
                    end.
Proof. unfold IO_bind. by destruct m as [t [a|err]]. Qed.

Lemma simulation_started_app t1 t2 :
  simulation_started (t1 ++ t2) = simulation_started t1 || simulation_started t2.
Proof. apply existsb_app. Qed.

Lemma simulation_started_false t :
  (∀ ev, In ev t → is_simulation_event ev = false) →
  simulation_started t = false.
Proof.
  intros H. unfold simulation_started.
  destruct (existsb is_simulation_event t) eqn:E; [|done].
  apply existsb_exists in E as (ev & Hin & Hev).
  rewrite (H ev Hin) in Hev. discriminate Hev.
Qed.

(** ** The events of the steps *)

Lemma prepare_dataset_events d ev :
  In ev (prepare_dataset d).1 →
  (∃ n, ev = GetDataset n) ∨ (∃ k, ev = DoFlPartitioning k).
Proof.
  unfold prepare_dataset.
  repeat (match goal with |- context [if ?b then _ else _] => destruct b end);
    simpl; intros H; repeat (destruct H as [<-|H]; [eauto|]); destruct H.
Qed.

Lemma define_strategy_events w cfg ev :
  In ev (define_strategy w cfg).1 →
  (∃ m, ev = ImportModule m) ∨ (∃ n, ev = Instantiate n).
Proof.
  unfold define_strategy.
  destruct (String.eqb (cfg_strategy_name cfg) "flanders").
  - destruct (rsplit_dot (cfg_aggregate_fn_function cfg))
      as [[module_name function_name]|]; [|intros []].
    unfold IO_bind, IO_call.
    destruct (import_module w module_name) as [module|err]; simpl.
    + destruct (str_in function_name module); simpl;
        intros H; repeat (destruct H as [<-|H]; [eauto|]); destruct H.
    + intros H; repeat (destruct H as [<-|H]; [eauto|]); destruct H.
  - destruct (str_in _ _); simpl;
      intros H; repeat (destruct H as [<-|H]; [eauto|]); destruct H.
Qed.

Lemma save_step_spec w cfg history :
  save_step w cfg history
  = match unpack_history history with
    | Raise e => ([], inr (e, ""))
    | Ok cols =>
        match DataFrame cfg cols with
        | Raise e => ([], inr (e, ""))
        | Ok _ => ([ToCsv (run_results_csv w); ToCsv all_results_csv], inl tt)
        end
    end.
Proof.
  unfold save_step. destruct (unpack_history history) as [cols|e]; [|done].
  unfold IO_bind. simpl. by destruct (DataFrame cfg cols).
Qed.

Lemma run_and_save_events w cfg ev :
  In ev (run_and_save w cfg).1 →
  (∃ a, ev = StartSimulation a) ∨ (∃ f, ev = ToCsv f).
Proof.
  unfold run_and_save. destruct (attacks !! cfg_server_attack_fn cfg) as [a|];
    [|intros []].
  unfold IO_bind, IO_call. destruct (start_simulation w a) as [history|err];
    simpl.
  - rewrite save_step_spec.
    destruct (unpack_history history) as [cols|e]; simpl.
    + destruct (DataFrame cfg cols); simpl;
        intros H; repeat (destruct H as [<-|H]; [eauto|]); destruct H.
    + intros H; repeat (destruct H as [<-|H]; [eauto|]); destruct H.
  - intros H; repeat (destruct H as [<-|H]; [eauto|]); destruct H.
Qed.

(** The dataset step and the strategy step log nothing that starts the
    simulation. *)
Lemma prepare_dataset_quiet d :
  simulation_started (prepare_dataset d).1 = false.
Proof.
  apply simulation_started_false. intros ev H.
  by destruct (prepare_dataset_events _ _ H) as [[? ->]|[? ->]].
Qed.

Lemma define_strategy_quiet w cfg :
  simulation_started (define_strategy w cfg).1 = false.
Proof.
  apply simulation_started_false. intros ev H.
  by destruct (define_strategy_events _ _ _ H) as [[? ->]|[? ->]].
Qed.

(** ** How the steps end *)

Lemma In_dec_str (s : string) (l : list string) : In s l ∨ ¬ In s l.
Proof.
  destruct (str_in s l) eqn:E.
  - left. by apply str_in_spec.
  - right. intros H. apply str_in_spec in H. congruence.
Qed.

Lemma prepare_dataset_supported d :
  In d supported_datasets → (prepare_dataset d).2 = inl tt.
Proof.
  unfold supported_datasets. simpl.
  intros [<-|[<-|[<-|[<-|[<-|[<-|[]]]]]]]; reflexivity.
Qed.

Lemma prepare_dataset_unsupported d :
  ¬ In d supported_datasets →
  prepare_dataset d = IO_raise ValueError "Dataset not supported".
Proof.
  intros Hn. unfold prepare_dataset.
  rewrite str_in_false.
  2:{ intros H. apply Hn. unfold supported_datasets. simpl in *. tauto. }
  destruct (String.eqb_spec d "cifar100") as [->|_].
  { exfalso. apply Hn. unfold supported_datasets. simpl. tauto. }
  destruct (String.eqb_spec d "income") as [->|_].
  { exfalso. apply Hn. unfold supported_datasets. simpl. tauto. }
  destruct (String.eqb_spec d "house") as [->|_]; [|done].
  exfalso. apply Hn. unfold supported_datasets. simpl. tauto.
Qed.

Lemma define_strategy_unsupported w cfg :
  ¬ In (cfg_strategy_name cfg) supported_strategies →
  define_strategy w cfg = IO_raise ValueError "Strategy not supported".
Proof.
  intros Hn. unfold define_strategy.
  destruct (String.eqb_spec (cfg_strategy_name cfg) "flanders") as [E|_].
  { exfalso. apply Hn. rewrite E. unfold supported_strategies; simpl; tauto. }
  rewrite str_in_false; [done|].
  intros Hin. apply Hn. unfold supported_strategies. simpl in *. tauto.
Qed.

(** The strategy step returns exactly when the strategy is accepted. *)
Lemma define_strategy_returns w cfg :
  (define_strategy w cfg).2 = inl tt ↔ strategy_accepted w cfg.
Proof.
  unfold define_strategy, strategy_accepted.
  destruct (String.eqb_spec (cfg_strategy_name cfg) "flanders") as [E|Hne].
  - rewrite E.
    assert (Hin : In "flanders" supported_strategies).
    { unfold supported_strategies. simpl. tauto. }
    destruct (rsplit_dot (cfg_aggregate_fn_function cfg))
      as [[module_name function_name]|].
    2:{ split; [intros H; discriminate H|].
        intros (_ & _ & H). by destruct (H eq_refl) as (? & ? & ? & ? & _). }
    rewrite IO_bind_snd. unfold IO_call. cbn [snd].
    destruct (import_module w module_name) as [module|err] eqn:Ei.
    2:{ split; [intros H; discriminate H|].
        intros (_ & _ & H).
        destruct (H eq_refl) as (? & ? & ? & [= <- <-] & Hm & _).
        rewrite Ei in Hm. discriminate Hm. }
    rewrite IO_bind_snd.
    destruct (str_in function_name module) eqn:Ef; cbn [snd IO_ret IO_raise].
    + apply str_in_spec in Ef. split.
      * intros H. split; [done|]. split; [by destruct (instantiate w _) as [[]|]|].
        intros _. by exists module_name, function_name, module.
      * by intros (_ & -> & _).
    + split; [intros H; discriminate H|].
      intros (_ & _ & H).
      destruct (H eq_refl) as (? & ? & ? & [= <- <-] & Hm & Hf).
      rewrite Ei in Hm. injection Hm as <-.
      apply str_in_spec in Hf. congruence.
  - destruct (str_in _ _) eqn:Es.
    + apply str_in_spec in Es. unfold IO_call. cbn [snd]. split.
      * intros H. split.
        { unfold supported_strategies. simpl in *. tauto. }
        split; [by destruct (instantiate w _) as [[]|]|]. intros E. contradiction.
      * by intros (_ & -> & _).
    + split; [intros H; discriminate H|].
      intros (Hin & _). exfalso.
      assert (¬ In (cfg_strategy_name cfg)
                ["krum"; "dnc"; "fedavg"; "bulyan"; "trimmedmean"; "fedmedian"]).
      { intros H. apply str_in_spec in H. congruence. }
      unfold supported_strategies in Hin. simpl in *.
      destruct Hin as [H1|H1]; [congruence | tauto].
Qed.

Lemma strategy_accepted_dec w cfg :
  strategy_accepted w cfg ∨ ¬ strategy_accepted w cfg.
Proof.
  rewrite <- define_strategy_returns.
  destruct (define_strategy w cfg).2 as [[]|err]; [by left | by right].
Qed.

Lemma run_and_save_unsupported w cfg :
  ¬ In (cfg_server_attack_fn cfg) supported_attacks →
  run_and_save w cfg = IO_raise KeyError (cfg_server_attack_fn cfg).
Proof. intros H. unfold run_and_save. by rewrite (attacks_lookup_None _ H). Qed.

(** ** [main] at the guards and past them *)

Lemma main_IO_skip_bulyan w cfg :
  skip_bulyan cfg = true →
  main w cfg =
    ([SetSeeds (cfg_seed cfg); PrintLine "config";
      PrintLine "Skipping experiment because strategy is bulyan and num_malicious is > 20"],
     Returned).
Proof. intros H. unfold main, main_IO. rewrite H. reflexivity. Qed.

Lemma main_IO_skip_attack w cfg :
  skip_bulyan cfg = false → skip_attack cfg = true →
  main w cfg =
    ([SetSeeds (cfg_seed cfg); PrintLine "config";
      PrintLine "Skipping experiment because attack_fn is not gaussian and num_malicious is 0"],
     Returned).
Proof. intros H1 H2. unfold main, main_IO. rewrite H1, H2. reflexivity. Qed.

Lemma main_IO_past_guards w cfg :
  skip_bulyan cfg = false → skip_attack cfg = false →
  main_IO w cfg =
    (IO_emit (SetSeeds (cfg_seed cfg)) ;;
     IO_emit (PrintLine "config") ;;
     IO_emit (PrintLine "Starting experiments") ;;
     (if history_dir_exists cfg then IO_emit Rmtree else IO_ret tt) ;;
     steps_after_guards w cfg)%IO.
Proof. intros H1 H2. unfold main_IO. rewrite H1, H2. reflexivity. Qed.

Lemma bool_false_iff_not (b : bool) (P : Prop) :
  (b = true ↔ P) → (b = false ↔ ¬ P).
Proof.
  destruct b; intros [H1 H2]; split; intros H; try done.
  - exfalso. auto.
  - intros HP. apply H2 in HP. discriminate HP.
Qed.

Lemma main_past_guards w cfg :
  ¬ guard_bulyan cfg → ¬ guard_attack cfg →
  main w cfg =
    ([SetSeeds (cfg_seed cfg); PrintLine "config";
      PrintLine "Starting experiments"]
     ++ (if history_dir_exists cfg then [Rmtree] else [])
     ++ (steps_after_guards w cfg).1,
     outcome_of (steps_after_guards w cfg).2).
Proof.
  intros Hb Ha.
  apply (bool_false_iff_not _ _ (skip_bulyan_spec cfg)) in Hb.
  apply (bool_false_iff_not _ _ (skip_attack_spec cfg)) in Ha.
  unfold main. rewrite (main_IO_past_guards w cfg Hb Ha).
  destruct (steps_after_guards w cfg) as [t [[]|[e msg]]];
    destruct (history_dir_exists cfg); reflexivity.
Qed.

Lemma main_at_guard w cfg :
  guard_bulyan cfg ∨ guard_attack cfg →
  ∃ msg, main w cfg
         = ([SetSeeds (cfg_seed cfg); PrintLine "config"; PrintLine msg],
            Returned)
         ∧ msg ≠ "Starting experiments".
Proof.
  intros Hg. destruct (skip_bulyan cfg) eqn:Eb.
  { eexists. split; [by apply main_IO_skip_bulyan | done]. }
  destruct (skip_attack cfg) eqn:Ea.
  { eexists. split; [by apply main_IO_skip_attack | done]. }
  exfalso. destruct Hg as [H|H].
  - apply skip_bulyan_spec in H. congruence.
  - apply skip_attack_spec in H. congruence.
Qed.

Lemma guards_dec cfg :
  (guard_bulyan cfg ∨ guard_attack cfg)
  ∨ (¬ guard_bulyan cfg ∧ ¬ guard_attack cfg).
Proof.
  destruct (skip_bulyan cfg) eqn:Eb.
  { left. left. by apply skip_bulyan_spec. }
  destruct (skip_attack cfg) eqn:Ea.
  { left. right. by apply skip_attack_spec. }
  right. split.
  - by apply (bool_false_iff_not _ _ (skip_bulyan_spec cfg)).
  - by apply (bool_false_iff_not _ _ (skip_attack_spec cfg)).
Qed.

(** The ways the steps after the guards can end before the simulation. *)
Lemma steps_after_guards_dataset w cfg :
  ¬ In (cfg_dataset cfg) supported_datasets →
  steps_after_guards w cfg = ([], inr (ValueError, "Dataset not supported")).
Proof.
  intros H. unfold steps_after_guards.
  by rewrite (prepare_dataset_unsupported _ H).
Qed.

Lemma steps_after_guards_strategy w cfg e msg :
  In (cfg_dataset cfg) supported_datasets →
  (define_strategy w cfg).2 = inr (e, msg) →
  steps_after_guards w cfg
  = ((prepare_dataset (cfg_dataset cfg)).1 ++ (define_strategy w cfg).1,
     inr (e, msg)).
Proof.
  intros Hd Hs. unfold steps_after_guards.
  pose proof (prepare_dataset_supported _ Hd) as Hp.
  destruct (prepare_dataset (cfg_dataset cfg)) as [t r]. simpl in Hp. subst r.
  destruct (define_strategy w cfg) as [ts rs]. simpl in Hs. subst rs.
  reflexivity.
Qed.

Lemma steps_after_guards_run w cfg :
  In (cfg_dataset cfg) supported_datasets → strategy_accepted w cfg →
  steps_after_guards w cfg
  = ((prepare_dataset (cfg_dataset cfg)).1 ++ (define_strategy w cfg).1
     ++ (run_and_save w cfg).1,
     (run_and_save w cfg).2).
Proof.
  intros Hd Hs. unfold steps_after_guards.
  pose proof (prepare_dataset_supported _ Hd) as Hp.
  apply define_strategy_returns in Hs.
  destruct (prepare_dataset (cfg_dataset cfg)) as [t r]. simpl in Hp. subst r.
  destruct (define_strategy w cfg) as [ts rs]. simpl in Hs. subst rs.
  reflexivity.
Qed.

(** C7, as the code has it: when neither skip guard of [main] fires, a
    strategy name outside the supported ones, or an attack name outside the
    supported ones, makes [main] raise before the simulation is started.
    What it raises is the error of the first step that fails: the
    [ValueError] of an unsupported dataset, then the [ValueError] of an
    unsupported strategy name, then whatever building a supported strategy
    raises (for flanders the import of the aggregation function comes
    first), and only then the [KeyError] of the attack name. *)
Theorem main_unsupported_name_raises w cfg :
  ¬ guard_bulyan cfg → ¬ guard_attack cfg →
  (¬ In (cfg_strategy_name cfg) supported_strategies
   ∨ ¬ In (cfg_server_attack_fn cfg) supported_attacks) →
  simulation_started (main w cfg).1 = false
  ∧ ∃ e msg,
      (main w cfg).2 = Raised e msg
      ∧ ((¬ In (cfg_dataset cfg) supported_datasets
          ∧ e = ValueError ∧ msg = "Dataset not supported")
         ∨ (In (cfg_dataset cfg) supported_datasets
            ∧ ¬ In (cfg_strategy_name cfg) supported_strategies
            ∧ e = ValueError ∧ msg = "Strategy not supported")
         ∨ (In (cfg_dataset cfg) supported_datasets
            ∧ In (cfg_strategy_name cfg) supported_strategies
            ∧ ¬ strategy_accepted w cfg
            ∧ (define_strategy w cfg).2 = inr (e, msg))
         ∨ (In (cfg_dataset cfg) supported_datasets
            ∧ strategy_accepted w cfg
            ∧ ¬ In (cfg_server_attack_fn cfg) supported_attacks
            ∧ e = KeyError ∧ msg = cfg_server_attack_fn cfg)).
Proof.
  intros Hb Ha Hbad. rewrite (main_past_guards w cfg Hb Ha). cbn [fst snd].
  rewrite !simulation_started_app.
  replace (simulation_started (if history_dir_exists cfg then [Rmtree] else []))
    with false by (by destruct (history_dir_exists cfg)).
  cbn [simulation_started existsb is_simulation_event orb].
  fold (simulation_started (steps_after_guards w cfg).1).
  destruct (In_dec_str (cfg_dataset cfg) supported_datasets) as [Hd|Hd].
  2:{ rewrite (steps_after_guards_dataset _ _ Hd). cbn.
      split; [done|]. eexists _, _. split; [done|]. by left. }
  destruct (strategy_accepted_dec w cfg) as [Hs|Hs].
  - destruct Hbad as [Hbad|Hbad]; [by destruct Hs as [Hin _]|].
    rewrite (steps_after_guards_run _ _ Hd Hs).
    rewrite (run_and_save_unsupported _ _ Hbad). cbn [fst snd IO_raise].
    rewrite app_nil_r, simulation_started_app, prepare_dataset_quiet,
      define_strategy_quiet.
    split; [done|]. eexists _, _. split; [done|]. do 3 right. done.
  - destruct (define_strategy w cfg).2 as [[]|[e msg]] eqn:Es.
    { exfalso. by apply Hs, define_strategy_returns. }
    rewrite (steps_after_guards_strategy _ _ _ _ Hd Es). cbn [fst snd].
    rewrite simulation_started_app, prepare_dataset_quiet,
      define_strategy_quiet.
    split; [done|]. exists e, msg. split; [done|].
    destruct (In_dec_str (cfg_strategy_name cfg) supported_strategies)
      as [Hin|Hin].
    + right. right. left. done.
    + right. left. rewrite (define_strategy_unsupported _ _ Hin) in Es.
      by injection Es as <- <-.
Qed.

Lemma main_unsupported_name_raises_witness :
  simulation_started
    (main (world_of example_history) (example_cfg "fedprox" "lie" 2)).1 = false
  ∧ ∃ e msg,
      (main (world_of example_history) (example_cfg "fedprox" "lie" 2)).2
      = Raised e msg
      ∧ ((¬ In (cfg_dataset (example_cfg "fedprox" "lie" 2)) supported_datasets
          ∧ e = ValueError ∧ msg = "Dataset not supported")
         ∨ (In (cfg_dataset (example_cfg "fedprox" "lie" 2)) supported_datasets
            ∧ ¬ In (cfg_strategy_name (example_cfg "fedprox" "lie" 2))
                   supported_strategies
            ∧ e = ValueError ∧ msg = "Strategy not supported")
         ∨ (In (cfg_dataset (example_cfg "fedprox" "lie" 2)) supported_datasets
            ∧ In (cfg_strategy_name (example_cfg "fedprox" "lie" 2))
                 supported_strategies
            ∧ ¬ strategy_accepted (world_of example_history)
                                  (example_cfg "fedprox" "lie" 2)
            ∧ (define_strategy (world_of example_history)
                               (example_cfg "fedprox" "lie" 2)).2
              = inr (e, msg))
         ∨ (In (cfg_dataset (example_cfg "fedprox" "lie" 2)) supported_datasets
            ∧ strategy_accepted (world_of example_history)
                                (example_cfg "fedprox" "lie" 2)
            ∧ ¬ In (cfg_server_attack_fn (example_cfg "fedprox" "lie" 2))
                   supported_attacks
            ∧ e = KeyError
            ∧ msg = cfg_server_attack_fn (example_cfg "fedprox" "lie" 2))).
Proof.
  apply main_unsupported_name_raises.
  - intros [H _]. discriminate H.
  - intros (_ & _ & H). discriminate H.
  - left. unfold supported_strategies. simpl.
    intros H. repeat (destruct H as [H|H]; [discriminate H|]). exact H.
Defined.

(** C7, as the spec words it, fails: with an unsupported strategy name, an
    attack other than gaussian and no malicious client, [main] prints that
    it skips the experiment and returns normally. *)
Lemma main_unsupported_strategy_returns :
  ¬ In (cfg_strategy_name (example_cfg "fedprox" "lie" 0)) supported_strategies
  ∧ main (world_of example_history) (example_cfg "fedprox" "lie" 0) =
      ([SetSeeds 33; PrintLine "config";
        PrintLine "Skipping experiment because attack_fn is not gaussian and num_malicious is 0"],
       Returned).
Proof.
  split; [|reflexivity].
  unfold supported_strategies. simpl.
  intros H. repeat (destruct H as [H|H]; [discriminate H|]). exact H.
Qed.

(** With the strategy flanders, an aggregation function whose module cannot
    be imported and an attack name that is not supported, the error of the
    import is the one [main] ends with; with the module at hand it is the
    [KeyError] of the attack name. *)
Example main_import_error_first :
  main (world_without_module example_history) (example_cfg "flanders" "alie" 2)
  = ([SetSeeds 33; PrintLine "config"; PrintLine "Starting experiments";
      Rmtree; GetDataset "mnist"; DoFlPartitioning 10;
      ImportModule "strategies.aggregate"],
     Raised ModuleNotFoundError "strategies.aggregate")
  ∧ main (world_of example_history) (example_cfg "flanders" "alie" 2)
    = ([SetSeeds 33; PrintLine "config"; PrintLine "Starting experiments";
        Rmtree; GetDataset "mnist"; DoFlPartitioning 10;
        ImportModule "strategies.aggregate"; Instantiate "flanders"],
       Raised KeyError "alie").
Proof. split; reflexivity. Qed.

(** C8: [main] returns without starting the simulation and without writing
    results exactly when the strategy is bulyan with more than 20 malicious
    clients, or the attack is neither gaussian nor na with no malicious
    client; in every other configuration it goes past the guards and
    announces the experiments. *)
Theorem main_skip_guards w cfg :
  ((guard_bulyan cfg ∨ guard_attack cfg) ↔
     ((main w cfg).2 = Returned
      ∧ simulation_started (main w cfg).1 = false
      ∧ ¬ In (PrintLine "Starting experiments") (main w cfg).1))
  ∧ (¬ (guard_bulyan cfg ∨ guard_attack cfg) ↔
     In (PrintLine "Starting experiments") (main w cfg).1).
Proof.
  destruct (guards_dec cfg) as [Hg|[Hb Ha]].
  - destruct (main_at_guard w cfg Hg) as (msg & -> & Hmsg). cbn [fst snd].
    assert (Hn : ¬ In (PrintLine "Starting experiments")
                   [SetSeeds (cfg_seed cfg); PrintLine "config";
                    PrintLine msg]).
    { intros [H|[H|[H|[]]]]; try discriminate H.
      injection H as H. by apply Hmsg. }
    split; split; try tauto.
  - assert (Hin : In (PrintLine "Starting experiments") (main w cfg).1).
    { rewrite (main_past_guards w cfg Hb Ha). simpl. tauto. }
    split; split; tauto.
Qed.

(** C10: [fit_config] ignores its argument: for every server round it is
    the dictionary with exactly the two entries epochs = 1 and
    batch_size = 32. *)
Theorem fit_config_constant :
  ∀ (A B : Type) (server_round : A) (other_round : B),
    fit_config server_round = fit_config other_round
    ∧ fit_config server_round !! "epochs" = Some 1%Z
    ∧ fit_config server_round !! "batch_size" = Some 32%Z
    ∧ ∀ k, k ≠ "epochs" → k ≠ "batch_size" → fit_config server_round !! k = None.
Proof.
  intros A B r r'. unfold fit_config. repeat split.
  - intros k H1 H2. by rewrite !lookup_insert_ne, lookup_empty.
Qed.

(** * Properties of the numpy primitives *)

Lemma mapM_Forall2 {A B} (f : A → result B) (l : list A) :
  Forall (λ a, ∃ b, f a = Ok b) l →
  ∃ l', mapM f l = Ok l' ∧ Forall2 (λ a b, f a = Ok b) l l'.
Proof.
  induction 1 as [|a l [b Hb] _ (l' & Hl' & HF)].
  - exists []. split; [done | constructor].
  - exists (b :: l'). simpl. rewrite Hb. simpl. rewrite Hl'. simpl.
    split; [done | by constructor].
Qed.

Lemma mapM_map {A B} (f : A → result B) (h : A → B) (l : list A) :
  Forall (λ a, f a = Ok (h a)) l → mapM f l = Ok (map h l).
Proof.
  induction 1 as [|a l Ha _ IH]; [done|].
  simpl. rewrite Ha. simpl. rewrite IH. done.
Qed.

Lemma mapM_inv {A B} (f : A → result B) (l : list A) (l' : list B) :
  mapM f l = Ok l' → Forall2 (λ a b, f a = Ok b) l l'.
Proof.
  revert l'. induction l as [|a l IH]; intros l' H; simpl in H.
  - inversion H. constructor.
  - destruct (f a) as [b|] eqn:Ea; simpl in H; [|discriminate].
    destruct (mapM f l) as [bs|] eqn:El; simpl in H; [|discriminate].
    inversion H; subst. constructor; auto.
Qed.

Lemma zip_star_rect {A} (d : nat) (rows : list (list A)) :
  rows ≠ [] → Forall (λ r, length r = d) rows →
  length (zip_star rows) = d ∧ Forall (λ col, col ≠ []) (zip_star rows).
Proof.
  induction rows as [|r rs IH]; [done|]. intros _ Hall.
  apply Forall_cons in Hall as [Hr Hrs].
  destruct rs as [|r' rs'].
  - simpl. rewrite length_map. split; [done|].
    apply Forall_map, Forall_forall. done.
  - destruct IH as [IHl IHc]; [done|done|].
    change (zip_star (r :: r' :: rs'))
      with (zip_with cons r (zip_star (r' :: rs'))).
    split.
    + rewrite length_zip_with. lia.
    + apply Forall_forall. intros col Hin.
      apply elem_of_zip_with in Hin as (x & col' & -> & _ & _). done.
Qed.

Lemma reduce_total {A} (f : A → A → A) (xs : list A) :
  xs ≠ [] → ∃ y, reduce (λ a b, Ok (f a b)) xs = Ok y.
Proof.
  destruct xs as [|x xs]; [done|]. intros _. simpl.
  revert x. induction xs as [|z xs IH]; intros x; simpl; eauto.
Qed.

Lemma np_binop_same_length f (a b : NDArray) :
  length a = length b → np_binop f a b = Ok (zip_with f a b).
Proof. intros H. unfold np_binop. by rewrite H, Nat.eqb_refl. Qed.

Lemma np_inner_same_length (a b : NDArray) :
  length a = length b → np_inner a b = Ok (sum_Qc (zip_with Qcmult a b)).
Proof. intros H. unfold np_inner. by rewrite H, Nat.eqb_refl. Qed.

(** ** [np_argsort] sorts *)

Lemma Qc_leb_le x y : Qc_leb x y = true ↔ (x <= y)%Qc.
Proof. unfold Qc_leb, Qcle. apply Qle_bool_iff. Qed.

Lemma Qc_leb_false x y : Qc_leb x y = false → (y <= x)%Qc.
Proof.
  intros H. destruct (Qclt_le_dec x y) as [Hlt|Hle]; [|done].
  apply Qclt_le_weak, Qc_leb_le in Hlt. congruence.
Qed.

Lemma argsort_insert_perm p l : argsort_insert p l ≡ₚ p :: l.
Proof.
  induction l as [|r l IH]; simpl; [done|].
  destruct (Qc_leb p.1 r.1); [done|].
  rewrite IH. apply Permutation_swap.
Qed.

Lemma argsort_pairs_perm ps : argsort_pairs ps ≡ₚ ps.
Proof.
  induction ps as [|p ps IH]; simpl; [done|].
  rewrite argsort_insert_perm. by rewrite IH.
Qed.

Lemma argsort_insert_sorted p l :
  StronglySorted score_le l → StronglySorted score_le (argsort_insert p l).
Proof.
  induction 1 as [|r l Hs IH Hall]; simpl.
  - repeat constructor.
  - destruct (Qc_leb p.1 r.1) eqn:E.
    + apply Qc_leb_le in E. constructor; [by constructor|].
      constructor; [done|].
      eapply Forall_impl; [exact Hall|]. intros z Hz.
      unfold score_le in *. by eapply Qcle_trans.
    + apply Qc_leb_false in E. constructor; [done|].
      rewrite argsort_insert_perm. by constructor.
Qed.

Lemma argsort_pairs_sorted ps : StronglySorted score_le (argsort_pairs ps).
Proof.
  induction ps as [|p ps IH]; simpl; [constructor|].
  by apply argsort_insert_sorted.
Qed.

Lemma zip_seq_snd {A} (s : list A) k : (zip s (seq k (length s))).*2 = seq k (length s).
Proof. apply snd_zip. by rewrite length_seq. Qed.

Lemma np_argsort_perm s : np_argsort s ≡ₚ seq 0 (length s).
Proof.
  unfold np_argsort. rewrite argsort_pairs_perm. by rewrite zip_seq_snd.
Qed.

Lemma np_argsort_length s : length (np_argsort s) = length s.
Proof. by rewrite np_argsort_perm, length_seq. Qed.

Lemma np_argsort_NoDup s : NoDup (np_argsort s).
Proof. rewrite np_argsort_perm. apply NoDup_seq. Qed.

Lemma elem_of_zip_seq {A} (s : list A) k x i :
  (x, i) ∈ zip s (seq k (length s)) ↔ k ≤ i ∧ s !! (i - k) = Some x.
Proof.
  revert k. induction s as [|a s IH]; intros k; simpl.
  - split; [by intros ?%elem_of_nil | intros [_ H]; done].
  - rewrite elem_of_cons, IH. split.
    + intros [[= -> ->]|[Hk Hl]].
      * rewrite Nat.sub_diag. done.
      * split; [lia|]. replace (i - k) with (S (i - S k)) by lia. done.
    + intros [Hk Hl]. destruct (decide (i = k)) as [->|Hne].
      * rewrite Nat.sub_diag in Hl. simpl in Hl. left. congruence.
      * right. split; [lia|].
        replace (i - k) with (S (i - S k)) in Hl by lia. done.
Qed.

(** Whatever prefix of the sorted order is kept, an index that is kept has
    a score no larger than the score of an index that is not. *)
Lemma np_argsort_take_smallest (s : list Qc) (k i j : nat) (x y : Qc) :
  i ∈ take k (np_argsort s) → j ∉ take k (np_argsort s) →
  s !! i = Some x → s !! j = Some y → (x <= y)%Qc.
Proof.
  unfold np_argsort. intros Hi Hj Hx Hy.
  set (l := argsort_pairs (zip s (seq 0 (length s)))) in *.
  assert (Hsorted : StronglySorted score_le (take k l ++ drop k l)).
  { rewrite take_drop. apply argsort_pairs_sorted. }
  assert (Hmem : ∀ z n, (z, n) ∈ l ↔ s !! n = Some z).
  { intros z n. unfold l. rewrite argsort_pairs_perm, elem_of_zip_seq.
    rewrite Nat.sub_0_r. split; [tauto | intros; split; [lia|done]]. }
  rewrite <- fmap_take in Hi, Hj.
  apply list_elem_of_fmap in Hi as ([x' i'] & Heq & Hi). simpl in Heq. subst i'.
  assert (x' = x) as ->.
  { apply elem_of_take in Hi as (n & Hn & _).
    apply list_elem_of_lookup_2, Hmem in Hn. congruence. }
  assert (Hyl : (y, j) ∈ drop k l).
  { apply Hmem in Hy. rewrite <- (take_drop k l) in Hy.
    apply elem_of_app in Hy as [Hy|Hy]; [|done].
    exfalso. apply Hj. apply list_elem_of_fmap. by exists (y, j). }
  clear -Hsorted Hi Hyl.
  induction (take k l) as [|p t IH]; simpl in *.
  - by apply elem_of_nil in Hi.
  - apply StronglySorted_inv in Hsorted as [Hs Hall].
    apply elem_of_cons in Hi as [<-|Hi]; [|by apply IH].
    rewrite Forall_forall in Hall.
    apply (Hall (y, j)). apply elem_of_app. by right.
Qed.

(** Equal scores: the order of the clients is kept. *)
Lemma argsort_pairs_constant (x : Qc) ps :
  Forall (λ p : Qc * nat, p.1 = x) ps → argsort_pairs ps = ps.
Proof.
  induction 1 as [|p ps Hp Hall IH]; [done|].
  simpl. rewrite IH. destruct Hall as [|r ps Hr _]; [done|].
  simpl. rewrite Hp, Hr.
  replace (Qc_leb x x) with true; [done|].
  symmetry. apply Qc_leb_le, Qcle_refl.
Qed.

Lemma np_argsort_constant (x : Qc) s :
  Forall (λ y, y = x) s → np_argsort s = seq 0 (length s).
Proof.
  intros H. unfold np_argsort.
  rewrite (argsort_pairs_constant x); [apply zip_seq_snd|].
  apply Forall_forall. intros [y i] Hin. simpl.
  apply elem_of_zip_l in Hin. rewrite Forall_forall in H. by apply H.
Qed.

(** * Properties of one iteration of [aggregate_dnc] *)

Section iteration.
Context `{N : Numpy}.

Lemma M_bind_Ok {A B} (m : M A) (k : A → M B) g a g' :
  m g = (Ok a, g') → M_bind m k g = k a g'.
Proof. intros H. unfold M_bind. by rewrite H. Qed.

Lemma take_indices_in_range (fp : NDArray) (idx : list nat) :
  Forall (λ i, i < length fp) idx →
  ∃ row, take_indices fp idx = Ok row
         ∧ Forall2 (λ i x, fp !! i = Some x) idx row.
Proof.
  intros Hr. unfold take_indices.
  destruct (mapM_Forall2
              (λ i, match fp !! i with
                    | Some x => Ok x
                    | None => Raise IndexError
                    end) idx) as (row & Hrow & HF).
  { eapply Forall_impl; [exact Hr|]. intros i Hi. simpl in *.
    destruct (lookup_lt_is_Some_2 fp i Hi) as [x Hx].
    exists x. by rewrite Hx. }
  exists row. split; [done|].
  eapply Forall2_impl; [exact HF|]. intros i x Hix. simpl in Hix.
  destruct (fp !! i); [congruence | discriminate].
Qed.

Lemma dnc_sample_draws (flattened_params : list NDArray) (b : Z) d g :
  rect d flattened_params → flattened_params ≠ [] →
  (0 < b)%Z → (b < Z.of_nat d)%Z →
  ∃ sampled_params,
    dnc_sample flattened_params b g
    = (Ok sampled_params, (np_random_randint d (Z.to_nat b) g).2)
    ∧ Forall2 (λ fp row,
                 Forall2 (λ i x, fp !! i = Some x)
                         (np_random_randint d (Z.to_nat b) g).1 row)
              flattened_params sampled_params.
Proof.
  intros Hrect Hne Hb Hd. unfold dnc_sample.
  destruct flattened_params as [|fp0 fl]; [done|].
  assert (Hfp0 : length fp0 = d) by (by apply Forall_cons in Hrect as [? _]).
  rewrite (proj2 (Z.ltb_lt 0 b) Hb), Hfp0, (proj2 (Z.ltb_lt _ _) Hd).
  rewrite Z.min_l by lia.
  pose proof (randint_range d (Z.to_nat b) g) as Hrange.
  destruct (np_random_randint d (Z.to_nat b) g) as [idx g'] eqn:Er.
  simpl in *.
  destruct (mapM_Forall2 (λ fp, take_indices fp idx) (fp0 :: fl))
    as (sampled & Hs & HF).
  { eapply Forall_impl; [exact Hrect|]. intros fp Hfp. simpl in Hfp.
    destruct (take_indices_in_range fp idx) as (row & Hrow & _).
    - rewrite Hfp. apply Hrange. lia.
    - by exists row. }
  exists sampled. simpl in Hs. rewrite Hs. split; [done|].
  eapply Forall2_impl; [exact HF|]. intros fp row Hrow. simpl in Hrow.
  unfold take_indices in Hrow. apply mapM_inv in Hrow.
  eapply Forall2_impl; [exact Hrow|]. intros i x Hix. simpl in Hix.
  destruct (fp !! i); [congruence | discriminate].
Qed.

Lemma dnc_sample_keeps (flattened_params : list NDArray) (b : Z) d g :
  rect d flattened_params → flattened_params ≠ [] →
  ((b ≤ 0)%Z ∨ (Z.of_nat d ≤ b)%Z) →
  dnc_sample flattened_params b g = (Ok flattened_params, g).
Proof.
  intros Hrect Hne Hb. unfold dnc_sample.
  destruct flattened_params as [|fp0 fl]; [done|].
  assert (Hfp0 : length fp0 = d) by (by apply Forall_cons in Hrect as [? _]).
  destruct (Z.ltb_spec 0 b); [|done].
  rewrite Hfp0. destruct (Z.ltb_spec b (Z.of_nat d)); [lia|done].
Qed.

(** On a matrix with at least one row and one column the updates an
    iteration works on are again such a matrix, with as many rows. *)
Lemma dnc_sample_rect (flattened_params : list NDArray) (b : Z) d g :
  rect d flattened_params → flattened_params ≠ [] → 0 < d →
  ∃ sampled_params d' g',
    dnc_sample flattened_params b g = (Ok sampled_params, g')
    ∧ rect d' sampled_params ∧ 0 < d'
    ∧ length sampled_params = length flattened_params.
Proof.
  intros Hrect Hne Hd.
  destruct (decide ((0 < b)%Z ∧ (b < Z.of_nat d)%Z)) as [[Hb Hbd]|Hno].
  - destruct (dnc_sample_draws _ b d g Hrect Hne Hb Hbd) as (sp & Hsp & HF).
    exists sp, (Z.to_nat b), (np_random_randint d (Z.to_nat b) g).2.
    split; [done|]. split; [|split; [lia|]].
    + apply Forall_forall. intros row Hrow.
      apply list_elem_of_lookup in Hrow as [k Hk].
      destruct (Forall2_lookup_r _ _ _ _ _ HF Hk) as (fp & _ & Hfp).
      rewrite <- (Forall2_length _ _ _ Hfp). apply randint_length.
    + symmetry. by eapply Forall2_length.
  - exists flattened_params, d, g.
    rewrite (dnc_sample_keeps _ b d g Hrect Hne) by lia. done.
Qed.

Lemma dnc_mu_rect (sampled_params : list NDArray) d :
  rect d sampled_params → sampled_params ≠ [] →
  ∃ mu, dnc_mu sampled_params = Ok mu ∧ length mu = d.
Proof.
  intros Hrect Hne.
  destruct (zip_star_rect d sampled_params Hne Hrect) as [Hlen Hcols].
  unfold dnc_mu.
  destruct (mapM_Forall2
    (λ layer_updates,
       (s <- reduce (λ x y, Ok (x + y)%Qc) layer_updates ;;
        Ok (s / Qc_of_nat (length sampled_params))%Qc)%result)
    (zip_star sampled_params)) as (mu & Hmu & HF).
  { eapply Forall_impl; [exact Hcols|]. intros col Hcol. simpl in *.
    destruct (reduce_total Qcplus col Hcol) as [y Hy].
    rewrite Hy. simpl. eauto. }
  exists mu. split; [done|].
  rewrite <- (Forall2_length _ _ _ HF). done.
Qed.

Lemma dnc_model_c_rect (sampled_params : list NDArray) (mu : NDArray) d :
  rect d sampled_params → length mu = d →
  dnc_model_c sampled_params mu
  = Ok (map (λ row, zip_with Qcminus row mu) sampled_params).
Proof.
  intros Hrect Hmu. unfold dnc_model_c. apply mapM_map.
  eapply Forall_impl; [exact Hrect|]. intros row Hrow. simpl in *.
  apply np_binop_same_length. congruence.
Qed.

Lemma dnc_v0_rect (model_c : list NDArray) d :
  rect d model_c → model_c ≠ [] → 0 < d →
  dnc_v0 model_c = Ok (linalg_svd_vh0 model_c)
  ∧ length (linalg_svd_vh0 model_c) = d.
Proof.
  intros Hrect Hne Hd. split; [|by apply svd_vh0_length].
  unfold dnc_v0. destruct model_c as [|r rs]; [done|].
  apply Forall_cons in Hrect as [Hr Hrs].
  replace (forallb (λ r', Nat.eqb (length r') (length r)) rs) with true.
  - rewrite Hr. destruct d; [lia|done].
  - symmetry. apply forallb_forall. intros r' Hin.
    apply Nat.eqb_eq. rewrite Forall_forall in Hrs.
    rewrite Hr. apply Hrs. by apply list_elem_of_In.
Qed.

Lemma dnc_s_rect (sampled_params : list NDArray) (v0 : NDArray) d :
  rect d sampled_params → length v0 = d →
  dnc_s sampled_params v0
  = Ok (map (λ model_i,
               let x := sum_Qc (zip_with Qcmult model_i v0) in (x * x)%Qc)
            sampled_params).
Proof.
  intros Hrect Hv. unfold dnc_s. apply mapM_map.
  eapply Forall_impl; [exact Hrect|]. intros row Hrow. simpl in *.
  rewrite np_inner_same_length by congruence. done.
Qed.

(** The scores of an iteration, in closed form: the squared inner product
    of each update the iteration works on with the singular vector of the
    centred updates. *)
Lemma dnc_scores_rect (sampled_params : list NDArray) d :
  rect d sampled_params → sampled_params ≠ [] → 0 < d →
  ∃ mu,
    dnc_mu sampled_params = Ok mu ∧ length mu = d
    ∧ let model_c := map (λ row, zip_with Qcminus row mu) sampled_params in
      let v0 := linalg_svd_vh0 model_c in
      dnc_scores sampled_params
      = Ok (map (λ model_i,
                   let x := sum_Qc (zip_with Qcmult model_i v0) in (x * x)%Qc)
                sampled_params).
Proof.
  intros Hrect Hne Hd.
  destruct (dnc_mu_rect _ d Hrect Hne) as (mu & Hmu & Hlen).
  exists mu. split; [done|]. split; [done|]. intros model_c v0.
  assert (Hc : rect d model_c).
  { apply Forall_map. eapply Forall_impl; [exact Hrect|].
    intros row Hrow. simpl in *. rewrite length_zip_with. lia. }
  assert (Hcne : model_c ≠ []).
  { unfold model_c. destruct sampled_params; done. }
  destruct (dnc_v0_rect model_c d Hc Hcne Hd) as [Hv0 Hv0len].
  unfold dnc_scores. rewrite Hmu. simpl.
  rewrite (dnc_model_c_rect _ _ d Hrect Hlen). simpl.
  fold model_c. rewrite Hv0. simpl.
  by apply (dnc_s_rect _ _ d).
Qed.

(** An iteration on a matrix succeeds and keeps a slice of the sorted
    order of its scores. *)
Lemma dnc_iteration_rect (flattened_params : list NDArray) c b m d g :
  rect d flattened_params → flattened_params ≠ [] → 0 < d →
  ∃ sampled_params s g',
    dnc_sample flattened_params b g = (Ok sampled_params, g')
    ∧ dnc_scores sampled_params = Ok s
    ∧ length s = length flattened_params
    ∧ dnc_iteration flattened_params c b m g
      = (Ok (dnc_I (length flattened_params) c m s), g').
Proof.
  intros Hrect Hne Hd.
  destruct (dnc_sample_rect _ b d g Hrect Hne Hd)
    as (sp & d' & g' & Hsp & Hrect' & Hd' & Hlen).
  assert (Hspne : sp ≠ []).
  { destruct sp; [|done]. destruct flattened_params; done. }
  destruct (dnc_scores_rect sp d' Hrect' Hspne Hd') as (mu & _ & _ & Hs).
  simpl in Hs. eexists sp, _, g'. split; [done|]. split; [exact Hs|].
  split; [by rewrite length_map|].
  unfold dnc_iteration. rewrite (M_bind_Ok _ _ _ _ _ Hsp).
  unfold M_bind, M_lift, M_ret. rewrite Hs. done.
Qed.

(** The loop, for any property of the kept indices that every iteration
    establishes. *)
Lemma dnc_loop_Forall (P : list nat → Prop) flattened_params c b m :
  (∀ g, ∃ I g', dnc_iteration flattened_params c b m g = (Ok I, g') ∧ P I) →
  ∀ iters I_good g, Forall P I_good →
    ∃ I_good' g',
      dnc_loop iters flattened_params c b m I_good g = (Ok I_good', g')
      ∧ Forall P I_good'
      ∧ length I_good' = length I_good + iters.
Proof.
  intros Hiter. induction iters as [|iters IH]; intros I_good g HP; simpl.
  - exists I_good, g. unfold M_ret. split; [done|]. split; [done|lia].
  - destruct (Hiter g) as (I & g1 & HI & HPI).
    rewrite (M_bind_Ok _ _ _ _ _ HI).
    destruct (IH (I_good ++ [I]) g1) as (I_good' & g' & Hl & HP' & Hlen).
    { apply Forall_app. split; [done|]. by constructor. }
    exists I_good', g'. split; [done|]. split; [done|].
    rewrite Hlen, length_app. simpl. lia.
Qed.

End iteration.

(** * Properties of [aggregate_dnc] *)

Lemma mem_spec i I : mem i I = true ↔ i ∈ I.
Proof.
  unfold mem. rewrite existsb_exists. split.
  - intros (j & Hj & Heq). apply Nat.eqb_eq in Heq. subst.
    by apply list_elem_of_In.
  - intros Hin. exists i. split; [by apply list_elem_of_In|].
    apply Nat.eqb_refl.
Qed.

Lemma dnc_I_final_elem (n : nat) (I_good : list (list nat)) I_final i :
  dnc_I_final n I_good = Ok I_final →
  i ∈ I_final ↔ i < n ∧ Forall (λ I, i ∈ I) I_good.
Proof.
  intros H.
  assert (I_final
          = List.filter (λ i, forallb (mem i) I_good) (seq 0 n)) as ->.
  { unfold dnc_I_final in H. destruct I_good; [done | congruence]. }
  clear H. rewrite list_elem_of_In, List.filter_In, in_seq.
  rewrite forallb_forall, Forall_forall.
  split; intros [Hn Hall]; (split; [lia|]); intros I HI.
  - apply mem_spec, Hall. by apply list_elem_of_In.
  - apply mem_spec, Hall. by apply list_elem_of_In.
Qed.

Lemma dnc_I_final_nonempty (n : nat) (I_good : list (list nat)) :
  I_good ≠ [] → ∃ I_final, dnc_I_final n I_good = Ok I_final.
Proof. destruct I_good; [done|]. intros _. simpl. eauto. Qed.

Lemma dnc_res_in_range (results : list ClientResult) (I_final : list nat) :
  Forall (λ i, i < length results) I_final →
  ∃ res, dnc_res results I_final = Ok res
         ∧ Forall2 (λ i r, results !! i = Some r) I_final res.
Proof.
  intros Hr. unfold dnc_res.
  destruct (mapM_Forall2
              (λ i, match results !! i with
                    | Some r => Ok r
                    | None => Raise IndexError
                    end) I_final) as (res & Hres & HF).
  { eapply Forall_impl; [exact Hr|]. intros i Hi. simpl in *.
    destruct (lookup_lt_is_Some_2 results i Hi) as [x Hx].
    exists x. by rewrite Hx. }
  exists res. split; [done|].
  eapply Forall2_impl; [exact HF|]. intros i x Hix. simpl in Hix.
  destruct (results !! i); [congruence | discriminate].
Qed.

Lemma Forall2_lookup_seq {A} (l : list A) :
  Forall2 (λ i r, l !! i = Some r) (seq 0 (length l)) l.
Proof.
  apply Forall2_same_length_lookup. split; [by rewrite length_seq|].
  intros k i r Hi Hr. apply lookup_seq in Hi as [-> _]. done.
Qed.

Lemma Forall2_lookup_functional {A} (l : list A) (I : list nat) res res' :
  Forall2 (λ i r, l !! i = Some r) I res →
  Forall2 (λ i r, l !! i = Some r) I res' → res = res'.
Proof.
  intros H. revert res'. induction H as [|i r I res Hi _ IH]; intros res' H'.
  - by inversion H'.
  - inversion H' as [|? r' ? res'' Hi' Hrest]; subst.
    f_equal; [congruence | by apply IH].
Qed.

Section whole.
Context `{N : Numpy}.

(** What is returned once the loop is over. *)
Lemma aggregate_dnc_after_loop results c b niters m g I_good g' :
  dnc_I_good results c b niters m g = (Ok I_good, g') →
  aggregate_dnc results c b niters m g
  = ((I_final <- dnc_I_final (length results) I_good ;;
      res <- dnc_res results I_final ;;
      aggregate res)%result, g').
Proof.
  intros H. unfold aggregate_dnc. by rewrite (M_bind_Ok _ _ _ _ _ H).
Qed.

(** C1, as the code has it: when the loop has run and the kept-index sets
    of its iterations have no common member, [aggregate_dnc] raises
    nothing; it hands the empty selection to [aggregate] and returns the
    empty list of layers. *)
Theorem aggregate_dnc_empty_intersection results c b niters m g I_good g' :
  dnc_I_good results c b niters m g = (Ok I_good, g') →
  dnc_I_final (length results) I_good = Ok [] →
  aggregate_dnc results c b niters m g = (Ok [], g').
Proof.
  intros Hloop Hfinal.
  rewrite (aggregate_dnc_after_loop _ _ _ _ _ _ _ _ Hloop), Hfinal.
  reflexivity.
Qed.



(** No index is drawn when [b <= 0] or the vectors are not longer than
    [b]: the loop then leaves the generator alone and its result does not
    depend on it. *)
Lemma dnc_loop_no_sampling flattened_params c b m d :
  rect d flattened_params → flattened_params ≠ [] →
  ((b ≤ 0)%Z ∨ (Z.of_nat d ≤ b)%Z) →
  ∀ iters I_good g g0,
    (dnc_loop iters flattened_params c b m I_good g).2 = g
    ∧ (dnc_loop iters flattened_params c b m I_good g).1
      = (dnc_loop iters flattened_params c b m I_good g0).1.
Proof.
  intros Hrect Hne Hb.
  assert (Hit : ∀ g, dnc_iteration flattened_params c b m g
                     = (match dnc_scores flattened_params with
                        | Ok s => Ok (dnc_I (length flattened_params) c m s)
                        | Raise e => Raise e
                        end, g)).
  { intros g. unfold dnc_iteration, M_bind.
    rewrite (dnc_sample_keeps _ b d g Hrect Hne Hb).
    unfold M_lift, M_ret. by destruct (dnc_scores flattened_params). }
  induction iters as [|iters IH]; intros I_good g g0; simpl; [done|].
  unfold M_bind. rewrite !Hit.
  destruct (dnc_scores flattened_params); [apply IH | done].
Qed.

End whole.

(** * Running the definitions on concrete inputs *)

Lemma Qc_eqb_eq x y : Qc_eqb x y = true → x = y.
Proof. unfold Qc_eqb. intros H. by apply Qc_is_canon, Qeq_bool_iff. Qed.

Lemma list_eqb_eq {A} (eqb : A → A → bool) :
  (∀ a a', eqb a a' = true → a = a') →
  ∀ l l', list_eqb eqb l l' = true → l = l'.
Proof.
  intros Heqb. induction l as [|a l IH]; intros [|a' l'] H; simpl in H;
    try done.
  apply andb_true_iff in H as [Ha Hl]. f_equal; auto.
Qed.

Lemma result_eqb_eq {A} (eqb : A → A → bool) :
  (∀ a a', eqb a a' = true → a = a') →
  ∀ r r', result_eqb eqb r r' = true → r = r'.
Proof.
  intros Heqb [a|e] [a'|e'] H; simpl in H; try done.
  - f_equal. auto.
  - f_equal. by apply bool_decide_eq_true in H.
Qed.

Lemma vector_eq (l l' : list Qc) : list_eqb Qc_eqb l l' = true → l = l'.
Proof. apply list_eqb_eq, Qc_eqb_eq. Qed.

Lemma matrix_eq (l l' : list (list Qc)) :
  list_eqb (list_eqb Qc_eqb) l l' = true → l = l'.
Proof. apply list_eqb_eq, vector_eq. Qed.

Lemma result_vector_eq (r r' : result (list Qc)) :
  result_eqb (list_eqb Qc_eqb) r r' = true → r = r'.
Proof. apply result_eqb_eq, vector_eq. Qed.

Lemma result_matrix_eq (r r' : result (list (list Qc))) :
  result_eqb (list_eqb (list_eqb Qc_eqb)) r r' = true → r = r'.
Proof. apply result_eqb_eq, matrix_eq. Qed.

Lemma run_eq {S} (r r' : result (list (list Qc))) (g g' : S) :
  result_eqb (list_eqb (list_eqb Qc_eqb)) r r' = true → g = g' →
  (r, g) = (r', g').
Proof. intros H ->. f_equal. by apply result_matrix_eq. Qed.

(** C1, as the spec words it, fails: with [b = 1] the first iteration looks
    at coordinate 0 and keeps client 0, the second looks at coordinate 1 and
    keeps client 1; the intersection is empty and the call returns the empty
    list of layers instead of failing. *)
Lemma two_iterations_disjoint_kept_sets :
  @dnc_I_good counter_numpy two_clients (q 1) 1 2 1 0 = (Ok [[0]; [1]], 2)
  ∧ dnc_I_final (length two_clients) [[0]; [1]] = Ok []
  ∧ @aggregate_dnc counter_numpy two_clients (q 1) 1 2 1 0 = (Ok [], 2).
Proof. repeat split; vm_compute; reflexivity. Qed.

Lemma aggregate_dnc_empty_intersection_witness :
  @aggregate_dnc counter_numpy two_clients (q 1) 1 2 1 0 = (Ok [], 2).
Proof.
  apply (@aggregate_dnc_empty_intersection counter_numpy two_clients
           (q 1) 1 2 1 0 [[0]; [1]] 2); vm_compute; reflexivity.
Defined.


(** A draw that names coordinate 2 twice and one that names coordinates 1
    and 0, in this order: from the counter states 8 and 1 the two clients
    are projected to (3, 3), (6, 6) and to (2, 1), (5, 4). *)
Example dnc_sample_repeated_coordinate :
  (@np_random_randint counter_numpy 3 2 8).1 = [2; 2]
  ∧ (@dnc_sample counter_numpy [[q 1; q 2; q 3]; [q 4; q 5; q 6]] 2 8).1
    = Ok [[q 3; q 3]; [q 6; q 6]]
  ∧ (@np_random_randint counter_numpy 3 2 1).1 = [1; 0]
  ∧ (@dnc_sample counter_numpy [[q 1; q 2; q 3]; [q 4; q 5; q 6]] 2 1).1
    = Ok [[q 2; q 1]; [q 5; q 4]].
Proof.
  repeat split; try reflexivity; apply result_matrix_eq; vm_compute;
    reflexivity.
Qed.

Lemma squared_score (a t : Qc) :
  (t * t + q 0 = q 1)%Qc → ((a * t + q 0) * (a * t + q 0) = a * a)%Qc.
Proof.
  change (q 0) with 0%Qc. change (q 1) with 1%Qc. intros Ht.
  transitivity (a * a * (t * t + 0))%Qc; [ring | rewrite Ht; ring].
Qed.

(** C2 on three clients with the one-parameter updates 1, 5 and 6, one
    iteration, [c = 1] and one malicious client: the centred updates are
    -3, 1 and 2, and [v] is a unit vector.  The code scores the updates
    themselves (1, 25, 36), keeps clients 0 and 1 and returns 3; scoring the
    centred updates (9, 1, 4) keeps clients 1 and 2. *)
Theorem dnc_scores_not_centred `{N : Numpy} (g : rng_state) :
  sum_Qc (zip_with Qcmult (linalg_svd_vh0 [[q (-3)]; [q 1]; [q 2]])
                          (linalg_svd_vh0 [[q (-3)]; [q 1]; [q 2]])) = q 1 →
  dnc_scores [[q 1]; [q 5]; [q 6]] = Ok [q 1; q 25; q 36]
  ∧ dnc_scores_centred [[q 1]; [q 5]; [q 6]] = Ok [q 9; q 1; q 4]
  ∧ dnc_I 3 (q 1) 1 [q 1; q 25; q 36] = [0; 1]
  ∧ dnc_I 3 (q 1) 1 [q 9; q 1; q 4] = [1; 2]
  ∧ aggregate_dnc three_clients (q 1) 0 1 1 g = (Ok [[q 3]], g).
Proof.
  intros Hunit.
  set (model_c := [[q (-3)]; [q 1]; [q 2]]) in *.
  assert (Hlen : length (linalg_svd_vh0 model_c) = 1).
  { apply svd_vh0_length; [done | lia | repeat constructor]. }
  destruct (linalg_svd_vh0 model_c) as [|t [|? ?]] eqn:Hv; try done.
  clear Hlen. simpl in Hunit.
  assert (Hmu : dnc_mu [[q 1]; [q 5]; [q 6]] = Ok [q 4]).
  { apply result_vector_eq. vm_compute. reflexivity. }
  assert (Hc : dnc_model_c [[q 1]; [q 5]; [q 6]] [q 4] = Ok model_c).
  { apply result_matrix_eq. vm_compute. reflexivity. }
  assert (Hv0 : dnc_v0 model_c = Ok [t]).
  { unfold dnc_v0, model_c. simpl. fold model_c. by rewrite Hv. }
  assert (Hs : dnc_scores [[q 1]; [q 5]; [q 6]] = Ok [q 1; q 25; q 36]).
  { unfold dnc_scores. rewrite Hmu. cbn [result_bind].
    rewrite Hc. cbn [result_bind]. rewrite Hv0. cbn [result_bind].
    unfold dnc_s, np_inner. simpl.
    rewrite !squared_score by done.
    apply result_vector_eq. vm_compute. reflexivity. }
  split; [exact Hs|]. split.
  { unfold dnc_scores_centred. rewrite Hmu. cbn [result_bind].
    rewrite Hc. cbn [result_bind]. rewrite Hv0. cbn [result_bind].
    unfold dnc_s, np_inner, model_c. simpl.
    rewrite !squared_score by done.
    apply result_vector_eq. vm_compute. reflexivity. }
  split; [vm_compute; reflexivity|]. split; [vm_compute; reflexivity|].
  assert (Hloop : dnc_I_good three_clients (q 1) 0 1 1 g = (Ok [[0; 1]], g)).
  { unfold dnc_I_good. simpl. unfold dnc_iteration, M_bind, M_lift, M_ret.
    simpl. rewrite Hs. f_equal. }
  rewrite (aggregate_dnc_after_loop _ _ _ _ _ _ _ _ Hloop).
  apply run_eq; [vm_compute; reflexivity | done].
Qed.

Lemma dnc_scores_not_centred_witness :
  @dnc_scores counter_numpy [[q 1]; [q 5]; [q 6]] = Ok [q 1; q 25; q 36]
  ∧ @dnc_scores_centred counter_numpy [[q 1]; [q 5]; [q 6]]
    = Ok [q 9; q 1; q 4]
  ∧ dnc_I 3 (q 1) 1 [q 1; q 25; q 36] = [0; 1]
  ∧ dnc_I 3 (q 1) 1 [q 9; q 1; q 4] = [1; 2]
  ∧ @aggregate_dnc counter_numpy three_clients (q 1) 0 1 1 0
    = (Ok [[q 3]], 0).
Proof.
  apply (@dnc_scores_not_centred counter_numpy 0).
  apply Qc_eqb_eq. vm_compute. reflexivity.
Defined.

(** What a drawing iteration computes, as a function of the index array
    it is handed by the generator. *)
Lemma dnc_iteration_of_draw `{N : Numpy}
      (flattened_params : list NDArray) c b m (d : nat) :
  rect d flattened_params → flattened_params ≠ [] →
  (0 < b)%Z → (b < Z.of_nat d)%Z →
  ∃ F : list nat → result (list nat), ∀ g,
    dnc_iteration flattened_params c b m g
    = (F (np_random_randint d (Z.to_nat b) g).1,
       (np_random_randint d (Z.to_nat b) g).2).
Proof.
  intros Hrect Hne Hb Hbd.
  exists (λ idx,
    match mapM (λ fp, take_indices fp idx) flattened_params with
    | Ok sp => match dnc_scores sp with
               | Ok s => Ok (dnc_I (length flattened_params) c m s)
               | Raise e => Raise e
               end
    | Raise e => Raise e
    end).
  intros g. unfold dnc_iteration, M_bind, dnc_sample.
  destruct flattened_params as [|fp0 fl]; [done|].
  assert (Hfp0 : length fp0 = d) by (by apply Forall_cons in Hrect as [? _]).
  rewrite (proj2 (Z.ltb_lt 0 b) Hb), Hfp0, (proj2 (Z.ltb_lt _ _) Hbd).
  rewrite Z.min_l by lia.
  destruct (np_random_randint d (Z.to_nat b) g) as [idx g'].
  cbn [fst snd].
  destruct (mapM (λ fp, take_indices fp idx) (fp0 :: fl)) as [sp|e]; [|done].
  unfold M_lift, M_ret. by destruct (dnc_scores sp).
Qed.

(** The kept sets of a drawing loop depend on the generator through the
    index arrays alone. *)
Lemma dnc_loop_of_draws `{N : Numpy}
      (flattened_params : list NDArray) c b m (d : nat) :
  rect d flattened_params → flattened_params ≠ [] →
  (0 < b)%Z → (b < Z.of_nat d)%Z →
  ∀ iters I_good g1 g2,
    randint_draws iters d (Z.to_nat b) g1
    = randint_draws iters d (Z.to_nat b) g2 →
    (dnc_loop iters flattened_params c b m I_good g1).1
    = (dnc_loop iters flattened_params c b m I_good g2).1.
Proof.
  intros Hrect Hne Hb Hbd.
  destruct (dnc_iteration_of_draw flattened_params c b m d Hrect Hne Hb Hbd)
    as [F HF].
  induction iters as [|iters IH]; intros I_good g1 g2 Hdraws; [done|].
  cbn [randint_draws] in Hdraws. injection Hdraws as Hidx Hrest.
  cbn [dnc_loop]. unfold M_bind. rewrite !HF, Hidx.
  destruct (F (np_random_randint d (Z.to_nat b) g2).1) as [I|e]; [|done].
  by apply IH.
Qed.

(** A drawing loop advances the generator by one draw per iteration. *)
Lemma dnc_loop_advances `{N : Numpy}
      (flattened_params : list NDArray) c b m (d : nat) :
  rect d flattened_params → flattened_params ≠ [] →
  (0 < b)%Z → (b < Z.of_nat d)%Z →
  ∀ iters I_good g,
    ∃ I_good',
      dnc_loop iters flattened_params c b m I_good g
      = (Ok I_good',
         Nat.iter iters (λ g', (np_random_randint d (Z.to_nat b) g').2) g).
Proof.
  intros Hrect Hne Hb Hbd.
  induction iters as [|iters IH]; intros I_good g.
  - exists I_good. reflexivity.
  - destruct (dnc_sample_draws _ b d g Hrect Hne Hb Hbd) as (sp & Hsp & _).
    destruct (dnc_iteration_rect _ c b m d g Hrect Hne)
      as (sp' & s & g' & Hsp' & _ & _ & Hit); [lia|].
    rewrite Hsp in Hsp'. injection Hsp' as _ <-.
    simpl dnc_loop. rewrite (M_bind_Ok _ _ _ _ _ Hit).
    destruct (IH (I_good ++ [dnc_I (length flattened_params) c m s])
                 (np_random_randint d (Z.to_nat b) g).2)
      as [I_good' ->].
    exists I_good'. by rewrite Nat.iter_succ_r.
Qed.

(** C3, as the code has it.  [aggregate_dnc] has no random source among its
    arguments: the indices come from numpy's process-wide generator, which
    lines 65-66 of [main] put in the state that belongs to [cfg.seed].  The
    kept-index sets and the value returned depend on the generator through
    the index arrays it delivers and through nothing else: two calls on the
    same arguments whose generators deliver the same [niters] arrays end
    alike, as do two calls made right after the seeding of lines 65-66 with
    one seed.  A call that draws ([0 < b < d]) leaves the generator
    [niters] draws further on, which is where the next call in the process
    starts; a call that does not draw leaves it alone and ends the same in
    whatever state the generator is. *)
Theorem aggregate_dnc_seeded `{N : Numpy}
        (results : list ClientResult) c b niters m (d : nat) :
  results ≠ [] →
  rect d (map (λ r : ClientResult, flatten_params r.1) results) →
  (∀ g1 g2,
     randint_draws (Z.to_nat niters) d (Z.to_nat b) g1
     = randint_draws (Z.to_nat niters) d (Z.to_nat b) g2 →
     (dnc_I_good results c b niters m g1).1
     = (dnc_I_good results c b niters m g2).1
     ∧ (aggregate_dnc results c b niters m g1).1
       = (aggregate_dnc results c b niters m g2).1)
  ∧ (∀ seed g g',
       aggregate_dnc results c b niters m (main_seed seed g)
       = aggregate_dnc results c b niters m (main_seed seed g'))
  ∧ (∀ g, (aggregate_dnc results c b niters m g).2
          = if bool_decide ((0 < b)%Z ∧ (b < Z.of_nat d)%Z)
            then Nat.iter (Z.to_nat niters)
                          (λ g', (np_random_randint d (Z.to_nat b) g').2) g
            else g)
  ∧ (¬ ((0 < b)%Z ∧ (b < Z.of_nat d)%Z) →
     ∀ g g0, (aggregate_dnc results c b niters m g).1
             = (aggregate_dnc results c b niters m g0).1).
Proof.
  intros Hne Hrect.
  set (fl := map (λ r : ClientResult, flatten_params r.1) results) in *.
  assert (Hfl : fl ≠ []) by (unfold fl; by destruct results).
  assert (Hagg : ∀ g1 g2,
    (dnc_I_good results c b niters m g1).1
    = (dnc_I_good results c b niters m g2).1 →
    (aggregate_dnc results c b niters m g1).1
    = (aggregate_dnc results c b niters m g2).1).
  { intros g1 g2 H. unfold aggregate_dnc, M_bind, M_lift.
    destruct (dnc_I_good results c b niters m g1) as [r1 h1].
    destruct (dnc_I_good results c b niters m g2) as [r2 h2].
    simpl in H. subst r2. by destruct r1. }
  assert (Hstate : ∀ g, (aggregate_dnc results c b niters m g).2
                        = (dnc_I_good results c b niters m g).2).
  { intros g. unfold aggregate_dnc, M_bind, M_lift.
    by destruct (dnc_I_good results c b niters m g) as [[?|?] ?]. }
  assert (Hno : ¬ ((0 < b)%Z ∧ (b < Z.of_nat d)%Z) →
                ∀ g g0,
                  (dnc_I_good results c b niters m g).2 = g
                  ∧ (dnc_I_good results c b niters m g).1
                    = (dnc_I_good results c b niters m g0).1).
  { intros Hnd g g0. apply (dnc_loop_no_sampling fl c b m d Hrect Hfl). lia. }
  split; [|split; [done|split]].
  - intros g1 g2 Hdraws.
    assert (HI : (dnc_I_good results c b niters m g1).1
                 = (dnc_I_good results c b niters m g2).1).
    { destruct (decide ((0 < b)%Z ∧ (b < Z.of_nat d)%Z)) as [[Hb Hbd]|Hnd].
      - by apply (dnc_loop_of_draws fl c b m d Hrect Hfl Hb Hbd).
      - apply (Hno Hnd g1 g2). }
    split; [exact HI | by apply Hagg].
  - intros g. rewrite Hstate. case_bool_decide as Hs.
    + destruct Hs as [Hb Hbd].
      destruct (dnc_loop_advances fl c b m d Hrect Hfl Hb Hbd
                  (Z.to_nat niters) [] g) as [I_good HI].
      unfold dnc_I_good. fold fl. by rewrite HI.
    + apply (Hno Hs g g).
  - intros Hnd g g0. apply Hagg, (Hno Hnd g g0).
Qed.

Lemma aggregate_dnc_seeded_witness :
  (∀ g1 g2,
     @randint_draws counter_numpy (Z.to_nat 2) 2 (Z.to_nat 1) g1
     = @randint_draws counter_numpy (Z.to_nat 2) 2 (Z.to_nat 1) g2 →
     (@dnc_I_good counter_numpy two_clients (q 1) 1 2 1 g1).1
     = (@dnc_I_good counter_numpy two_clients (q 1) 1 2 1 g2).1
     ∧ (@aggregate_dnc counter_numpy two_clients (q 1) 1 2 1 g1).1
       = (@aggregate_dnc counter_numpy two_clients (q 1) 1 2 1 g2).1)
  ∧ (∀ seed g g',
       @aggregate_dnc counter_numpy two_clients (q 1) 1 2 1
                      (@main_seed counter_numpy seed g)
       = @aggregate_dnc counter_numpy two_clients (q 1) 1 2 1
                        (@main_seed counter_numpy seed g'))
  ∧ (∀ g, (@aggregate_dnc counter_numpy two_clients (q 1) 1 2 1 g).2
          = if bool_decide ((0 < 1)%Z ∧ (1 < Z.of_nat 2)%Z)
            then Nat.iter (Z.to_nat 2)
                   (λ g', (@np_random_randint counter_numpy 2 (Z.to_nat 1) g').2)
                   g
            else g)
  ∧ (¬ ((0 < 1)%Z ∧ (1 < Z.of_nat 2)%Z) →
     ∀ g g0, (@aggregate_dnc counter_numpy two_clients (q 1) 1 2 1 g).1
             = (@aggregate_dnc counter_numpy two_clients (q 1) 1 2 1 g0).1).
Proof.
  apply (@aggregate_dnc_seeded counter_numpy two_clients (q 1) 1 2 1 2).
  - discriminate.
  - repeat constructor.
Defined.

(** The same draws from different states: the counter states 0 and 4
    deliver the arrays (0) and (1) in two draws of one index below 2, and
    the two calls keep the same sets. *)
Example aggregate_dnc_same_draws :
  @randint_draws counter_numpy 2 2 1 0 = [[0]; [1]]
  ∧ @randint_draws counter_numpy 2 2 1 4 = [[0]; [1]]
  ∧ (@dnc_I_good counter_numpy two_clients (q 1) 1 2 1 0).1 = Ok [[0]; [1]]
  ∧ (@dnc_I_good counter_numpy two_clients (q 1) 1 2 1 4).1 = Ok [[0]; [1]].
Proof. repeat split; vm_compute; reflexivity. Qed.

(** C3, as the spec words it, fails: the same call, with the same
    arguments, keeps client 0 when the process-wide generator is in one
    state and client 1 when it is in another. *)
Lemma aggregate_dnc_reads_global_generator :
  @dnc_I_good counter_numpy two_clients (q 1) 1 1 1 0 = (Ok [[0]], 1)
  ∧ @dnc_I_good counter_numpy two_clients (q 1) 1 1 1 1 = (Ok [[1]], 2)
  ∧ @aggregate_dnc counter_numpy two_clients (q 1) 1 1 1 0
    = (Ok [[q 0; q 5]], 1)
  ∧ @aggregate_dnc counter_numpy two_clients (q 1) 1 1 1 1
    = (Ok [[q 5; q 0]], 2).
Proof.
  repeat split; try (vm_compute; reflexivity);
    apply run_eq; vm_compute; reflexivity.
Qed.

(** ** What an iteration keeps *)

Lemma slice_to_nonneg {A} (k : Z) (l : list A) :
  (0 ≤ k)%Z → slice_to k l = take (Z.to_nat k) l.
Proof. intros H. unfold slice_to. by rewrite (proj2 (Z.leb_le 0 k) H). Qed.

(** How many indices the slice of line 38 keeps, for every value of
    [to_keep]: a negative value counts from the end, a value beyond the
    number of clients keeps them all. *)
Lemma dnc_I_length (n : nat) c m (s : list Qc) :
  length s = n →
  length (dnc_I n c m s)
  = if (0 <=? dnc_to_keep n c m)%Z
    then Nat.min (Z.to_nat (dnc_to_keep n c m)) n
    else n - Z.to_nat (- dnc_to_keep n c m).
Proof.
  intros Hs. unfold dnc_I, slice_to.
  destruct (0 <=? dnc_to_keep n c m)%Z;
    rewrite length_take, np_argsort_length, Hs; lia.
Qed.

Lemma py_int_of_Z (z : Z) : py_int (Qc_of_Z z) = z.
Proof.
  unfold py_int, Qc_of_Z. simpl.
  rewrite Qred_identity by (simpl; apply Z.gcd_1_r).
  simpl. apply Z.quot_1_r.
Qed.

Lemma binary64_of_Z (z : Z) : binary64 (Qc_of_Z z) = Qc_of_Z z.
Proof.
  unfold binary64, is_integer, Qc_of_Z. simpl.
  by rewrite Qred_identity by (simpl; apply Z.gcd_1_r).
Qed.

Lemma round_half_even_Z (k : Z) (x : Q) :
  (x == inject_Z k)%Q → round_half_even x = k.
Proof.
  intros Hx. unfold round_half_even.
  rewrite (Qfloor_comp _ _ Hx), Qfloor_Z.
  assert (Hlt : (x - inject_Z k < 1 # 2)%Q).
  { rewrite Hx. unfold Qminus. rewrite Qplus_opp_r. reflexivity. }
  assert (Hc : Qcompare (x - inject_Z k) (1 # 2) = Lt) by (by apply Qlt_alt).
  by rewrite Hc.
Qed.

Lemma Qpow2_nonpos (e : Z) :
  (e ≤ 0)%Z → (Qpow2 e == / inject_Z (2 ^ (- e)))%Q.
Proof.
  intros He. unfold Qpow2. destruct (Z.leb_spec 0 e); [|reflexivity].
  replace e with 0%Z by lia. reflexivity.
Qed.

(** The rounding leaves the integers up to [2 ^ 53] as they are: they are
    doubles.  The test [is_integer] of [binary64] thus spares a computation
    in that range and changes nothing. *)
Lemma binary64_pos_Z (z : Z) :
  (0 < z ≤ 2 ^ 53)%Z → (binary64_pos (inject_Z z) == inject_Z z)%Q.
Proof.
  intros [Hz Hle].
  pose proof (Z.log2_spec z Hz) as [Hlo Hhi].
  pose proof (Z.log2_nonneg z) as Hnn.
  assert (He : Qexponent (inject_Z z) = Z.log2 z).
  { unfold Qexponent. cbn [Qnum Qden inject_Z]. change (Z.log2 1) with 0%Z.
    rewrite Z.sub_0_r. unfold Qpow2.
    rewrite (proj2 (Z.leb_le 0 _) Hnn).
    replace (Qle_bool (inject_Z (2 ^ Z.log2 z)) (inject_Z z)) with true; [done|].
    symmetry. apply Qle_bool_iff. by rewrite <- Zle_Qle. }
  unfold binary64_pos. rewrite He. rewrite Z.max_l by lia.
  destruct (Z.le_gt_cases (Z.log2 z) 52) as [Hs|Hb].
  - set (e := (Z.log2 z - 52)%Z). assert (Hen : (e ≤ 0)%Z) by (unfold e; lia).
    pose proof (Qpow2_nonpos e Hen) as Hp.
    assert (Hk : (0 < 2 ^ (- e))%Z) by (apply Z.pow_pos_nonneg; lia).
    assert (Hk' : ¬ (inject_Z (2 ^ (- e)) == 0)%Q).
    { intros H. unfold Qeq in H. simpl in H. lia. }
    rewrite (round_half_even_Z (z * 2 ^ (- e))).
    + rewrite Hp, inject_Z_mult. by field.
    + rewrite Hp, inject_Z_mult. by field.
  - assert (z = 2 ^ 53)%Z as ->.
    { assert (H53 : (2 ^ 53 ≤ 2 ^ Z.log2 z)%Z)
        by (apply Z.pow_le_mono_r; lia).
      lia. }
    vm_compute. reflexivity.
Qed.

Lemma binary64_pos_integer (z : Z) :
  (0 < z ≤ 2 ^ 53)%Z → Q2Qc (binary64_pos (inject_Z z)) = Qc_of_Z z.
Proof. intros Hz. unfold Qc_of_Z. by apply Q2Qc_eq_iff, binary64_pos_Z. Qed.

Lemma dnc_to_keep_no_malicious (n : nat) (c : Qc) :
  dnc_to_keep n c 0 = Z.of_nat n.
Proof.
  unfold dnc_to_keep, Qc_of_nat, float_sub, float_mul.
  replace (binary64 c * Qc_of_Z 0)%Qc with (Qc_of_Z 0)
    by (change (Qc_of_Z 0) with 0%Qc; ring).
  rewrite binary64_of_Z.
  replace (Qc_of_Z (Z.of_nat n) - Qc_of_Z 0)%Qc with (Qc_of_Z (Z.of_nat n))
    by (change (Qc_of_Z 0) with 0%Qc; ring).
  rewrite binary64_of_Z. apply py_int_of_Z.
Qed.

Lemma filter_all {A} (f : A → bool) (l : list A) :
  (∀ x, In x l → f x = true) → List.filter f l = l.
Proof.
  induction l as [|a l IH]; intros H; simpl; [done|].
  rewrite (H a) by (by left). f_equal. apply IH. intros x Hx. apply H. by right.
Qed.

Section kept.
Context `{N : Numpy}.

Lemma dnc_I_good_Forall (P : list nat → Prop)
      (results : list ClientResult) c b niters m g :
  (∀ g, ∃ I g',
      dnc_iteration (map (λ r : ClientResult, flatten_params r.1) results)
                    c b m g = (Ok I, g') ∧ P I) →
  ∃ I_good g',
    dnc_I_good results c b niters m g = (Ok I_good, g')
    ∧ Forall P I_good ∧ length I_good = Z.to_nat niters.
Proof.
  intros Hiter. unfold dnc_I_good.
  destruct (dnc_loop_Forall P _ c b m Hiter (Z.to_nat niters) [] g)
    as (I_good & g' & Hl & HP & Hlen); [constructor|].
  exists I_good, g'. done.
Qed.

(** C4, as the code has it: on a non-empty list of updates of one common
    non-zero length, with at least one iteration and
    [0 <= int(num_clients - c * num_malicious) <= num_clients], every
    iteration keeps exactly that many distinct client indices, none of
    which has a larger score than an index that is not kept; the value
    returned is [aggregate] (the num_examples-weighted mean) of the
    original results whose indices are in every kept set. *)
Theorem aggregate_dnc_keeps_smallest
        (results : list ClientResult) c b niters m (d : nat) g :
  results ≠ [] → 0 < d →
  rect d (map (λ r : ClientResult, flatten_params r.1) results) →
  (0 < niters)%Z →
  (0 ≤ dnc_to_keep (length results) c m ≤ Z.of_nat (length results))%Z →
  ∃ I_good I_final res g',
    dnc_I_good results c b niters m g = (Ok I_good, g')
    ∧ length I_good = Z.to_nat niters
    ∧ Forall (λ I, Z.of_nat (length I) = dnc_to_keep (length results) c m
                   ∧ NoDup I
                   ∧ ∃ s, kept_by_iteration
                            (map (λ r : ClientResult, flatten_params r.1)
                                 results) c b m s I
                          ∧ smallest_scores s I) I_good
    ∧ dnc_I_final (length results) I_good = Ok I_final
    ∧ (∀ i, i ∈ I_final ↔
            i < length results ∧ Forall (λ I, i ∈ I) I_good)
    ∧ Forall2 (λ i r, results !! i = Some r) I_final res
    ∧ aggregate_dnc results c b niters m g = (aggregate res, g').
Proof.
  intros Hne Hd Hrect Hn Hk.
  set (fl := map (λ r : ClientResult, flatten_params r.1) results) in *.
  set (to_keep := dnc_to_keep (length results) c m) in *.
  assert (Hfl : fl ≠ []) by (unfold fl; by destruct results).
  assert (Hlen : length fl = length results) by apply length_map.
  destruct (dnc_I_good_Forall
    (λ I, Z.of_nat (length I) = to_keep ∧ NoDup I
          ∧ ∃ s, kept_by_iteration fl c b m s I ∧ smallest_scores s I)
    results c b niters m g) as (I_good & g' & Hloop & HP & Hlength).
  { intros g1.
    destruct (dnc_iteration_rect fl c b m d g1 Hrect Hfl Hd)
      as (sp & s & g2 & Hsp & Hs & Hsl & Hit).
    eexists _, g2. split; [exact Hit|].
    rewrite Hlen in *. unfold dnc_I. fold to_keep.
    rewrite slice_to_nonneg by lia. split; [|split].
    - rewrite length_take, np_argsort_length. lia.
    - eapply sublist_NoDup; [apply np_argsort_NoDup | apply sublist_take].
    - exists s. split.
      + exists g1, sp. rewrite Hsp, Hlen. simpl. repeat split; try done.
        unfold dnc_I. fold to_keep. by rewrite slice_to_nonneg by lia.
      + intros i j x y Hi Hj Hx Hy.
        by eapply np_argsort_take_smallest. }
  destruct (dnc_I_final_nonempty (length results) I_good)
    as [I_final Hfinal].
  { intros ->. simpl in Hlength. lia. }
  pose proof (λ i, dnc_I_final_elem _ _ _ i Hfinal) as Helem.
  destruct (dnc_res_in_range results I_final) as (res & Hres & HF).
  { apply Forall_forall. intros i Hi. by apply Helem in Hi as [? _]. }
  exists I_good, I_final, res, g'.
  repeat (split; [done|]).
  rewrite (aggregate_dnc_after_loop _ _ _ _ _ _ _ _ Hloop), Hfinal.
  cbn [result_bind]. rewrite Hres. done.
Qed.

(** C5, as the code has it: on a non-empty list of updates of one common
    non-zero length, with at least one iteration and no malicious client,
    every iteration keeps every client and the value returned is
    [aggregate] of all results, FedAvg's weighted mean. *)
Theorem aggregate_dnc_no_malicious
        (results : list ClientResult) c b niters (d : nat) g :
  results ≠ [] → 0 < d →
  rect d (map (λ r : ClientResult, flatten_params r.1) results) →
  (0 < niters)%Z →
  ∃ I_good g',
    dnc_I_good results c b niters 0 g = (Ok I_good, g')
    ∧ length I_good = Z.to_nat niters
    ∧ Forall (λ I, I ≡ₚ seq 0 (length results)) I_good
    ∧ aggregate_dnc results c b niters 0 g = (aggregate results, g').
Proof.
  intros Hne Hd Hrect Hn.
  set (fl := map (λ r : ClientResult, flatten_params r.1) results) in *.
  assert (Hfl : fl ≠ []) by (unfold fl; by destruct results).
  assert (Hlen : length fl = length results) by apply length_map.
  destruct (dnc_I_good_Forall (λ I, I ≡ₚ seq 0 (length results))
              results c b niters 0 g) as (I_good & g' & Hloop & HP & Hlength).
  { intros g1.
    destruct (dnc_iteration_rect fl c b 0 d g1 Hrect Hfl Hd)
      as (sp & s & g2 & Hsp & Hs & Hsl & Hit).
    eexists _, g2. split; [exact Hit|].
    rewrite Hlen in *. unfold dnc_I.
    rewrite dnc_to_keep_no_malicious, slice_to_nonneg by lia.
    rewrite Nat2Z.id, take_ge by (rewrite np_argsort_length; lia).
    by rewrite np_argsort_perm, Hsl. }
  exists I_good, g'. repeat (split; [done|]).
  assert (Hfinal : dnc_I_final (length results) I_good
                   = Ok (seq 0 (length results))).
  { unfold dnc_I_final. destruct I_good as [|I0 Is] eqn:E.
    { simpl in Hlength. lia. }
    rewrite <- E in *. f_equal. apply filter_all. intros i Hi.
    apply forallb_forall. intros I HI. apply mem_spec.
    rewrite Forall_forall in HP. rewrite (HP I) by (by apply list_elem_of_In).
    by apply list_elem_of_In. }
  destruct (dnc_res_in_range results (seq 0 (length results)))
    as (res & Hres & HF).
  { apply Forall_forall. intros i Hi. apply list_elem_of_In, in_seq in Hi. lia. }
  rewrite (Forall2_lookup_functional _ _ _ _ HF (Forall2_lookup_seq results))
    in Hres.
  rewrite (aggregate_dnc_after_loop _ _ _ _ _ _ _ _ Hloop), Hfinal.
  cbn [result_bind]. rewrite Hres. done.
Qed.

End kept.

(** ** The weighted mean of equal updates *)

Lemma Qc_of_Z_add (a b : Z) : Qc_of_Z (a + b) = (Qc_of_Z a + Qc_of_Z b)%Qc.
Proof.
  apply Qc_is_canon. unfold Qc_of_Z. simpl.
  rewrite !Qred_correct, inject_Z_plus. reflexivity.
Qed.

Lemma Qc_of_Z_nonzero (z : Z) : z ≠ 0%Z → Qc_of_Z z ≠ 0%Qc.
Proof.
  intros Hz Heq. apply Hz. rewrite <- (py_int_of_Z z), Heq. reflexivity.
Qed.

Lemma zip_with_map_same {A B C D} (f : B → C → D) (h : A → B) (k : A → C)
      (p : list A) :
  zip_with f (map h p) (map k p) = map (λ a, f (h a) (k a)) p.
Proof. induction p as [|a p IH]; simpl; [done | by rewrite IH]. Qed.

(** The columns of rows that are all made from one template. *)
Lemma zip_star_map_rows {A B C} (f : A → B → C) (p : list B) (xs : list A) :
  xs ≠ [] →
  zip_star (map (λ x, map (f x) p) xs) = map (λ a, map (λ x, f x a) xs) p.
Proof.
  induction xs as [|x xs IH]; [done|]. intros _.
  destruct xs as [|x' xs'].
  - simpl. by rewrite map_map.
  - change (zip_star (map (λ x, map (f x) p) (x :: x' :: xs')))
      with (zip_with cons (map (f x) p)
                     (zip_star (map (λ x, map (f x) p) (x' :: xs')))).
    rewrite IH by done. rewrite zip_with_map_same. reflexivity.
Qed.

Lemma reduce_np_add_scaled {A} (h : A → Qc) (layer : list Qc) (rs : list A) :
  rs ≠ [] →
  reduce np_add (map (λ r, map (λ x, (x * h r)%Qc) layer) rs)
  = Ok (map (λ x, (x * sum_Qc (map h rs))%Qc) layer).
Proof.
  destruct rs as [|r rs]; [done|]. intros _. simpl.
  assert (Hgen : ∀ a,
    foldl (λ acc y, (v <- acc ;; np_add v y)%result)
          (Ok (map (λ x, (x * a)%Qc) layer))
          (map (λ r, map (λ x, (x * h r)%Qc) layer) rs)
    = Ok (map (λ x, (x * (a + sum_Qc (map h rs)))%Qc) layer)).
  { induction rs as [|r' rs IH]; intros a; simpl.
    - f_equal. apply map_ext. intros x. change (Qc_of_Z 0) with 0%Qc. ring.
    - unfold np_add at 2.
      rewrite np_binop_same_length by (now rewrite !length_map).
      rewrite zip_with_map_same.
      rewrite (map_ext (λ x, (x * a + x * h r')%Qc)
                       (λ x, (x * (a + h r'))%Qc)) by (intros; ring).
      rewrite IH. f_equal. apply map_ext. intros x. ring. }
  rewrite Hgen. reflexivity.
Qed.

Lemma sum_Qc_of_Z (ws : list Z) :
  sum_Qc (map Qc_of_Z ws) = Qc_of_Z (foldr Z.add 0%Z ws).
Proof.
  induction ws as [|w ws IH]; simpl; [done|].
  by rewrite Qc_of_Z_add, <- IH.
Qed.

Lemma mapM_map_inverse {A B} (f : B → result A) (F : A → B) (p : list A) :
  (∀ a, f (F a) = Ok a) → mapM f (map F p) = Ok p.
Proof.
  intros H. induction p as [|a p IH]; simpl; [done|].
  rewrite H. simpl. rewrite IH. done.
Qed.

Lemma foldr_Zadd_pos (ws : list Z) :
  ws ≠ [] → Forall (λ w, (0 < w)%Z) ws → (0 < foldr Z.add 0 ws)%Z.
Proof.
  intros Hne Hall. induction Hall as [|w ws Hw Hall IH]; [done|].
  simpl. destruct ws as [|w' ws']; [simpl; lia|].
  specialize (IH ltac:(done)). lia.
Qed.

(** FedAvg of clients that all sent the layers [p], each with a positive
    number of examples, is [p]. *)
Lemma aggregate_identical (res : list ClientResult) (p : list (list Qc)) :
  res ≠ [] → Forall (λ r : ClientResult, r.1 = p ∧ (0 < r.2)%Z) res →
  aggregate res = Ok p.
Proof.
  intros Hne Hall. unfold aggregate.
  set (T := foldr Z.add 0%Z res.*2).
  assert (HT : Qc_of_Z T ≠ 0%Qc).
  { apply Qc_of_Z_nonzero. unfold T.
    assert (0 < foldr Z.add 0 res.*2)%Z; [|lia].
    apply foldr_Zadd_pos; [by destruct res|].
    apply Forall_fmap. eapply Forall_impl; [exact Hall|]. by intros r [_ ?]. }
  rewrite (map_ext_in _
    (λ r : ClientResult,
       map (λ layer, map (λ x, (x * Qc_of_Z r.2)%Qc) layer) p)).
  2:{ intros r Hr. rewrite Forall_forall in Hall.
      by destruct (Hall r (proj2 (list_elem_of_In _ _) Hr)) as [-> _]. }
  rewrite (zip_star_map_rows
             (λ (r : ClientResult) layer,
                map (λ x, (x * Qc_of_Z r.2)%Qc) layer) p res Hne).
  apply mapM_map_inverse. intros layer.
  rewrite (reduce_np_add_scaled (λ r : ClientResult, Qc_of_Z r.2) layer res Hne).
  cbn [result_bind]. f_equal. rewrite map_map.
  rewrite <- (map_map snd Qc_of_Z), sum_Qc_of_Z.
  change (foldr Z.add 0%Z (map snd res)) with T.
  rewrite <- (map_id layer) at 2. apply map_ext. intros x. by field.
Qed.

(** ** Equal updates *)

Section identical.
Context `{N : Numpy}.

(** Equal vectors stay equal when the iteration projects them. *)
Lemma dnc_sample_constant (flattened_params : list NDArray) x b g sp g' :
  flattened_params ≠ [] → Forall (λ fp, fp = x) flattened_params →
  dnc_sample flattened_params b g = (Ok sp, g') →
  ∃ y, Forall (λ row, row = y) sp.
Proof.
  intros Hne Hall Hsp.
  assert (Hrect : rect (length x) flattened_params).
  { eapply Forall_impl; [exact Hall|]. by intros fp ->. }
  destruct (decide ((0 < b)%Z ∧ (b < Z.of_nat (length x))%Z))
    as [[Hb Hbd]|Hno].
  - destruct (dnc_sample_draws _ b _ g Hrect Hne Hb Hbd) as (sp' & Hsp' & HF).
    rewrite Hsp in Hsp'. injection Hsp' as <- _.
    destruct (take_indices_in_range x (np_random_randint (length x)
                                         (Z.to_nat b) g).1)
      as (y & _ & Hy).
    { apply randint_range. lia. }
    exists y. apply Forall_forall. intros row Hrow.
    apply list_elem_of_lookup in Hrow as [k Hk].
    destruct (Forall2_lookup_r _ _ _ _ _ HF Hk) as (fp & Hfp & Hrel).
    rewrite Forall_forall in Hall.
    rewrite (Hall fp (list_elem_of_lookup_2 _ _ _ Hfp)) in Hrel.
    by eapply Forall2_lookup_functional.
  - rewrite (dnc_sample_keeps _ b _ g Hrect Hne) in Hsp by lia.
    injection Hsp as <- _. by exists x.
Qed.

(** With equal updates the scores are equal and an iteration keeps the
    first clients. *)
Lemma dnc_iteration_identical (flattened_params : list NDArray) x c b m g :
  flattened_params ≠ [] → x ≠ [] →
  Forall (λ fp, fp = x) flattened_params →
  ∃ g', dnc_iteration flattened_params c b m g
        = (Ok (slice_to (dnc_to_keep (length flattened_params) c m)
                        (seq 0 (length flattened_params))), g').
Proof.
  intros Hne Hx Hall.
  assert (Hrect : rect (length x) flattened_params).
  { eapply Forall_impl; [exact Hall|]. by intros fp ->. }
  assert (Hd : 0 < length x) by (destruct x; [done | simpl; lia]).
  destruct (dnc_sample_rect _ b _ g Hrect Hne Hd)
    as (sp & d' & g' & Hsp & Hrect' & Hd' & Hlen).
  destruct (dnc_sample_constant _ x b g sp g' Hne Hall Hsp) as [y Hy].
  assert (Hspne : sp ≠ []).
  { destruct sp; [|done]. destruct flattened_params; done. }
  destruct (dnc_scores_rect sp d' Hrect' Hspne Hd') as (mu & _ & _ & Hs).
  simpl in Hs. exists g'.
  unfold dnc_iteration. rewrite (M_bind_Ok _ _ _ _ _ Hsp).
  unfold M_bind, M_lift, M_ret. rewrite Hs. unfold dnc_I.
  erewrite np_argsort_constant.
  - by rewrite length_map, Hlen.
  - apply Forall_map. eapply Forall_impl; [exact Hy|].
    intros row ->. simpl. reflexivity.
Qed.

(** C6, as the code has it: when every client sent the same layers [p]
    (not all of them empty) with a positive number of examples, at least
    one iteration runs and [int(num_clients - c * num_malicious) >= 1],
    the intersection of the kept sets is not empty and the value returned
    is [p]. *)
Theorem aggregate_dnc_identical_updates
        (results : list ClientResult) (p : list (list Qc)) c b niters m g :
  results ≠ [] →
  Forall (λ r : ClientResult, r.1 = p ∧ (0 < r.2)%Z) results →
  flatten_params p ≠ [] → (0 < niters)%Z →
  (1 ≤ dnc_to_keep (length results) c m)%Z →
  ∃ I_good I_final g',
    dnc_I_good results c b niters m g = (Ok I_good, g')
    ∧ dnc_I_final (length results) I_good = Ok I_final
    ∧ I_final ≠ []
    ∧ aggregate_dnc results c b niters m g = (Ok p, g').
Proof.
  intros Hne Hall Hp Hn Hk.
  set (fl := map (λ r : ClientResult, flatten_params r.1) results).
  assert (Hfl : fl ≠ []) by (unfold fl; by destruct results).
  assert (Hlen : length fl = length results) by apply length_map.
  assert (Hflall : Forall (λ fp, fp = flatten_params p) fl).
  { apply Forall_map. eapply Forall_impl; [exact Hall|].
    by intros r [-> _]. }
  destruct (dnc_I_good_Forall (λ I, 0 ∈ I) results c b niters m g)
    as (I_good & g' & Hloop & HP & Hlength).
  { intros g1.
    destruct (dnc_iteration_identical fl _ c b m g1 Hfl Hp Hflall)
      as [g2 Hit]. fold fl.
    eexists _, g2. split; [exact Hit|].
    rewrite Hlen, slice_to_nonneg by lia.
    destruct results as [|r rs]; [done|].
    destruct (Z.to_nat (dnc_to_keep (length (r :: rs)) c m)) eqn:E; [lia|].
    simpl. by left. }
  destruct (dnc_I_final_nonempty (length results) I_good)
    as [I_final Hfinal].
  { intros ->. simpl in Hlength. lia. }
  pose proof (λ i, dnc_I_final_elem _ _ _ i Hfinal) as Helem.
  assert (H0 : 0 ∈ I_final).
  { apply Helem. split; [|done]. destruct results; [done | simpl; lia]. }
  destruct (dnc_res_in_range results I_final) as (res & Hres & HF).
  { apply Forall_forall. intros i Hi. by apply Helem in Hi as [? _]. }
  exists I_good, I_final, g'. split; [done|]. split; [done|].
  split; [by intros ->; apply elem_of_nil in H0|].
  rewrite (aggregate_dnc_after_loop _ _ _ _ _ _ _ _ Hloop), Hfinal.
  cbn [result_bind]. rewrite Hres. cbn [result_bind]. f_equal.
  apply aggregate_identical.
  - intros ->. apply Forall2_length in HF. destruct I_final; [|done].
    by apply elem_of_nil in H0.
  - apply Forall_forall. intros r Hr.
    apply list_elem_of_lookup in Hr as [j Hj].
    destruct (Forall2_lookup_r _ _ _ _ _ HF Hj) as (i & _ & Hi).
    rewrite Forall_forall in Hall.
    apply Hall. by eapply list_elem_of_lookup_2.
Qed.

End identical.

(** * The claims at concrete inputs *)

(** C4, as the spec words it, fails: with three clients, [c = 2] and two
    malicious clients, [int(3 - 2 * 2)] is -1 and the slice [[:-1]] keeps
    two client indices. *)
Lemma dnc_negative_to_keep_keeps_two :
  dnc_to_keep (length three_clients) (q 2) 2 = (-1)%Z
  ∧ @dnc_I_good counter_numpy three_clients (q 2) 0 1 2 0
    = (Ok [[0; 1]], 0).
Proof. split; vm_compute; reflexivity. Qed.

(** C5, as the spec words it, fails: without an iteration the intersection
    has no operand and the call raises [TypeError], while FedAvg returns the
    weighted mean. *)
Lemma aggregate_dnc_no_iteration_raises :
  @aggregate_dnc counter_numpy three_clients (q 1) 0 0 0 0
  = (Raise TypeError, 0)
  ∧ aggregate three_clients = Ok [[q 4]].
Proof.
  split; [vm_compute; reflexivity|].
  apply result_matrix_eq. vm_compute. reflexivity.
Qed.

(** C6, as the spec words it, fails: with two equal updates, [c = 2] and
    one malicious client, [int(2 - 2 * 1)] is 0; no client is kept and the
    call returns the empty list of layers, not the update. *)
Lemma aggregate_dnc_identical_keeps_none :
  @dnc_I_good counter_numpy same_clients (q 2) 0 1 1 0 = (Ok [[]], 0)
  ∧ dnc_I_final (length same_clients) [[]] = Ok []
  ∧ @aggregate_dnc counter_numpy same_clients (q 2) 0 1 1 0 = (Ok [], 0).
Proof. repeat split; vm_compute; reflexivity. Qed.

(** Line 37 is float arithmetic.  With ten clients, [c = 0.2] and five
    malicious clients [0.2 * 5] is rounded to 1.0 and nine clients are kept,
    where the exact product of that same double with 5 would leave eight;
    [1.4 * 5] is rounded to 7.0, and [1.1 * 50] is rounded to a double
    above 55. *)
Example dnc_to_keep_rounds :
  dnc_to_keep 10 c_0_2 5 = 9%Z
  ∧ py_int (Qc_of_nat 10 - binary64 c_0_2 * Qc_of_Z 5)%Qc = 8%Z
  ∧ dnc_to_keep 6 c_1_4 5 = (-1)%Z
  ∧ py_int (Qc_of_nat 6 - binary64 c_1_4 * Qc_of_Z 5)%Qc = 0%Z
  ∧ dnc_to_keep 100 c_1_1 50 = 44%Z
  ∧ py_int (Qc_of_nat 100 - c_1_1 * Qc_of_Z 50)%Qc = 45%Z.
Proof. repeat split; vm_compute; reflexivity. Qed.

(** Rounding a double again changes nothing. *)
Example binary64_twice :
  binary64 (binary64 c_0_2) = binary64 c_0_2
  ∧ binary64 (binary64 c_1_4) = binary64 c_1_4
  ∧ binary64 (binary64 c_1_1) = binary64 c_1_1.
Proof. repeat split; apply Qc_eqb_eq; vm_compute; reflexivity. Qed.

Lemma aggregate_dnc_keeps_smallest_witness :
  ∃ I_good I_final res g',
    @dnc_I_good counter_numpy ten_clients c_0_2 0 2 5 0 = (Ok I_good, g')
    ∧ length I_good = Z.to_nat 2
    ∧ Forall (λ I, Z.of_nat (length I)
                   = dnc_to_keep (length ten_clients) c_0_2 5
                   ∧ NoDup I
                   ∧ ∃ s, @kept_by_iteration counter_numpy
                            (map (λ r : ClientResult, flatten_params r.1)
                                 ten_clients) c_0_2 0 5 s I
                          ∧ smallest_scores s I) I_good
    ∧ dnc_I_final (length ten_clients) I_good = Ok I_final
    ∧ (∀ i, i ∈ I_final ↔
            i < length ten_clients ∧ Forall (λ I, i ∈ I) I_good)
    ∧ Forall2 (λ i r, ten_clients !! i = Some r) I_final res
    ∧ @aggregate_dnc counter_numpy ten_clients c_0_2 0 2 5 0
      = (aggregate res, g').
Proof.
  apply (@aggregate_dnc_keeps_smallest counter_numpy ten_clients
           c_0_2 0 2 5 1 0).
  - discriminate.
  - lia.
  - repeat constructor.
  - lia.
  - replace (dnc_to_keep (length ten_clients) c_0_2 5) with 9%Z
      by (vm_compute; reflexivity).
    simpl. lia.
Defined.

Lemma aggregate_dnc_no_malicious_witness :
  ∃ I_good g',
    @dnc_I_good counter_numpy two_clients (q 1) 1 3 0 0 = (Ok I_good, g')
    ∧ length I_good = Z.to_nat 3
    ∧ Forall (λ I, I ≡ₚ seq 0 (length two_clients)) I_good
    ∧ @aggregate_dnc counter_numpy two_clients (q 1) 1 3 0 0
      = (aggregate two_clients, g').
Proof.
  apply (@aggregate_dnc_no_malicious counter_numpy two_clients (q 1) 1 3 2 0).
  - discriminate.
  - lia.
  - repeat constructor.
  - lia.
Defined.

Lemma aggregate_dnc_identical_updates_witness :
  ∃ I_good I_final g',
    @dnc_I_good counter_numpy same_clients (q 1) 1 2 1 0 = (Ok I_good, g')
    ∧ dnc_I_final (length same_clients) I_good = Ok I_final
    ∧ I_final ≠ []
    ∧ @aggregate_dnc counter_numpy same_clients (q 1) 1 2 1 0
      = (Ok [[q 7; q 8]], g').
Proof.
  apply (@aggregate_dnc_identical_updates counter_numpy same_clients
           [[q 7; q 8]] (q 1) 1 2 1 0).
  - discriminate.
  - repeat constructor.
  - discriminate.
  - lia.
  - replace (dnc_to_keep (length same_clients) (q 1) 1) with 1%Z
      by (vm_compute; reflexivity).
    lia.
Defined.

(** ** Calls that end with an exception *)

(** No client at all: line 17 indexes an empty list when [b > 0], and
    [np.linalg.svd] gets an empty array otherwise. *)
Example aggregate_dnc_no_client :
  (@aggregate_dnc counter_numpy [] (q 1) 1 1 0 0).1 = Raise IndexError
  ∧ (@aggregate_dnc counter_numpy [] (q 1) 0 1 0 0).1 = Raise LinAlgError.
Proof. split; vm_compute; reflexivity. Qed.

(** Clients without any parameter: the matrix of centred updates has no
    column. *)
Example aggregate_dnc_no_parameter :
  raises (@aggregate_dnc counter_numpy [([[]], 1%Z); ([[]], 1%Z)]
                         (q 1) 0 1 0 0).1 = true.
Proof. vm_compute. reflexivity. Qed.

(** Updates of different lengths: the centring of line 31 cannot
    broadcast. *)
Example aggregate_dnc_ragged :
  raises (@aggregate_dnc counter_numpy
            [([[q 1; q 2; q 3]], 1%Z); ([[q 1; q 2]], 1%Z)]
            (q 1) 0 1 0 0).1 = true.
Proof. vm_compute. reflexivity. Qed.

(** * More about the driver *)

Lemma steps_after_guards_events w cfg ev :
  In ev (steps_after_guards w cfg).1 →
  In ev (prepare_dataset (cfg_dataset cfg)).1
  ∨ In ev (define_strategy w cfg).1
  ∨ In ev (run_and_save w cfg).1.
Proof.
  unfold steps_after_guards. rewrite IO_bind_fst. intros H.
  apply in_app_or in H as [H|H]; [by left|].
  destruct (prepare_dataset (cfg_dataset cfg)).2; [|done].
  rewrite IO_bind_fst in H. apply in_app_or in H as [H|H]; [by right; left|].
  destruct (define_strategy w cfg).2; [|done]. by right; right.
Qed.

Lemma steps_after_guards_prepare w cfg ev :
  In ev (prepare_dataset (cfg_dataset cfg)).1 →
  In ev (steps_after_guards w cfg).1.
Proof.
  intros H. unfold steps_after_guards. rewrite IO_bind_fst.
  apply in_or_app. by left.
Qed.

(** The events of [main] that come after the guards and the removal of the
    history directory. *)
Lemma main_events_after_guards w cfg ev :
  (∀ seed, ev ≠ SetSeeds seed) → (∀ msg, ev ≠ PrintLine msg) → ev ≠ Rmtree →
  In ev (main w cfg).1
  ↔ ¬ guard_bulyan cfg ∧ ¬ guard_attack cfg
    ∧ In ev (steps_after_guards w cfg).1.
Proof.
  intros Hs Hp Hr. destruct (guards_dec cfg) as [Hg|[Hb Ha]].
  - destruct (main_at_guard w cfg Hg) as (msg & -> & _). cbn [fst]. split.
    + intros [H|[H|[H|[]]]]; subst ev; exfalso;
        first [by eapply Hs | by eapply Hp].
    + intros (Hb & Ha & _). exfalso. tauto.
  - rewrite (main_past_guards w cfg Hb Ha). cbn [fst]. split.
    + intros H. split; [done|]. split; [done|].
      apply in_app_or in H as [H|H].
      { destruct H as [H|[H|[H|[]]]]; subst ev; exfalso;
          first [by eapply Hs | by eapply Hp]. }
      apply in_app_or in H as [H|H]; [|done].
      destruct (history_dir_exists cfg); [|destruct H].
      destruct H as [H|[]]. subst ev. by exfalso.
    + intros (_ & _ & H). apply in_or_app. right. apply in_or_app. by right.
Qed.

(** X11. The history directory is removed exactly when it exists and the
    experiment is not skipped: a skipped run leaves it alone, and a run that
    later fails on a dataset, strategy or attack name has removed it
    already. *)
Theorem main_removes_history_iff w cfg :
  In Rmtree (main w cfg).1
  ↔ history_dir_exists cfg = true ∧ ¬ guard_bulyan cfg ∧ ¬ guard_attack cfg.
Proof.
  destruct (guards_dec cfg) as [Hg|[Hb Ha]].
  - destruct (main_at_guard w cfg Hg) as (msg & -> & _). simpl. split.
    + intros [H|[H|[H|[]]]]; discriminate H.
    + intros (_ & Hb & Ha). exfalso. tauto.
  - rewrite (main_past_guards w cfg Hb Ha). simpl. split.
    + intros [H|[H|[H|H]]]; try discriminate H.
      destruct (history_dir_exists cfg); [done|]. simpl in H. exfalso.
      destruct (steps_after_guards_events _ _ _ H) as [H1|[H1|H1]].
      * by destruct (prepare_dataset_events _ _ H1) as [[? ?]|[? ?]].
      * by destruct (define_strategy_events _ _ _ H1) as [[? ?]|[? ?]].
      * by destruct (run_and_save_events _ _ _ H1) as [[? ?]|[? ?]].
    + intros (He & _ & _). rewrite He. simpl. tauto.
Qed.

Lemma prepare_dataset_partition d k :
  In (DoFlPartitioning k) (prepare_dataset d).1
  ↔ (k = 10 ∧ In d ["mnist"; "fmnist"; "cifar"])
    ∨ (k = 100 ∧ d = "cifar100").
Proof.
  unfold prepare_dataset.
  destruct (str_in d ["mnist"; "fmnist"; "cifar"]) eqn:E1.
  { pose proof (proj1 (str_in_spec _ _) E1) as Hin. simpl. split.
    - intros [H|[H|[]]]; [discriminate H|]. injection H as <-. by left.
    - intros [[-> _]|[_ ->]]; [tauto|]. vm_compute in E1. discriminate E1. }
  assert (Hnin : ¬ In d ["mnist"; "fmnist"; "cifar"]).
  { intros H. apply str_in_spec in H. congruence. }
  destruct (String.eqb_spec d "cifar100") as [->|Hne].
  { simpl. split.
    - intros [H|[H|[]]]; [discriminate H|]. injection H as <-. by right.
    - intros [[_ H]|[-> _]]; [|tauto]. exfalso. by apply Hnin. }
  assert (Hno : ∀ t : list event,
             (∀ ev, In ev t → ∃ n, ev = GetDataset n) →
             In (DoFlPartitioning k) t
             ↔ (k = 10 ∧ In d ["mnist"; "fmnist"; "cifar"])
               ∨ (k = 100 ∧ d = "cifar100")).
  { intros t Ht. split.
    - intros H. destruct (Ht _ H) as [n Hn]. discriminate Hn.
    - intros [[_ H]|[_ H]]; [by apply Hnin in H | contradiction]. }
  destruct (String.eqb d "income"); [|destruct (String.eqb d "house")];
    apply Hno; simpl; intros ev H; try (destruct H as [<-|[]]; by eexists).
  done.
Qed.

(** X15. [do_fl_partitioning] is called for the image datasets only, with 10
    classes for mnist, fmnist and cifar and with 100 classes for cifar100;
    never for income or house, and never in a skipped run. *)
Theorem main_partitions_iff w cfg k :
  In (DoFlPartitioning k) (main w cfg).1
  ↔ ¬ guard_bulyan cfg ∧ ¬ guard_attack cfg
    ∧ ((k = 10 ∧ In (cfg_dataset cfg) ["mnist"; "fmnist"; "cifar"])
       ∨ (k = 100 ∧ cfg_dataset cfg = "cifar100")).
Proof.
  rewrite main_events_after_guards by done.
  rewrite <- (prepare_dataset_partition (cfg_dataset cfg) k).
  split; intros (Hb & Ha & H); (split; [done|]); (split; [done|]).
  - destruct (steps_after_guards_events _ _ _ H) as [H1|[H1|H1]]; [done|..];
      exfalso.
    + by destruct (define_strategy_events _ _ _ H1) as [[? ?]|[? ?]].
    + by destruct (run_and_save_events _ _ _ H1) as [[? ?]|[? ?]].
  - by apply steps_after_guards_prepare.
Qed.

(** * The nested function [client_fn] *)

Lemma py_getitem_in_range {A} (l : list A) (i : Z) :
  (- Z.of_nat (length l) ≤ i < Z.of_nat (length l))%Z →
  py_getitem l i = l !! Z.to_nat (i `mod` Z.of_nat (length l))
  ∧ is_Some (py_getitem l i).
Proof.
  intros Hr. unfold py_getitem.
  destruct (Z.leb_spec 0 i) as [Hi|Hi].
  - rewrite Z.mod_small by lia. split; [done|].
    apply lookup_lt_is_Some. lia.
  - destruct (Z.leb_spec (- Z.of_nat (length l)) i) as [_|Hc]; [|lia].
    assert (Hm : (i `mod` Z.of_nat (length l) = i + Z.of_nat (length l))%Z).
    { rewrite <- (Z.mod_add i 1 (Z.of_nat (length l))) by lia.
      rewrite Z.mul_1_l. apply Z.mod_small. lia. }
    rewrite Hm.
    replace (Z.to_nat (i + Z.of_nat (length l)))
      with (length l - Z.to_nat (- i)) by lia.
    split; [done|]. apply lookup_lt_is_Some. lia.
Qed.

Lemma py_getitem_out_of_range {A} (l : list A) (i : Z) :
  ¬ (- Z.of_nat (length l) ≤ i < Z.of_nat (length l))%Z →
  py_getitem l i = None.
Proof.
  intros Hr. unfold py_getitem.
  destruct (Z.leb_spec 0 i) as [Hi|Hi].
  - apply lookup_ge_None. lia.
  - destruct (Z.leb_spec (- Z.of_nat (length l)) i) as [Hc|_]; [lia|done].
Qed.

Lemma clients_lookup_supported d :
  In d supported_datasets → ∃ cls ev, clients !! d = Some (cls, ev).
Proof.
  unfold supported_datasets. simpl.
  intros [<-|[<-|[<-|[<-|[<-|[<-|[]]]]]]]; eexists _, _; reflexivity.
Qed.

Lemma clients_lookup_unsupported d :
  ¬ In d supported_datasets → clients !! d = None.
Proof.
  intros Hn. unfold clients.
  rewrite !lookup_insert_ne, lookup_empty; [done|..];
    intros <-; apply Hn; unfold supported_datasets; simpl; tauto.
Qed.

Section client_fn_properties.
Context {FedDir Partition : Type} (int_of_str : string → option Z).
Implicit Types (env : closure FedDir Partition) (cid d : string).

Lemma tabular_client_not_ValueError env cls cid i :
  tabular_client env cls cid i ≠ ClientRaise ValueError.
Proof.
  unfold tabular_client, closure_getitem.
  repeat (match goal with
          | |- context [match ?x with Some _ => _ | None => _ end] =>
              destruct x
          end); discriminate.
Qed.

Lemma tabular_client_not_KeyError env cls cid i :
  tabular_client env cls cid i ≠ ClientRaise KeyError.
Proof.
  unfold tabular_client, closure_getitem.
  repeat (match goal with
          | |- context [match ?x with Some _ => _ | None => _ end] =>
              destruct x
          end); discriminate.
Qed.

(** X16. The lookup in [clients] comes first: a dataset name outside the six
    known ones raises [KeyError] whatever [cid] is, so the final [else] with
    its [ValueError("Dataset not supported")] is never reached; a
    [ValueError] comes from [int(cid)] and from nothing else. *)
Theorem client_fn_errors env cid d :
  (client_fn int_of_str env cid d = ClientRaise KeyError
   ↔ ¬ In d supported_datasets)
  ∧ (client_fn int_of_str env cid d = ClientRaise ValueError
     ↔ In d supported_datasets ∧ int_of_str cid = None).
Proof.
  unfold client_fn.
  destruct (In_dec_str d supported_datasets) as [Hin|Hn].
  2:{ rewrite (clients_lookup_unsupported _ Hn). split; split.
      - done.
      - done.
      - intros H. discriminate H.
      - tauto. }
  destruct (clients_lookup_supported _ Hin) as (cls & ev & ->).
  destruct (int_of_str cid) as [i|].
  2:{ split; split.
      - intros H. discriminate H.
      - intros H. contradiction.
      - done.
      - done. }
  assert (Hbody :
    ∀ e, e = KeyError ∨ e = ValueError →
      (if str_in d ["mnist"; "fmnist"; "cifar"; "cifar100"]
       then match fed_dir env with
            | Some dir => Client (ImageClient cls cid dir)
            | None => ClientNameError
            end
       else if String.eqb d "income" then tabular_client env cls cid i
       else if String.eqb d "house" then tabular_client env cls cid i
       else ClientRaise ValueError) ≠ ClientRaise e).
  { intros e He.
    destruct (str_in d ["mnist"; "fmnist"; "cifar"; "cifar100"]) eqn:E1.
    { destruct (fed_dir env); discriminate. }
    destruct (String.eqb_spec d "income") as [->|Hinc].
    { destruct He as [->| ->];
        [apply tabular_client_not_KeyError
        | apply tabular_client_not_ValueError]. }
    destruct (String.eqb_spec d "house") as [->|Hho].
    { destruct He as [->| ->];
        [apply tabular_client_not_KeyError
        | apply tabular_client_not_ValueError]. }
    exfalso.
    assert (¬ In d ["mnist"; "fmnist"; "cifar"; "cifar100"]).
    { intros H. apply str_in_spec in H. congruence. }
    unfold supported_datasets in Hin. simpl in *. intuition congruence. }
  split; split.
  - intros H. exfalso. eapply Hbody; [|exact H]. by left.
  - intros H. contradiction.
  - intros H. exfalso. eapply Hbody; [|exact H]. by right.
  - intros [_ H]. discriminate H.
Qed.

(** X17. For income and house, with the four arrays bound and of one length [n]
    and a [cid] that parses to [i]: the client is built when
    [-n <= i < n], from the entries of all four arrays at the same position
    (a negative [i] counts from the end), and [IndexError] is raised
    otherwise. *)
Theorem client_fn_tabular env cid d (i : Z) (n : nat)
        (xs ys xt yt : list Partition) :
  d = "income" ∨ d = "house" →
  int_of_str cid = Some i →
  x_train env = Some xs → y_train env = Some ys →
  x_test env = Some xt → y_test env = Some yt →
  length xs = n → length ys = n → length xt = n → length yt = n →
  ((- Z.of_nat n ≤ i < Z.of_nat n)%Z →
   ∃ a b c e,
     xs !! Z.to_nat (i `mod` Z.of_nat n) = Some a
     ∧ ys !! Z.to_nat (i `mod` Z.of_nat n) = Some b
     ∧ xt !! Z.to_nat (i `mod` Z.of_nat n) = Some c
     ∧ yt !! Z.to_nat (i `mod` Z.of_nat n) = Some e
     ∧ client_fn int_of_str env cid d
       = Client (TabularClient
                   (if String.eqb d "income" then IncomeClient
                    else HouseClient) cid a b c e))
  ∧ (¬ (- Z.of_nat n ≤ i < Z.of_nat n)%Z →
     client_fn int_of_str env cid d = ClientRaise IndexError).
Proof.
  intros Hd Hi Hxs Hys Hxt Hyt Lxs Lys Lxt Lyt.
  assert (Hfn : client_fn int_of_str env cid d
                = tabular_client env
                    (if String.eqb d "income" then IncomeClient
                     else HouseClient) cid i).
  { unfold client_fn. rewrite Hi. by destruct Hd as [-> | ->]. }
  rewrite Hfn. unfold tabular_client, closure_getitem.
  rewrite Hxs, Hys, Hxt, Hyt. split.
  - intros Hr.
    destruct (py_getitem_in_range xs i) as [Exs [a Ha]]; [by rewrite Lxs|].
    destruct (py_getitem_in_range ys i) as [Eys [b Hb]]; [by rewrite Lys|].
    destruct (py_getitem_in_range xt i) as [Ext [c Hc]]; [by rewrite Lxt|].
    destruct (py_getitem_in_range yt i) as [Eyt [e He]]; [by rewrite Lyt|].
    exists a, b, c, e.
    rewrite <- Lxs at 1. rewrite <- Exs.
    rewrite <- Lys at 1. rewrite <- Eys.
    rewrite <- Lxt at 1. rewrite <- Ext.
    rewrite <- Lyt at 1. rewrite <- Eyt.
    rewrite Ha, Hb, Hc, He. done.
  - intros Hr. rewrite (py_getitem_out_of_range xs i); [done|by rewrite Lxs].
Qed.

(** X18. [client_fn] reads names of [main] that only one family of datasets
    assigns: asked for an image dataset when only the arrays are bound, or
    for income or house when only [fed_dir] is bound, it raises
    [NameError] (for a [cid] that parses). *)
Theorem client_fn_unbound_name env cid d (i : Z) :
  int_of_str cid = Some i →
  (In d ["mnist"; "fmnist"; "cifar"; "cifar100"] → fed_dir env = None →
   client_fn int_of_str env cid d = ClientNameError)
  ∧ (d = "income" ∨ d = "house" → x_train env = None →
     client_fn int_of_str env cid d = ClientNameError).
Proof.
  intros Hi. unfold client_fn. rewrite Hi. split.
  - intros Hd Hf. simpl in Hd.
    destruct Hd as [<-|[<-|[<-|[<-|[]]]]]; simpl; by rewrite Hf.
  - intros Hd Hx. unfold tabular_client, closure_getitem.
    destruct Hd as [-> | ->]; simpl; by rewrite Hx.
Qed.

End client_fn_properties.

(** * Saving the results *)

(** The run's file and the file of all results are never the same file. *)
Lemma results_paths_differ save_path :
  os_path_join save_path "results.csv" ≠ "outputs/all_results.csv".
Proof.
  unfold os_path_join.
  destruct (String.eqb_spec save_path "") as [->|Hne]; [discriminate|].
  cbn [orb]. destruct (ends_with_sep save_path) eqn:E; intros H.
  - repeat (destruct save_path as [|? save_path]; cbn in H;
            [ first [discriminate H | vm_compute in E; discriminate E]
            | first [discriminate H | injection H as -> H] ]).
  - repeat (destruct save_path as [|? save_path]; cbn in H;
            [ discriminate H
            | first [discriminate H | injection H as -> H] ]).
Qed.

Lemma unzip_pairs_Ok {A B} (pairs : list (A * B)) p :
  unzip_pairs pairs = Ok p ↔ pairs ≠ [] ∧ p = (pairs.*1, pairs.*2).
Proof.
  unfold unzip_pairs. destruct pairs as [|x pairs]; split.
  - intros H. discriminate H.
  - intros [H _]. done.
  - intros [= <-]. done.
  - intros [_ ->]. done.
Qed.

Lemma metric_values_Ok history name vs :
  metric_values history name = Ok vs
  ↔ ∃ pairs, metrics_centralized history !! name = Some pairs
             ∧ pairs ≠ [] ∧ vs = pairs.*2.
Proof.
  unfold metric_values.
  destruct (metrics_centralized history !! name) as [pairs|]; split.
  - destruct (unzip_pairs pairs) as [p|] eqn:E; simpl; [|intros H; discriminate H].
    intros [= <-]. apply unzip_pairs_Ok in E as [Hne ->]. by exists pairs.
  - intros (pairs' & [= <-] & Hne & ->).
    by rewrite (proj2 (unzip_pairs_Ok pairs _) (conj Hne eq_refl)).
  - intros H. discriminate H.
  - intros (pairs' & H & _). discriminate H.
Qed.

(** What unpacking gives when it goes through. *)
Lemma unpack_history_Ok history cols :
  unpack_history history = Ok cols
  ↔ losses_centralized history ≠ []
    ∧ col_rounds cols = (losses_centralized history).*1
    ∧ col_loss cols = (losses_centralized history).*2
    ∧ metric_values history "accuracy" = Ok (col_accuracy cols)
    ∧ metric_values history "auc" = Ok (col_auc cols)
    ∧ metric_values history "TP" = Ok (col_tp cols)
    ∧ metric_values history "TN" = Ok (col_tn cols)
    ∧ metric_values history "FP" = Ok (col_fp cols)
    ∧ metric_values history "FN" = Ok (col_fn cols).
Proof.
  unfold unpack_history. split.
  - destruct (unzip_pairs (losses_centralized history)) as [p|] eqn:E;
      cbn [result_bind]; [|intros H; discriminate H].
    apply unzip_pairs_Ok in E as [Hne ->].
    repeat (match goal with
            | |- context [metric_values history ?n] =>
                destruct (metric_values history n);
                cbn [result_bind]; [|intros H; discriminate H]
            end).
    intros [= <-]. done.
  - intros (Hne & Hr & Hl & Ha & Hu & Htp & Htn & Hfp & Hfn).
    rewrite (proj2 (unzip_pairs_Ok _ _) (conj Hne eq_refl)).
    cbn [result_bind]. rewrite Ha, Hu, Htp, Htn, Hfp, Hfn.
    cbn [result_bind fst snd]. rewrite <- Hr, <- Hl. by destruct cols.
Qed.

Lemma unpack_history_Raise history e :
  unpack_history history = Raise e → e = ValueError ∨ e = KeyError.
Proof.
  unfold unpack_history.
  assert (Hm : ∀ name e', metric_values history name = Raise e' →
                          e' = ValueError ∨ e' = KeyError).
  { intros name e'. unfold metric_values.
    destruct (metrics_centralized history !! name) as [[|x l]|]; simpl;
      intros [= <-]; auto. }
  destruct (losses_centralized history) as [|x l]; simpl.
  { intros [= <-]. auto. }
  repeat (match goal with
          | |- context [metric_values history ?n] =>
              let E := fresh "E" in
              destruct (metric_values history n) eqn:E;
              cbn [result_bind];
              [|intros [= <-]; by eapply Hm]
          end).
  intros H. discriminate H.
Qed.

Lemma map_fst_zip {A B} (l : list A) (k : list B) :
  length l ≤ length k → map fst (zip l k) = l.
Proof. apply fst_zip. Qed.

Lemma map_snd_zip {A B} (l : list A) (k : list B) :
  length k ≤ length l → map snd (zip l k) = k.
Proof. apply snd_zip. Qed.

Lemma DataFrame_aligned cfg cols :
  columns_aligned cols →
  ∃ rows, DataFrame cfg cols = Ok rows
          ∧ length rows = length (col_rounds cols)
          ∧ map row_round rows = col_rounds cols
          ∧ map row_loss rows = col_loss cols
          ∧ Forall (λ r, row_attack_fn r = cfg_server_attack_fn cfg
                         ∧ row_dataset_name r = cfg_dataset cfg
                         ∧ row_num_malicious r = cfg_server_num_malicious cfg
                         ∧ row_strategy r = cfg_strategy_name cfg
                         ∧ row_aggregate_fn r = cfg_aggregate_fn_function cfg)
                   rows.
Proof.
  intros Hal. unfold DataFrame.
  replace (forallb _ _) with true.
  2:{ symmetry. apply forallb_forall. intros c Hc. apply Nat.eqb_eq.
      unfold columns_aligned in Hal. rewrite Forall_forall in Hal.
      apply Hal. by apply list_elem_of_In. }
  eexists. split; [reflexivity|].
  unfold columns_aligned in Hal.
  repeat (apply Forall_cons in Hal as [? Hal]).
  set (z := zip (col_rounds cols) _).
  assert (Hz : length z = length (col_rounds cols)).
  { unfold z. rewrite !length_zip. lia. }
  split; [by rewrite length_map|].
  split; [|split].
  - transitivity (map fst z).
    { rewrite map_map. apply map_ext.
      by intros [r [l [a [u [tp [tn [fp fn]]]]]]]. }
    unfold z. apply map_fst_zip. rewrite !length_zip. lia.
  - transitivity (map fst (map snd z)).
    { rewrite !map_map. apply map_ext.
      by intros [r [l [a [u [tp [tn [fp fn]]]]]]]. }
    unfold z. rewrite map_snd_zip by (rewrite !length_zip; lia).
    apply map_fst_zip. rewrite !length_zip. lia.
  - apply Forall_map, Forall_forall.
    by intros [r [l [a [u [tp [tn [fp fn]]]]]]] _.
Qed.

Lemma DataFrame_not_aligned cfg cols :
  ¬ columns_aligned cols → DataFrame cfg cols = Raise ValueError.
Proof.
  intros Hn. unfold DataFrame.
  destruct (forallb _ _) eqn:E; [|done].
  exfalso. apply Hn. unfold columns_aligned. apply Forall_forall.
  intros c Hc. rewrite forallb_forall in E.
  apply Nat.eqb_eq, E. by apply list_elem_of_In.
Qed.

Lemma columns_aligned_dec cols : columns_aligned cols ∨ ¬ columns_aligned cols.
Proof.
  unfold columns_aligned.
  destruct (decide (Forall (λ c : list Qc, length c = length (col_rounds cols))
         [col_loss cols; col_accuracy cols; col_auc cols; col_tp cols;
          col_tn cols; col_fp cols; col_fn cols])); auto.
Qed.

Lemma history_complete_unpack history :
  history_complete history
  ↔ ∃ cols, unpack_history history = Ok cols ∧ columns_aligned cols.
Proof.
  unfold history_complete, metric_names. split.
  - intros [Hne Hall].
    repeat (apply Forall_cons in Hall as [(? & ? & ?) Hall]).
    assert (Hm : ∀ name pairs,
               metrics_centralized history !! name = Some pairs →
               length pairs = length (losses_centralized history) →
               metric_values history name = Ok pairs.*2).
    { intros name pairs Hl Hlen. apply metric_values_Ok. exists pairs.
      split; [done|]. split; [|done].
      intros ->. destruct (losses_centralized history); done. }
    eexists {| col_rounds := _; col_loss := _; col_accuracy := _;
               col_auc := _; col_tp := _; col_tn := _; col_fp := _;
               col_fn := _ |}.
    split.
    + apply unpack_history_Ok. cbn.
      repeat split; [done| | | | | |]; by apply Hm.
    + unfold columns_aligned. cbn.
      repeat constructor; rewrite !length_fmap; congruence.
  - intros (cols & Hu & Hal).
    apply unpack_history_Ok in Hu
      as (Hne & Hr & Hl & Ha & Hu & Htp & Htn & Hfp & Hfn).
    split; [done|].
    unfold columns_aligned in Hal.
    repeat (apply Forall_cons in Hal as [? Hal]).
    assert (Hm : ∀ name vs,
               metric_values history name = Ok vs →
               length vs = length (col_rounds cols) →
               ∃ pairs, metrics_centralized history !! name = Some pairs
                        ∧ length pairs = length (losses_centralized history)).
    { intros name vs Hv Hlen.
      apply metric_values_Ok in Hv as (pairs & Hp & _ & ->).
      exists pairs. split; [done|].
      rewrite length_fmap, Hr, length_fmap in Hlen. done. }
    repeat constructor; eapply Hm; eauto.
Qed.

Lemma save_loop_aligned cfg cols f1 f2 fs rows :
  DataFrame cfg cols = Ok rows →
  save_loop cfg cols [f1; f2] fs
  = (to_csv (to_csv fs f1 rows) f2 rows, Ok tt).
Proof. intros H. simpl. by rewrite H. Qed.

Lemma to_csv_lookup (fs : gmap string (list csv_line)) f rows :
  to_csv fs f rows !! f = Some (saved (fs !! f) rows).
Proof.
  unfold to_csv, saved. destruct (fs !! f); by rewrite lookup_insert_eq.
Qed.

Lemma to_csv_lookup_ne (fs : gmap string (list csv_line)) f f' rows :
  f ≠ f' → to_csv fs f rows !! f' = fs !! f'.
Proof.
  intros Hne. unfold to_csv. destruct (fs !! f); by rewrite lookup_insert_ne.
Qed.

(** X19. The results are saved exactly when the history has at least one
    centralised loss and each of accuracy, auc, TP, TN, FP and FN is there
    with as many entries as there are losses. *)
Theorem save_results_returns_iff cfg save_path history
        (fs : gmap string (list csv_line)) :
  (save_results cfg save_path history fs).2 = Ok tt
  ↔ history_complete history.
Proof.
  rewrite history_complete_unpack. unfold save_results. split.
  - destruct (unpack_history history) as [cols|e] eqn:Eu;
      [|intros H; discriminate H].
    destruct (columns_aligned_dec cols) as [Hal|Hn]; [by exists cols|].
    simpl. rewrite (DataFrame_not_aligned cfg cols Hn).
    intros H. discriminate H.
  - intros (cols & -> & Hal).
    destruct (DataFrame_aligned cfg cols Hal) as (rows & Hrows & _).
    by rewrite (save_loop_aligned _ _ _ _ _ _ Hrows).
Qed.

(** X20. When saving fails it fails before anything is written: every file is
    as it was, and the exception is the [ValueError] of an empty or ragged
    history or the [KeyError] of a missing metric. *)
Theorem save_results_failure_writes_nothing cfg save_path history
        (fs : gmap string (list csv_line)) :
  ¬ history_complete history →
  ∃ e, save_results cfg save_path history fs = (fs, Raise e)
       ∧ (e = ValueError ∨ e = KeyError).
Proof.
  rewrite history_complete_unpack. intros Hn. unfold save_results.
  destruct (unpack_history history) as [cols|e] eqn:Eu.
  - destruct (columns_aligned_dec cols) as [Hal|Hnal].
    { exfalso. apply Hn. by exists cols. }
    simpl. rewrite (DataFrame_not_aligned cfg cols Hnal).
    eexists. split; [done|]. by left.
  - eexists. split; [done|]. by eapply unpack_history_Raise.
Qed.

(** X21. What a successful save leaves behind: one row per centralised loss,
    with that loss and its round and with the configuration's attack,
    dataset, number of malicious clients, strategy and aggregation function;
    both the run's file and the file of all results hold their earlier
    lines followed by these rows (a file that did not exist starts with the
    header), and no other file changes. *)
Theorem save_results_files cfg save_path history
        (fs : gmap string (list csv_line)) :
  history_complete history →
  ∃ rows,
    length rows = length (losses_centralized history)
    ∧ map row_round rows = (losses_centralized history).*1
    ∧ map row_loss rows = (losses_centralized history).*2
    ∧ Forall (λ r, row_attack_fn r = cfg_server_attack_fn cfg
                   ∧ row_dataset_name r = cfg_dataset cfg
                   ∧ row_num_malicious r = cfg_server_num_malicious cfg
                   ∧ row_strategy r = cfg_strategy_name cfg
                   ∧ row_aggregate_fn r = cfg_aggregate_fn_function cfg) rows
    ∧ (save_results cfg save_path history fs).1
        !! os_path_join save_path "results.csv"
      = Some (saved (fs !! os_path_join save_path "results.csv") rows)
    ∧ (save_results cfg save_path history fs).1 !! "outputs/all_results.csv"
      = Some (saved (fs !! "outputs/all_results.csv") rows)
    ∧ ∀ f, f ≠ os_path_join save_path "results.csv" →
           f ≠ "outputs/all_results.csv" →
           (save_results cfg save_path history fs).1 !! f = fs !! f.
Proof.
  intros Hc. apply history_complete_unpack in Hc as (cols & Hu & Hal).
  destruct (DataFrame_aligned cfg cols Hal)
    as (rows & Hrows & Hlen & Hround & Hloss & Hconst).
  pose proof (proj1 (unpack_history_Ok _ _) Hu) as (_ & Hr & Hl & _).
  exists rows. unfold save_results.
  rewrite Hu, (save_loop_aligned _ _ _ _ _ _ Hrows). cbn [fst].
  pose proof (results_paths_differ save_path) as Hdiff.
  split; [by rewrite Hlen, Hr, length_fmap|].
  split; [by rewrite Hround|]. split; [by rewrite Hloss|].
  split; [done|]. split; [|split].
  - rewrite to_csv_lookup_ne by done. apply to_csv_lookup.
  - rewrite to_csv_lookup. by rewrite to_csv_lookup_ne.
  - intros f H1 H2. by rewrite !to_csv_lookup_ne.
Qed.

(** * The run of [main] as a whole *)

Lemma attacks_lookup_Some a :
  In a supported_attacks → ∃ x, attacks !! a = Some x.
Proof.
  unfold supported_attacks. simpl.
  intros [<-|[<-|[<-|[<-|[<-|[]]]]]]; eexists; reflexivity.
Qed.

Lemma save_step_complete w cfg history :
  history_complete history →
  save_step w cfg history
  = ([ToCsv (run_results_csv w); ToCsv all_results_csv], inl tt).
Proof.
  intros Hc. apply history_complete_unpack in Hc as (cols & Hu & Hal).
  destruct (DataFrame_aligned cfg cols Hal) as (rows & Hrows & _).
  by rewrite save_step_spec, Hu, Hrows.
Qed.

Lemma save_step_incomplete w cfg history :
  ¬ history_complete history →
  ∃ e, save_step w cfg history = ([], inr (e, ""))
       ∧ (e = ValueError ∨ e = KeyError).
Proof.
  rewrite history_complete_unpack. intros Hn. rewrite save_step_spec.
  destruct (unpack_history history) as [cols|e] eqn:Eu.
  - destruct (columns_aligned_dec cols) as [Hal|Hnal].
    { exfalso. apply Hn. by exists cols. }
    rewrite (DataFrame_not_aligned cfg cols Hnal).
    eexists. split; [done|]. by left.
  - eexists. split; [done|]. by eapply unpack_history_Raise.
Qed.

Lemma history_complete_dec history :
  history_complete history ∨ ¬ history_complete history.
Proof.
  rewrite history_complete_unpack.
  destruct (unpack_history history) as [cols|e] eqn:Eu.
  - destruct (columns_aligned_dec cols) as [Hal|Hnal].
    + left. by exists cols.
    + right. intros (cols' & [= <-] & Hal). contradiction.
  - right. by intros (cols' & H & _).
Qed.

(** The four ways the simulation step can go. *)
Lemma run_and_save_cases w cfg :
  (¬ In (cfg_server_attack_fn cfg) supported_attacks
   ∧ run_and_save w cfg = ([], inr (KeyError, cfg_server_attack_fn cfg)))
  ∨ (∃ a err, attacks !! cfg_server_attack_fn cfg = Some a
              ∧ start_simulation w a = inr err
              ∧ run_and_save w cfg = ([StartSimulation a], inr err))
  ∨ (∃ a history e,
       attacks !! cfg_server_attack_fn cfg = Some a
       ∧ start_simulation w a = inl history
       ∧ ¬ history_complete history
       ∧ (e = ValueError ∨ e = KeyError)
       ∧ run_and_save w cfg = ([StartSimulation a], inr (e, "")))
  ∨ (∃ a history,
       attacks !! cfg_server_attack_fn cfg = Some a
       ∧ start_simulation w a = inl history
       ∧ history_complete history
       ∧ run_and_save w cfg
         = ([StartSimulation a; ToCsv (run_results_csv w);
             ToCsv all_results_csv], inl tt)).
Proof.
  destruct (In_dec_str (cfg_server_attack_fn cfg) supported_attacks)
    as [Hk|Hk].
  2:{ left. split; [done|]. by apply run_and_save_unsupported. }
  right. destruct (attacks_lookup_Some _ Hk) as [a Ha].
  unfold run_and_save. rewrite Ha. unfold IO_bind, IO_call. cbn [fst snd].
  destruct (start_simulation w a) as [history|err] eqn:Es.
  2:{ left. by exists a, err. }
  right. destruct (history_complete_dec history) as [Hc|Hc].
  - right. exists a, history. rewrite (save_step_complete _ _ _ Hc). done.
  - left. destruct (save_step_incomplete w cfg _ Hc) as (e & -> & He).
    by exists a, history, e.
Qed.

(** How [main] ends past the guards, step by step. *)
Lemma steps_after_guards_cases w cfg :
  (¬ In (cfg_dataset cfg) supported_datasets
   ∧ steps_after_guards w cfg = ([], inr (ValueError, "Dataset not supported")))
  ∨ (In (cfg_dataset cfg) supported_datasets ∧ ¬ strategy_accepted w cfg
     ∧ ∃ err, (define_strategy w cfg).2 = inr err
              ∧ steps_after_guards w cfg
                = ((prepare_dataset (cfg_dataset cfg)).1
                   ++ (define_strategy w cfg).1, inr err))
  ∨ (In (cfg_dataset cfg) supported_datasets ∧ strategy_accepted w cfg
     ∧ steps_after_guards w cfg
       = ((prepare_dataset (cfg_dataset cfg)).1 ++ (define_strategy w cfg).1
          ++ (run_and_save w cfg).1, (run_and_save w cfg).2)).
Proof.
  destruct (In_dec_str (cfg_dataset cfg) supported_datasets) as [Hd|Hd].
  2:{ left. split; [done|]. by apply steps_after_guards_dataset. }
  right. destruct (strategy_accepted_dec w cfg) as [Hs|Hs].
  - right. split; [done|]. split; [done|]. by apply steps_after_guards_run.
  - left. split; [done|]. split; [done|].
    destruct (define_strategy w cfg).2 as [[]|[e msg]] eqn:Es.
    { exfalso. by apply Hs, define_strategy_returns. }
    exists (e, msg). split; [done|]. by apply steps_after_guards_strategy.
Qed.

Lemma define_strategy_flanders w cfg :
  cfg_strategy_name cfg = "flanders" →
  (define_strategy w cfg).2
  = match rsplit_dot (cfg_aggregate_fn_function cfg) with
    | None =>
        inr (ValueError, "not enough values to unpack (expected 2, got 1)")
    | Some (module_name, function_name) =>
        match import_module w module_name with
        | inr err => inr err
        | inl module =>
            if str_in function_name module then instantiate w "flanders"
            else inr (AttributeError, function_name)
        end
    end.
Proof.
  intros E. unfold define_strategy. rewrite E. simpl String.eqb. cbv iota.
  destruct (rsplit_dot (cfg_aggregate_fn_function cfg))
    as [[module_name function_name]|]; [|done].
  rewrite IO_bind_snd. unfold IO_call. cbn [snd].
  destruct (import_module w module_name) as [module|err]; [|done].
  rewrite IO_bind_snd. by destruct (str_in function_name module).
Qed.

Lemma define_strategy_other w cfg :
  cfg_strategy_name cfg ≠ "flanders" →
  In (cfg_strategy_name cfg) supported_strategies →
  (define_strategy w cfg).2 = instantiate w (cfg_strategy_name cfg).
Proof.
  intros Hne Hin. unfold define_strategy.
  destruct (String.eqb_spec (cfg_strategy_name cfg) "flanders"); [done|].
  replace (str_in _ _) with true; [done|]. symmetry. apply str_in_spec.
  unfold supported_strategies in Hin. simpl in *.
  destruct Hin as [H|H]; [congruence | tauto].
Qed.

Lemma main_raises_of_strategy w cfg e msg :
  ¬ guard_bulyan cfg → ¬ guard_attack cfg →
  In (cfg_dataset cfg) supported_datasets →
  (define_strategy w cfg).2 = inr (e, msg) →
  (main w cfg).2 = Raised e msg.
Proof.
  intros Hb Ha Hd Hs. rewrite (main_past_guards w cfg Hb Ha). cbn [snd].
  by rewrite (steps_after_guards_strategy _ _ _ _ Hd Hs).
Qed.

(** X12. Which error wins.  Past the guards an unsupported dataset name is
    reported first.  Then comes the strategy: an unknown name; for flanders
    an aggregation function path without a dot, then the error of importing
    the module, then the missing attribute; for every supported name the
    error of hydra's [instantiate].  The attack name comes last, as the
    [KeyError] of the dictionary lookup. *)
Theorem main_error_precedence w cfg :
  ¬ guard_bulyan cfg → ¬ guard_attack cfg →
  (¬ In (cfg_dataset cfg) supported_datasets →
   (main w cfg).2 = Raised ValueError "Dataset not supported")
  ∧ (In (cfg_dataset cfg) supported_datasets →
     ¬ In (cfg_strategy_name cfg) supported_strategies →
     (main w cfg).2 = Raised ValueError "Strategy not supported")
  ∧ (In (cfg_dataset cfg) supported_datasets →
     cfg_strategy_name cfg = "flanders" →
     rsplit_dot (cfg_aggregate_fn_function cfg) = None →
     (main w cfg).2
     = Raised ValueError "not enough values to unpack (expected 2, got 1)")
  ∧ (∀ module_name function_name e msg,
       In (cfg_dataset cfg) supported_datasets →
       cfg_strategy_name cfg = "flanders" →
       rsplit_dot (cfg_aggregate_fn_function cfg)
       = Some (module_name, function_name) →
       import_module w module_name = inr (e, msg) →
       (main w cfg).2 = Raised e msg)
  ∧ (∀ module_name function_name module,
       In (cfg_dataset cfg) supported_datasets →
       cfg_strategy_name cfg = "flanders" →
       rsplit_dot (cfg_aggregate_fn_function cfg)
       = Some (module_name, function_name) →
       import_module w module_name = inl module →
       ¬ In function_name module →
       (main w cfg).2 = Raised AttributeError function_name)
  ∧ (∀ e msg,
       In (cfg_dataset cfg) supported_datasets →
       In (cfg_strategy_name cfg) supported_strategies →
       (cfg_strategy_name cfg = "flanders" →
        ∃ module_name function_name module,
          rsplit_dot (cfg_aggregate_fn_function cfg)
          = Some (module_name, function_name)
          ∧ import_module w module_name = inl module
          ∧ In function_name module) →
       instantiate w (cfg_strategy_name cfg) = inr (e, msg) →
       (main w cfg).2 = Raised e msg)
  ∧ (In (cfg_dataset cfg) supported_datasets → strategy_accepted w cfg →
     ¬ In (cfg_server_attack_fn cfg) supported_attacks →
     (main w cfg).2 = Raised KeyError (cfg_server_attack_fn cfg)).
Proof.
  intros Hb Ha.
  split; [|split; [|split; [|split; [|split; [|split]]]]].
  - intros H. rewrite (main_past_guards w cfg Hb Ha). cbn [snd].
    by rewrite (steps_after_guards_dataset _ _ H).
  - intros Hd Hs. apply main_raises_of_strategy; try done.
    by rewrite (define_strategy_unsupported _ _ Hs).
  - intros Hd E Hr. apply main_raises_of_strategy; try done.
    by rewrite (define_strategy_flanders _ _ E), Hr.
  - intros mn fn e msg Hd E Hr Hi. apply main_raises_of_strategy; try done.
    by rewrite (define_strategy_flanders _ _ E), Hr, Hi.
  - intros mn fn module Hd E Hr Hi Hf.
    apply main_raises_of_strategy; try done.
    rewrite (define_strategy_flanders _ _ E), Hr, Hi.
    by rewrite (str_in_false _ _ Hf).
  - intros e msg Hd Hin Hfl Hi. apply main_raises_of_strategy; try done.
    destruct (String.eqb_spec (cfg_strategy_name cfg) "flanders") as [E|Hne].
    + destruct (Hfl E) as (mn & fn & module & Hr & Hm & Hf).
      rewrite (define_strategy_flanders _ _ E), Hr, Hm.
      rewrite (proj2 (str_in_spec _ _) Hf). by rewrite <- E.
    + by rewrite (define_strategy_other _ _ Hne Hin).
  - intros Hd Hs Hk. rewrite (main_past_guards w cfg Hb Ha). cbn [snd].
    rewrite (steps_after_guards_run _ _ Hd Hs).
    by rewrite (run_and_save_unsupported _ _ Hk).
Qed.

Lemma main_error_precedence_witness :
  (¬ In (cfg_dataset flanders_cfg) supported_datasets →
   (main no_module_world flanders_cfg).2 = Raised ValueError "Dataset not supported")
  ∧ (In (cfg_dataset flanders_cfg) supported_datasets →
     ¬ In (cfg_strategy_name flanders_cfg) supported_strategies →
     (main no_module_world flanders_cfg).2 = Raised ValueError "Strategy not supported")
  ∧ (In (cfg_dataset flanders_cfg) supported_datasets →
     cfg_strategy_name flanders_cfg = "flanders" →
     rsplit_dot (cfg_aggregate_fn_function flanders_cfg) = None →
     (main no_module_world flanders_cfg).2
     = Raised ValueError "not enough values to unpack (expected 2, got 1)")
  ∧ (∀ module_name function_name e msg,
       In (cfg_dataset flanders_cfg) supported_datasets →
       cfg_strategy_name flanders_cfg = "flanders" →
       rsplit_dot (cfg_aggregate_fn_function flanders_cfg)
       = Some (module_name, function_name) →
       import_module no_module_world module_name = inr (e, msg) →
       (main no_module_world flanders_cfg).2 = Raised e msg)
  ∧ (∀ module_name function_name module,
       In (cfg_dataset flanders_cfg) supported_datasets →
       cfg_strategy_name flanders_cfg = "flanders" →
       rsplit_dot (cfg_aggregate_fn_function flanders_cfg)
       = Some (module_name, function_name) →
       import_module no_module_world module_name = inl module →
       ¬ In function_name module →
       (main no_module_world flanders_cfg).2 = Raised AttributeError function_name)
  ∧ (∀ e msg,
       In (cfg_dataset flanders_cfg) supported_datasets →
       In (cfg_strategy_name flanders_cfg) supported_strategies →
       (cfg_strategy_name flanders_cfg = "flanders" →
        ∃ module_name function_name module,
          rsplit_dot (cfg_aggregate_fn_function flanders_cfg)
          = Some (module_name, function_name)
          ∧ import_module no_module_world module_name = inl module
          ∧ In function_name module) →
       instantiate no_module_world (cfg_strategy_name flanders_cfg) = inr (e, msg) →
       (main no_module_world flanders_cfg).2 = Raised e msg)
  ∧ (In (cfg_dataset flanders_cfg) supported_datasets → strategy_accepted no_module_world flanders_cfg →
     ¬ In (cfg_server_attack_fn flanders_cfg) supported_attacks →
     (main no_module_world flanders_cfg).2 = Raised KeyError (cfg_server_attack_fn flanders_cfg)).
Proof.
  apply main_error_precedence.
  - intros [H _]. discriminate H.
  - intros (_ & _ & H). discriminate H.
Defined.

(** X13. [main] returns normally in exactly two situations: a guard fired and
    the experiment was skipped, or the dataset is supported, the strategy
    is accepted, the attack is supported, the simulation hands back a
    history and that history is complete.  The simulation is started
    exactly when no guard fires, the dataset is supported, the strategy is
    accepted and the attack is supported. *)
Theorem main_returns_iff w cfg :
  ((main w cfg).2 = Returned
   ↔ (guard_bulyan cfg ∨ guard_attack cfg)
     ∨ (In (cfg_dataset cfg) supported_datasets ∧ strategy_accepted w cfg
        ∧ ∃ a history,
            attacks !! cfg_server_attack_fn cfg = Some a
            ∧ start_simulation w a = inl history
            ∧ history_complete history))
  ∧ (simulation_started (main w cfg).1 = true
     ↔ ¬ guard_bulyan cfg ∧ ¬ guard_attack cfg
       ∧ In (cfg_dataset cfg) supported_datasets ∧ strategy_accepted w cfg
       ∧ In (cfg_server_attack_fn cfg) supported_attacks).
Proof.
  destruct (guards_dec cfg) as [Hg|[Hb Ha]].
  { destruct (main_at_guard w cfg Hg) as (msg & -> & _). cbn [fst snd].
    split; split; [tauto | done | intros H; discriminate H | tauto]. }
  rewrite (main_past_guards w cfg Hb Ha).
  cbn [fst snd]. rewrite !simulation_started_app.
  replace (simulation_started (if history_dir_exists cfg then [Rmtree] else []))
    with false by (by destruct (history_dir_exists cfg)).
  cbn [simulation_started existsb is_simulation_event orb].
  fold (simulation_started (steps_after_guards w cfg).1).
  assert (Hno : ∀ (e : exn) (msg : string) (P Q : Prop),
             ¬ P → ¬ Q →
             (Raised e msg = Returned ↔ P) ∧ (false = true ↔ Q)).
  { intros e msg P Q HP HQ.
    split; split; try (intros H; discriminate H); tauto. }
  destruct (steps_after_guards_cases w cfg)
    as [[Hd ->]|[(Hd & Hs & [e msg] & _ & ->)|(Hd & Hs & ->)]].
  { cbn [fst snd outcome_of simulation_started existsb]. apply Hno; tauto. }
  { cbn [fst snd outcome_of].
    rewrite simulation_started_app, prepare_dataset_quiet,
      define_strategy_quiet.
    apply Hno; tauto. }
  cbn [fst snd].
  rewrite !simulation_started_app, prepare_dataset_quiet,
    define_strategy_quiet.
  cbn [orb].
  destruct (run_and_save_cases w cfg)
    as [[Hk ->]|[(a & [e msg] & Hl & Hsim & ->)
                |[(a & h & e & Hl & Hsim & Hc & _ & ->)
                 |(a & h & Hl & Hsim & Hc & ->)]]];
    cbn [fst snd outcome_of simulation_started existsb is_simulation_event orb].
  - apply Hno; [|tauto].
    intros [?|(_ & _ & a & h & Hl & _)]; [tauto|].
    rewrite (attacks_lookup_None _ Hk) in Hl. discriminate Hl.
  - assert (Hk : In (cfg_server_attack_fn cfg) supported_attacks).
    { destruct (In_dec_str (cfg_server_attack_fn cfg) supported_attacks)
        as [?|Hn]; [done|].
      rewrite (attacks_lookup_None _ Hn) in Hl. discriminate Hl. }
    split; split; try tauto; try (intros H; discriminate H).
    intros [?|(_ & _ & a' & h & Hl' & Hsim' & _)]; [tauto|].
    rewrite Hl in Hl'. injection Hl' as <-. congruence.
  - assert (Hk : In (cfg_server_attack_fn cfg) supported_attacks).
    { destruct (In_dec_str (cfg_server_attack_fn cfg) supported_attacks)
        as [?|Hn]; [done|].
      rewrite (attacks_lookup_None _ Hn) in Hl. discriminate Hl. }
    split; split; try tauto; try (intros H; discriminate H).
    intros [?|(_ & _ & a' & h' & Hl' & Hsim' & Hc')]; [tauto|].
    rewrite Hl in Hl'. injection Hl' as <-.
    rewrite Hsim in Hsim'. injection Hsim' as <-. contradiction.
  - assert (Hk : In (cfg_server_attack_fn cfg) supported_attacks).
    { destruct (In_dec_str (cfg_server_attack_fn cfg) supported_attacks)
        as [?|Hn]; [done|].
      rewrite (attacks_lookup_None _ Hn) in Hl. discriminate Hl. }
    split; split; try tauto.
    intros _. right. split; [done|]. split; [done|]. by exists a, h.
Qed.

(** X14. The two result files are written together or not at all, and they
    are written exactly in the runs that return past the guards: a run
    that is skipped or that raises, be it in the simulation or while the
    history is unpacked, writes neither file.  Nothing else is written as
    a table, and nothing is written before the simulation was started. *)
Theorem main_saves_both_or_none w cfg :
  (In (ToCsv (run_results_csv w)) (main w cfg).1
   ↔ In (ToCsv all_results_csv) (main w cfg).1)
  ∧ (In (ToCsv all_results_csv) (main w cfg).1
     ↔ (main w cfg).2 = Returned
       ∧ ¬ guard_bulyan cfg ∧ ¬ guard_attack cfg)
  ∧ (∀ file_name, In (ToCsv file_name) (main w cfg).1 →
       (file_name = run_results_csv w ∨ file_name = all_results_csv)
       ∧ simulation_started (main w cfg).1 = true
       ∧ ∃ a, In (StartSimulation a) (main w cfg).1).
Proof.
  assert (Hcsv : ∀ f, In (ToCsv f) (main w cfg).1
                      ↔ ¬ guard_bulyan cfg ∧ ¬ guard_attack cfg
                        ∧ In (ToCsv f) (steps_after_guards w cfg).1).
  { intros f. by apply main_events_after_guards. }
  assert (Hstart : ∀ a, In (StartSimulation a) (main w cfg).1
                        ↔ ¬ guard_bulyan cfg ∧ ¬ guard_attack cfg
                          ∧ In (StartSimulation a) (steps_after_guards w cfg).1).
  { intros a. by apply main_events_after_guards. }
  assert (Hstarted : ∀ a, In (StartSimulation a) (main w cfg).1 →
                          simulation_started (main w cfg).1 = true).
  { intros a H. apply existsb_exists. by exists (StartSimulation a). }
  assert (Hnone : ∀ t : list event,
             (∀ f, ¬ In (ToCsv f) t) → ∀ e msg,
             steps_after_guards w cfg = (t, inr (e, msg)) →
             (In (ToCsv (run_results_csv w)) (main w cfg).1
              ↔ In (ToCsv all_results_csv) (main w cfg).1)
             ∧ (In (ToCsv all_results_csv) (main w cfg).1
                ↔ (main w cfg).2 = Returned
                  ∧ ¬ guard_bulyan cfg ∧ ¬ guard_attack cfg)
             ∧ (∀ file_name, In (ToCsv file_name) (main w cfg).1 →
                  (file_name = run_results_csv w ∨ file_name = all_results_csv)
                  ∧ simulation_started (main w cfg).1 = true
                  ∧ ∃ a, In (StartSimulation a) (main w cfg).1)).
  { intros t Ht e msg Hsteps.
    assert (Hn : ∀ f, ¬ In (ToCsv f) (main w cfg).1).
    { intros f H. apply Hcsv in H as (_ & _ & H). rewrite Hsteps in H.
      by apply Ht in H. }
    split; [split; intros H; by apply Hn in H|].
    split; [|intros f H; by apply Hn in H].
    split; [intros H; by apply Hn in H|].
    intros (Hr & Hb & Ha).
    rewrite (main_past_guards w cfg Hb Ha), Hsteps in Hr. discriminate Hr. }
  destruct (guards_dec cfg) as [Hg|[Hb Ha]].
  { assert (Hn : ∀ f, ¬ In (ToCsv f) (main w cfg).1).
    { intros f H. apply Hcsv in H. tauto. }
    split; [split; intros H; by apply Hn in H|].
    split; [|intros f H; by apply Hn in H].
    split; [intros H; by apply Hn in H | tauto]. }
  assert (Hprefix : ∀ f, ¬ In (ToCsv f)
                           ((prepare_dataset (cfg_dataset cfg)).1
                            ++ (define_strategy w cfg).1)).
  { intros f H. apply in_app_or in H as [H|H].
    - by destruct (prepare_dataset_events _ _ H) as [[? ?]|[? ?]].
    - by destruct (define_strategy_events _ _ _ H) as [[? ?]|[? ?]]. }
  destruct (steps_after_guards_cases w cfg)
    as [[Hd Hsteps]|[(Hd & Hs & [e msg] & _ & Hsteps)|(Hd & Hs & Hsteps)]].
  { eapply Hnone; [|exact Hsteps]. intros f []. }
  { eapply Hnone; [|exact Hsteps]. exact Hprefix. }
  destruct (run_and_save_cases w cfg)
    as [[Hk Hrun]|[(a & [e msg] & Hl & Hsim & Hrun)
                  |[(a & h & e & Hl & Hsim & Hc & _ & Hrun)
                   |(a & h & Hl & Hsim & Hc & Hrun)]]];
    rewrite Hrun in Hsteps; cbn [fst snd] in Hsteps.
  - eapply Hnone; [|exact Hsteps]. intros f H.
    rewrite app_nil_r in H. by apply Hprefix in H.
  - eapply Hnone; [|exact Hsteps]. intros f H.
    rewrite app_assoc in H. apply in_app_or in H as [H|H].
    + by apply Hprefix in H.
    + destruct H as [H|[]]. discriminate H.
  - eapply Hnone; [|exact Hsteps]. intros f H.
    rewrite app_assoc in H. apply in_app_or in H as [H|H].
    + by apply Hprefix in H.
    + destruct H as [H|[]]. discriminate H.
  - assert (Hin : ∀ ev, In ev [StartSimulation a; ToCsv (run_results_csv w);
                               ToCsv all_results_csv] →
                        In ev (main w cfg).1).
    { intros ev H. rewrite (main_past_guards w cfg Hb Ha), Hsteps. cbn [fst].
      apply in_or_app. right. apply in_or_app. right.
      rewrite app_assoc. apply in_or_app. by right. }
    assert (Hret : (main w cfg).2 = Returned).
    { by rewrite (main_past_guards w cfg Hb Ha), Hsteps. }
    split; [split; intros _; apply Hin; simpl; tauto|].
    split; [split; [done | intros _; apply Hin; simpl; tauto]|].
    intros f H. split; [|split].
    + apply Hcsv in H as (_ & _ & H). rewrite Hsteps in H. cbn [fst] in H.
      rewrite app_assoc in H. apply in_app_or in H as [H|H].
      { by apply Hprefix in H. }
      destruct H as [H|[H|[H|[]]]]; [discriminate H|..];
        injection H as <-; tauto.
    + apply (Hstarted a), Hin. simpl. tauto.
    + exists a. apply Hin. simpl. tauto.
Qed.

(** * More about [aggregate_dnc] *)

Lemma forallb_replicate {A} (f : A → bool) (k : nat) (x : A) :
  forallb f (replicate (S k) x) = f x.
Proof.
  induction k as [|k IH]; simpl in *.
  - apply andb_true_r.
  - rewrite IH. by destruct (f x).
Qed.

Lemma mapM_ext {A B} (f h : A → result B) (l : list A) :
  (∀ a, f a = h a) → mapM f l = mapM h l.
Proof.
  intros H. induction l as [|a l IH]; simpl; [done|]. by rewrite H, IH.
Qed.

Lemma sum_Qc_zip_opp (a b : list Qc) :
  sum_Qc (zip_with Qcmult a (map Qcopp b))
  = (- sum_Qc (zip_with Qcmult a b))%Qc.
Proof.
  revert b. induction a as [|x a IH]; intros [|y b]; simpl;
    try (change (Qc_of_Z 0) with 0%Qc; ring).
  rewrite IH. ring.
Qed.

Lemma Qc_of_Z_mul (a b : Z) : Qc_of_Z (a * b) = (Qc_of_Z a * Qc_of_Z b)%Qc.
Proof.
  apply Qc_is_canon. unfold Qc_of_Z. simpl.
  rewrite !Qred_correct, inject_Z_mult. reflexivity.
Qed.

Lemma Qc_of_Z_opp (a : Z) : Qc_of_Z (- a) = (- Qc_of_Z a)%Qc.
Proof.
  apply Qc_is_canon. unfold Qc_of_Z. simpl.
  rewrite !Qred_correct, inject_Z_opp. reflexivity.
Qed.

Lemma Qc_square_nonneg (x : Qc) : (0 <= x * x)%Qc.
Proof.
  assert (Hpos : ∀ z : Qc, (0 <= z)%Qc → (0 <= z * z)%Qc).
  { intros z Hz. replace 0%Qc with (0 * z)%Qc at 1 by ring.
    by apply Qcmult_le_compat_r. }
  destruct (Qclt_le_dec x 0) as [Hneg|Hx]; [|by apply Hpos].
  replace (x * x)%Qc with ((- x) * (- x))%Qc by ring.
  apply Hpos. change 0%Qc with (- 0)%Qc.
  by apply Qcopp_le_compat, Qclt_le_weak.
Qed.

Section more.
Context `{N : Numpy}.

(** X1. Without an iteration there is nothing to intersect: whatever the
    clients sent, [niters <= 0] ends in the [TypeError] of
    [set.intersection()] and the generator is not touched. *)
Theorem aggregate_dnc_needs_an_iteration
        (results : list ClientResult) c b niters m g :
  (niters ≤ 0)%Z →
  aggregate_dnc results c b niters m g = (Raise TypeError, g).
Proof.
  intros Hn. unfold aggregate_dnc, dnc_I_good.
  replace (Z.to_nat niters) with 0 by lia. reflexivity.
Qed.

(** X2. Without a client the first iteration raises: [IndexError] from
    [flattened_params[0]] when [b > 0], [LinAlgError] from the singular
    value decomposition of an empty array otherwise. *)
Theorem aggregate_dnc_needs_a_client c b niters m g :
  (0 < niters)%Z →
  aggregate_dnc [] c b niters m g
  = (Raise (if (0 <? b)%Z then IndexError else LinAlgError), g).
Proof.
  intros Hn. unfold aggregate_dnc, dnc_I_good.
  destruct (Z.to_nat niters) as [|k] eqn:E; [lia|].
  simpl. unfold M_bind, dnc_iteration, M_bind, dnc_sample.
  by destruct (0 <? b)%Z.
Qed.

Lemma dnc_sample_no_draw flattened_params b g :
  no_draw flattened_params b →
  dnc_sample flattened_params b g = (Ok flattened_params, g).
Proof.
  intros Hnd. unfold dnc_sample.
  destruct (Z.ltb_spec 0 b) as [Hb|Hb]; [|done].
  destruct Hnd as [Hle|(fp0 & Hhd & Hlen)]; [lia|].
  destruct flattened_params as [|fp fl]; [done|].
  injection Hhd as ->.
  destruct (Z.ltb_spec b (Z.of_nat (length fp0))); [lia|done].
Qed.

Lemma dnc_loop_no_draw flattened_params c b m :
  no_draw flattened_params b →
  ∀ iters I_good g,
    dnc_loop (S iters) flattened_params c b m I_good g
    = (match dnc_scores flattened_params with
       | Ok s =>
           Ok (I_good
               ++ replicate (S iters)
                    (dnc_I (length flattened_params) c m s))
       | Raise e => Raise e
       end, g).
Proof.
  intros Hnd.
  assert (Hit : ∀ g, dnc_iteration flattened_params c b m g
                     = (match dnc_scores flattened_params with
                        | Ok s => Ok (dnc_I (length flattened_params) c m s)
                        | Raise e => Raise e
                        end, g)).
  { intros g. unfold dnc_iteration, M_bind.
    rewrite (dnc_sample_no_draw _ b g Hnd).
    unfold M_lift, M_ret. by destruct (dnc_scores flattened_params). }
  induction iters as [|iters IH]; intros I_good g.
  - simpl. unfold M_bind. rewrite Hit.
    by destruct (dnc_scores flattened_params).
  - change (dnc_loop (S (S iters)) flattened_params c b m I_good g)
      with (M_bind (dnc_iteration flattened_params c b m)
              (λ I, dnc_loop (S iters) flattened_params c b m (I_good ++ [I]))
              g).
    unfold M_bind. rewrite Hit.
    destruct (dnc_scores flattened_params) as [s|e] eqn:Es; [|done].
    rewrite IH. by rewrite <- app_assoc.
Qed.

(** X6. When nothing is drawn ([b <= 0], or vectors not longer than [b]) every
    iteration scores the same matrix and keeps the same indices: any number
    of iterations gives what one iteration gives, result or exception. *)
Theorem aggregate_dnc_iterations_redundant
        (results : list ClientResult) c b niters m g :
  no_draw (map (λ r : ClientResult, flatten_params r.1) results) b →
  (1 ≤ niters)%Z →
  aggregate_dnc results c b niters m g = aggregate_dnc results c b 1 m g.
Proof.
  intros Hnd Hn. unfold aggregate_dnc, dnc_I_good.
  destruct (Z.to_nat niters) as [|k] eqn:E; [lia|].
  change (Z.to_nat 1) with 1.
  unfold M_bind. rewrite !(dnc_loop_no_draw _ c b m Hnd).
  destruct (dnc_scores _) as [s|e]; [|done].
  unfold M_lift. f_equal. simpl app.
  set (I := dnc_I _ c m s).
  assert (Hfin : dnc_I_final (length results) (I :: replicate k I)
                 = dnc_I_final (length results) [I]).
  { unfold dnc_I_final. f_equal. apply filter_ext. intros i.
    change (I :: replicate k I) with (replicate (S k) I).
    rewrite forallb_replicate. simpl. by rewrite andb_true_r. }
  by rewrite Hfin.
Qed.

Lemma dnc_iteration_draws (flattened_params : list NDArray) c b m d g :
  rect d flattened_params → flattened_params ≠ [] →
  (0 < b)%Z → (b < Z.of_nat d)%Z →
  ∃ I, dnc_iteration flattened_params c b m g
       = (Ok I, (np_random_randint d (Z.to_nat b) g).2).
Proof.
  intros Hrect Hne Hb Hbd.
  destruct (dnc_sample_draws _ b d g Hrect Hne Hb Hbd) as (sp & Hsp & _).
  destruct (dnc_iteration_rect _ c b m d g Hrect Hne)
    as (sp' & s & g' & Hsp' & _ & _ & Hit); [lia|].
  rewrite Hsp in Hsp'. injection Hsp' as _ <-. eauto.
Qed.

(** X7. A call that draws ([0 < b < d] on vectors of length [d]) advances the
    process-wide generator by exactly one [randint] draw of [b] indices per
    iteration. *)
Theorem aggregate_dnc_draws_once_per_iteration
        (results : list ClientResult) c b niters m (d : nat) g :
  results ≠ [] →
  rect d (map (λ r : ClientResult, flatten_params r.1) results) →
  (0 < b)%Z → (b < Z.of_nat d)%Z →
  (aggregate_dnc results c b niters m g).2
  = Nat.iter (Z.to_nat niters)
             (λ g', (np_random_randint d (Z.to_nat b) g').2) g.
Proof.
  intros Hne Hrect Hb Hbd.
  set (fl := map (λ r : ClientResult, flatten_params r.1) results) in *.
  assert (Hfl : fl ≠ []) by (unfold fl; by destruct results).
  assert (Hloop : ∀ iters I_good g0,
    ∃ I_good',
      dnc_loop iters fl c b m I_good g0
      = (Ok I_good',
         Nat.iter iters (λ g', (np_random_randint d (Z.to_nat b) g').2) g0)).
  { induction iters as [|iters IH]; intros I_good g0.
    - exists I_good. reflexivity.
    - destruct (dnc_iteration_draws fl c b m d g0 Hrect Hfl Hb Hbd) as [I HI].
      simpl dnc_loop. rewrite (M_bind_Ok _ _ _ _ _ HI).
      destruct (IH (I_good ++ [I]) (np_random_randint d (Z.to_nat b) g0).2)
        as [I_good' ->].
      exists I_good'. by rewrite Nat.iter_succ_r. }
  destruct (Hloop (Z.to_nat niters) [] g) as [I_good HI].
  unfold aggregate_dnc, dnc_I_good. fold fl.
  by rewrite (M_bind_Ok _ _ _ _ _ HI).
Qed.

End more.

Lemma slice_to_take {A} (k : Z) (l : list A) : ∃ j, slice_to k l = take j l.
Proof. unfold slice_to. destruct (0 <=? k)%Z; eauto. Qed.

Lemma dnc_I_NoDup n c m s : NoDup (dnc_I n c m s).
Proof.
  unfold dnc_I. destruct (slice_to_take (dnc_to_keep n c m) (np_argsort s))
    as [j ->].
  eapply sublist_NoDup; [apply np_argsort_NoDup | apply sublist_take].
Qed.

Lemma dnc_I_in_range n c m (s : list Qc) :
  length s = n → Forall (λ i, i < n) (dnc_I n c m s).
Proof.
  intros Hs. unfold dnc_I.
  destruct (slice_to_take (dnc_to_keep n c m) (np_argsort s)) as [j ->].
  apply Forall_take. rewrite np_argsort_perm, Hs.
  apply Forall_forall. intros i Hi. apply elem_of_seq in Hi. lia.
Qed.

Lemma dnc_I_final_NoDup n I_good I_final :
  dnc_I_final n I_good = Ok I_final → NoDup I_final.
Proof.
  unfold dnc_I_final. destruct I_good; [done|]. intros [= <-].
  apply NoDup_ListNoDup, List.NoDup_filter, NoDup_ListNoDup, NoDup_seq.
Qed.

Lemma NoDup_subset_length (l k : list nat) :
  NoDup l → (∀ i, i ∈ l → i ∈ k) → length l ≤ length k.
Proof.
  intros Hnd Hsub. apply submseteq_length, NoDup_submseteq; done.
Qed.

Section more_kept.
Context `{N : Numpy}.

Lemma dnc_I_good_counts
        (results : list ClientResult) c b niters m (d : nat) g :
  results ≠ [] → 0 < d →
  rect d (map (λ r : ClientResult, flatten_params r.1) results) →
  ∃ I_good g',
    dnc_I_good results c b niters m g = (Ok I_good, g')
    ∧ length I_good = Z.to_nat niters
    ∧ Forall (λ I, length I
                   = slice_length (length results)
                                  (dnc_to_keep (length results) c m)
                   ∧ NoDup I
                   ∧ Forall (λ i, i < length results) I) I_good.
Proof.
  intros Hne Hd Hrect.
  set (fl := map (λ r : ClientResult, flatten_params r.1) results) in *.
  assert (Hfl : fl ≠ []) by (unfold fl; by destruct results).
  assert (Hlen : length fl = length results) by apply length_map.
  destruct (dnc_I_good_Forall
    (λ I, length I = slice_length (length results)
                                  (dnc_to_keep (length results) c m)
          ∧ NoDup I ∧ Forall (λ i, i < length results) I)
    results c b niters m g) as (I_good & g' & Hloop & HP & Hlength).
  { intros g1.
    destruct (dnc_iteration_rect fl c b m d g1 Hrect Hfl Hd)
      as (sp & s & g2 & Hsp & Hs & Hsl & Hit).
    eexists _, g2. split; [exact Hit|]. rewrite Hlen in *.
    split; [by apply dnc_I_length|].
    split; [apply dnc_I_NoDup | by apply dnc_I_in_range]. }
  by exists I_good, g'.
Qed.

(** X3. How many clients an iteration keeps, for every [c] and
    [num_malicious]: with [k = int(num_clients - c * num_malicious)] the
    slice [[:k]] keeps [min(k, num_clients)] indices when [k >= 0] and
    [max(num_clients + k, 0)] when [k < 0]; they are distinct client
    indices. *)
Theorem dnc_kept_count
        (results : list ClientResult) c b niters m (d : nat) g :
  results ≠ [] → 0 < d →
  rect d (map (λ r : ClientResult, flatten_params r.1) results) →
  ∃ I_good g',
    dnc_I_good results c b niters m g = (Ok I_good, g')
    ∧ length I_good = Z.to_nat niters
    ∧ Forall (λ I, length I
                   = slice_length (length results)
                                  (dnc_to_keep (length results) c m)
                   ∧ NoDup I
                   ∧ Forall (λ i, i < length results) I) I_good.
Proof. apply dnc_I_good_counts. Qed.

(** X4. What is aggregated in the end: clients that every iteration kept, each
    of them once, so never more clients than one iteration keeps. *)
Theorem aggregate_dnc_aggregates_survivors
        (results : list ClientResult) c b niters m (d : nat) g :
  results ≠ [] → 0 < d →
  rect d (map (λ r : ClientResult, flatten_params r.1) results) →
  (0 < niters)%Z →
  ∃ I_good I_final res g',
    dnc_I_good results c b niters m g = (Ok I_good, g')
    ∧ dnc_I_final (length results) I_good = Ok I_final
    ∧ NoDup I_final
    ∧ Forall (λ I, ∀ i, i ∈ I_final → i ∈ I) I_good
    ∧ Forall2 (λ i r, results !! i = Some r) I_final res
    ∧ length res ≤ slice_length (length results)
                                (dnc_to_keep (length results) c m)
    ∧ aggregate_dnc results c b niters m g = (aggregate res, g').
Proof.
  intros Hne Hd Hrect Hn.
  destruct (dnc_I_good_counts results c b niters m d g Hne Hd Hrect)
    as (I_good & g' & Hloop & Hlength & HP).
  destruct (dnc_I_final_nonempty (length results) I_good)
    as [I_final Hfinal].
  { intros ->. simpl in Hlength. lia. }
  pose proof (λ i, dnc_I_final_elem _ _ _ i Hfinal) as Helem.
  pose proof (dnc_I_final_NoDup _ _ _ Hfinal) as Hnd.
  destruct (dnc_res_in_range results I_final) as (res & Hres & HF).
  { apply Forall_forall. intros i Hi. by apply Helem in Hi as [? _]. }
  exists I_good, I_final, res, g'.
  assert (Hsub : Forall (λ I, ∀ i, i ∈ I_final → i ∈ I) I_good).
  { apply Forall_forall. intros I HI i Hi.
    apply Helem in Hi as [_ Hall]. rewrite Forall_forall in Hall. auto. }
  repeat (split; [done|]). split.
  - rewrite <- (Forall2_length _ _ _ HF).
    destruct I_good as [|I Is]; [simpl in Hlength; lia|].
    apply Forall_cons in HP as [(HlenI & _ & _) _].
    apply Forall_cons in Hsub as [HsubI _].
    rewrite <- HlenI. by apply NoDup_subset_length.
  - rewrite (aggregate_dnc_after_loop _ _ _ _ _ _ _ _ Hloop), Hfinal.
    cbn [result_bind]. by rewrite Hres.
Qed.

Lemma M_bind_assoc {A B C} (mm : M A) (k1 : A → M B) (k2 : B → M C) g :
  M_bind (M_bind mm k1) k2 g = M_bind mm (λ a, M_bind (k1 a) k2) g.
Proof. unfold M_bind. by destruct (mm g) as [[a|e] g1]. Qed.

Lemma M_bind_ext {A B} (mm : M A) (k k' : A → M B) g :
  (∀ a g1, k a g1 = k' a g1) → M_bind mm k g = M_bind mm k' g.
Proof. intros H. unfold M_bind. by destruct (mm g) as [[a|e] g1]. Qed.

Lemma dnc_loop_snoc flattened_params c b m :
  ∀ iters I_good g,
    dnc_loop (S iters) flattened_params c b m I_good g
    = M_bind (dnc_loop iters flattened_params c b m I_good)
             (λ Is, M_bind (dnc_iteration flattened_params c b m)
                           (λ I, M_ret (Is ++ [I]))) g.
Proof.
  induction iters as [|iters IH]; intros I_good g.
  - reflexivity.
  - change (dnc_loop (S (S iters)) flattened_params c b m I_good g)
      with (M_bind (dnc_iteration flattened_params c b m)
              (λ I, dnc_loop (S iters) flattened_params c b m (I_good ++ [I]))
              g).
    change (dnc_loop (S iters) flattened_params c b m I_good)
      with (M_bind (dnc_iteration flattened_params c b m)
              (λ I, dnc_loop iters flattened_params c b m (I_good ++ [I]))).
    rewrite M_bind_assoc. apply M_bind_ext. intros I g1. apply IH.
Qed.

(** X5. One more iteration can only remove clients from the final
    intersection: from the same generator state, [niters + 1] iterations
    repeat the first [niters] ones and intersect with one more kept set. *)
Theorem aggregate_dnc_more_iterations_keep_fewer
        (results : list ClientResult) c b niters m (d : nat) g :
  results ≠ [] → 0 < d →
  rect d (map (λ r : ClientResult, flatten_params r.1) results) →
  (0 < niters)%Z →
  ∃ I_good I g1 g2 I_final I_final',
    dnc_I_good results c b niters m g = (Ok I_good, g1)
    ∧ dnc_I_good results c b (niters + 1) m g = (Ok (I_good ++ [I]), g2)
    ∧ dnc_I_final (length results) I_good = Ok I_final
    ∧ dnc_I_final (length results) (I_good ++ [I]) = Ok I_final'
    ∧ ∀ i, i ∈ I_final' ↔ i ∈ I_final ∧ i ∈ I.
Proof.
  intros Hne Hd Hrect Hn.
  set (fl := map (λ r : ClientResult, flatten_params r.1) results) in *.
  assert (Hfl : fl ≠ []) by (unfold fl; by destruct results).
  destruct (dnc_I_good_counts results c b niters m d g Hne Hd Hrect)
    as (I_good & g1 & Hloop & Hlength & _).
  destruct (dnc_iteration_rect fl c b m d g1 Hrect Hfl Hd)
    as (sp & s & g2 & _ & _ & _ & Hit).
  destruct (dnc_I_final_nonempty (length results) I_good)
    as [I_final Hfinal].
  { intros ->. simpl in Hlength. lia. }
  destruct (dnc_I_final_nonempty (length results)
              (I_good ++ [dnc_I (length fl) c m s])) as [I_final' Hfinal'].
  { by destruct I_good. }
  eexists I_good, _, g1, g2, I_final, I_final'.
  split; [done|]. split.
  { unfold dnc_I_good in *. fold fl in Hloop |- *.
    replace (Z.to_nat (niters + 1)) with (S (Z.to_nat niters)) by lia.
    rewrite dnc_loop_snoc. rewrite (M_bind_Ok _ _ _ _ _ Hloop).
    by rewrite (M_bind_Ok _ _ _ _ _ Hit). }
  split; [done|]. split; [done|]. intros i.
  rewrite (dnc_I_final_elem _ _ _ i Hfinal),
    (dnc_I_final_elem _ _ _ i Hfinal'), Forall_app, Forall_singleton.
  tauto.
Qed.

(** X9. The decomposition fixes the singular vector up to its sign only; the
    scores are the same for [v] and for [-v] (and so is the [ValueError] of
    a length mismatch). *)
Theorem dnc_s_sign (sampled_params : list NDArray) (v0 : NDArray) :
  dnc_s sampled_params (map Qcopp v0) = dnc_s sampled_params v0.
Proof.
  unfold dnc_s. apply mapM_ext. intros model_i. unfold np_inner.
  rewrite length_map. destruct (length model_i =? length v0); [|done].
  cbn [result_bind]. rewrite sum_Qc_zip_opp. f_equal. ring.
Qed.

(** X8. The scores of an iteration on a matrix with at least one row and one
    column: there is one score per client, it is the squared inner product
    of the client's update, as sampled and not centred, with the singular
    vector of the centred updates, and it is not negative. *)
Theorem dnc_scores_closed_form (sampled_params : list NDArray) (d : nat) :
  rect d sampled_params → sampled_params ≠ [] → 0 < d →
  ∃ mu s,
    dnc_mu sampled_params = Ok mu ∧ length mu = d
    ∧ dnc_scores sampled_params = Ok s
    ∧ length s = length sampled_params
    ∧ Forall (λ x, (0 <= x)%Qc) s
    ∧ ∀ i model_i,
        sampled_params !! i = Some model_i →
        ∃ x, np_inner model_i
               (linalg_svd_vh0
                  (map (λ row, zip_with Qcminus row mu) sampled_params))
             = Ok x
             ∧ s !! i = Some (x * x)%Qc.
Proof.
  intros Hrect Hne Hd.
  destruct (dnc_scores_rect sampled_params d Hrect Hne Hd)
    as (mu & Hmu & Hlen & Hs).
  cbn zeta in Hs. eexists mu, _. split; [done|]. split; [done|].
  split; [exact Hs|]. split; [by rewrite length_map|]. split.
  - apply Forall_map, Forall_forall. intros row _. apply Qc_square_nonneg.
  - intros i model_i Hi.
    assert (Hc : rect d (map (λ row, zip_with Qcminus row mu) sampled_params)).
    { apply Forall_map. eapply Forall_impl; [exact Hrect|].
      intros row Hrow. simpl in *. rewrite length_zip_with. lia. }
    assert (Hv : length (linalg_svd_vh0
                  (map (λ row, zip_with Qcminus row mu) sampled_params)) = d).
    { apply svd_vh0_length; [by destruct sampled_params | done | done]. }
    eexists. split.
    + apply np_inner_same_length. rewrite Hv.
      unfold rect in Hrect. rewrite Forall_forall in Hrect. apply Hrect.
      by eapply list_elem_of_lookup_2.
    + rewrite list_lookup_fmap, Hi. done.
Qed.

End more_kept.

(** X10. For a whole number [c] nothing is truncated: [to_keep] is
    [num_clients - c * num_malicious], which is negative as soon as
    [c * num_malicious] exceeds the number of clients. *)
Theorem dnc_to_keep_integral (n : nat) (c m : Z) :
  dnc_to_keep n (Qc_of_Z c) m = (Z.of_nat n - c * m)%Z.
Proof.
  unfold dnc_to_keep, Qc_of_nat, float_sub, float_mul.
  rewrite binary64_of_Z, <- Qc_of_Z_mul, binary64_of_Z.
  replace (Qc_of_Z (Z.of_nat n) - Qc_of_Z (c * m))%Qc
    with (Qc_of_Z (Z.of_nat n - c * m)).
  - rewrite binary64_of_Z. apply py_int_of_Z.
  - unfold Z.sub, Qcminus.
    by rewrite Qc_of_Z_add, Qc_of_Z_opp.
Qed.

(** * The further properties at concrete inputs *)

Lemma client_fn_tabular_witness :
  ((- Z.of_nat 3 ≤ -1 < Z.of_nat 3)%Z →
   ∃ a b c e,
     [10; 11; 12] !! Z.to_nat ((-1) `mod` Z.of_nat 3)%Z = Some a
     ∧ [20; 21; 22] !! Z.to_nat ((-1) `mod` Z.of_nat 3)%Z = Some b
     ∧ [30; 31; 32] !! Z.to_nat ((-1) `mod` Z.of_nat 3)%Z = Some c
     ∧ [40; 41; 42] !! Z.to_nat ((-1) `mod` Z.of_nat 3)%Z = Some e
     ∧ client_fn plain_int_of_str tabular_closure "-1" "income"
       = Client (TabularClient
                   (if String.eqb "income" "income" then IncomeClient
                    else HouseClient) "-1" a b c e))
  ∧ (¬ (- Z.of_nat 3 ≤ -1 < Z.of_nat 3)%Z →
     client_fn plain_int_of_str tabular_closure "-1" "income"
     = ClientRaise IndexError).
Proof.
  apply (client_fn_tabular plain_int_of_str tabular_closure "-1" "income"
           (-1) 3 [10; 11; 12] [20; 21; 22] [30; 31; 32] [40; 41; 42]);
    try reflexivity.
  left. reflexivity.
Defined.

Lemma client_fn_unbound_name_witness :
  (In "income"%string ["mnist"; "fmnist"; "cifar"; "cifar100"]%string →
   fed_dir image_closure = None →
   client_fn plain_int_of_str image_closure "2" "income" = ClientNameError)
  ∧ ("income"%string = "income"%string ∨ "income"%string = "house"%string →
     x_train image_closure = None →
     client_fn plain_int_of_str image_closure "2" "income" = ClientNameError).
Proof.
  apply (client_fn_unbound_name plain_int_of_str image_closure "2" "income" 2).
  reflexivity.
Defined.

Lemma save_results_failure_writes_nothing_witness :
  ∃ e,
    save_results (example_cfg "dnc" "lie" 2) "outputs/run"
                 empty_history (∅ : gmap string (list csv_line))
    = (∅, Raise e)
    ∧ (e = ValueError ∨ e = KeyError).
Proof.
  apply (save_results_failure_writes_nothing (example_cfg "dnc" "lie" 2)
           "outputs/run" empty_history ∅).
  intros [H _]. by apply H.
Defined.

Lemma example_history_complete : history_complete example_history.
Proof.
  split; [done|]. unfold metric_names.
  repeat (apply Forall_cons; split; [eexists; split; reflexivity|]).
  constructor.
Qed.

Lemma save_results_files_witness :
  ∃ rows,
    length rows = length (losses_centralized example_history)
    ∧ map row_round rows = (losses_centralized example_history).*1
    ∧ map row_loss rows = (losses_centralized example_history).*2
    ∧ Forall (λ r, row_attack_fn r
                   = cfg_server_attack_fn (example_cfg "dnc" "lie" 2)
                   ∧ row_dataset_name r
                     = cfg_dataset (example_cfg "dnc" "lie" 2)
                   ∧ row_num_malicious r
                     = cfg_server_num_malicious (example_cfg "dnc" "lie" 2)
                   ∧ row_strategy r
                     = cfg_strategy_name (example_cfg "dnc" "lie" 2)
                   ∧ row_aggregate_fn r
                     = cfg_aggregate_fn_function (example_cfg "dnc" "lie" 2))
             rows
    ∧ (save_results (example_cfg "dnc" "lie" 2) "outputs/run"
                    example_history
                    (<["outputs/all_results.csv" := [Header]]> ∅)).1
        !! os_path_join "outputs/run" "results.csv"
      = Some (saved ((<["outputs/all_results.csv" := [Header]]> ∅
                      : gmap string (list csv_line))
                     !! os_path_join "outputs/run" "results.csv") rows)
    ∧ (save_results (example_cfg "dnc" "lie" 2) "outputs/run"
                    example_history
                    (<["outputs/all_results.csv" := [Header]]> ∅)).1
        !! "outputs/all_results.csv"
      = Some (saved ((<["outputs/all_results.csv" := [Header]]> ∅
                      : gmap string (list csv_line))
                     !! "outputs/all_results.csv") rows)
    ∧ ∀ f, f ≠ os_path_join "outputs/run" "results.csv" →
           f ≠ "outputs/all_results.csv" →
           (save_results (example_cfg "dnc" "lie" 2) "outputs/run"
                         example_history
                         (<["outputs/all_results.csv" := [Header]]> ∅)).1
             !! f
           = (<["outputs/all_results.csv" := [Header]]> ∅
              : gmap string (list csv_line)) !! f.
Proof.
  apply (save_results_files (example_cfg "dnc" "lie" 2) "outputs/run"
           example_history (<["outputs/all_results.csv" := [Header]]> ∅)).
  apply example_history_complete.
Defined.

Lemma aggregate_dnc_needs_an_iteration_witness :
  @aggregate_dnc counter_numpy three_clients (q 1) 0 (-2) 1 5
  = (Raise TypeError, 5).
Proof.
  apply (@aggregate_dnc_needs_an_iteration counter_numpy three_clients
           (q 1) 0 (-2) 1 5).
  lia.
Defined.

Lemma aggregate_dnc_needs_a_client_witness :
  @aggregate_dnc counter_numpy [] (q 1) 4 2 1 5
  = (Raise (if (0 <? 4)%Z then IndexError else LinAlgError), 5).
Proof.
  apply (@aggregate_dnc_needs_a_client counter_numpy (q 1) 4 2 1 5). lia.
Defined.

Lemma aggregate_dnc_iterations_redundant_witness :
  @aggregate_dnc counter_numpy three_clients (q 1) 0 7 1 5
  = @aggregate_dnc counter_numpy three_clients (q 1) 0 1 1 5.
Proof.
  apply (@aggregate_dnc_iterations_redundant counter_numpy three_clients
           (q 1) 0 7 1 5).
  - left. lia.
  - lia.
Defined.

Lemma aggregate_dnc_draws_once_per_iteration_witness :
  (@aggregate_dnc counter_numpy two_clients (q 1) 1 3 1 0).2
  = Nat.iter (Z.to_nat 3)
             (λ g', (@np_random_randint counter_numpy 2 (Z.to_nat 1) g').2) 0.
Proof.
  apply (@aggregate_dnc_draws_once_per_iteration counter_numpy two_clients
           (q 1) 1 3 1 2 0).
  - discriminate.
  - repeat constructor.
  - lia.
  - lia.
Defined.

Lemma dnc_kept_count_witness :
  ∃ I_good g',
    @dnc_I_good counter_numpy ten_clients c_0_2 0 2 5 0 = (Ok I_good, g')
    ∧ length I_good = Z.to_nat 2
    ∧ Forall (λ I, length I
                   = slice_length (length ten_clients)
                                  (dnc_to_keep (length ten_clients) c_0_2 5)
                   ∧ NoDup I
                   ∧ Forall (λ i, i < length ten_clients) I) I_good.
Proof.
  apply (@dnc_kept_count counter_numpy ten_clients c_0_2 0 2 5 1 0).
  - discriminate.
  - lia.
  - repeat constructor.
Defined.

(** The run of the witness: nine of the ten clients are kept, those with
    the nine smallest updates, and the mean of 1 to 9 is returned. *)
Example dnc_keeps_nine_of_ten :
  slice_length (length ten_clients) (dnc_to_keep (length ten_clients) c_0_2 5)
  = 9
  ∧ (@dnc_I_good counter_numpy ten_clients c_0_2 0 1 5 0).1
    = Ok [[0; 1; 2; 3; 4; 5; 6; 7; 8]]
  ∧ (@aggregate_dnc counter_numpy ten_clients c_0_2 0 1 5 0).1
    = Ok [[q 5]].
Proof.
  split; [vm_compute; reflexivity|]. split; [vm_compute; reflexivity|].
  apply result_matrix_eq. vm_compute. reflexivity.
Qed.

Lemma aggregate_dnc_aggregates_survivors_witness :
  ∃ I_good I_final res g',
    @dnc_I_good counter_numpy ten_clients c_0_2 0 2 5 0 = (Ok I_good, g')
    ∧ dnc_I_final (length ten_clients) I_good = Ok I_final
    ∧ NoDup I_final
    ∧ Forall (λ I, ∀ i, i ∈ I_final → i ∈ I) I_good
    ∧ Forall2 (λ i r, ten_clients !! i = Some r) I_final res
    ∧ length res ≤ slice_length (length ten_clients)
                                (dnc_to_keep (length ten_clients) c_0_2 5)
    ∧ @aggregate_dnc counter_numpy ten_clients c_0_2 0 2 5 0
      = (aggregate res, g').
Proof.
  apply (@aggregate_dnc_aggregates_survivors counter_numpy ten_clients
           c_0_2 0 2 5 1 0).
  - discriminate.
  - lia.
  - repeat constructor.
  - lia.
Defined.

Lemma aggregate_dnc_more_iterations_keep_fewer_witness :
  ∃ I_good I g1 g2 I_final I_final',
    @dnc_I_good counter_numpy two_clients (q 1) 1 1 1 0 = (Ok I_good, g1)
    ∧ @dnc_I_good counter_numpy two_clients (q 1) 1 (1 + 1) 1 0
      = (Ok (I_good ++ [I]), g2)
    ∧ dnc_I_final (length two_clients) I_good = Ok I_final
    ∧ dnc_I_final (length two_clients) (I_good ++ [I]) = Ok I_final'
    ∧ ∀ i, i ∈ I_final' ↔ i ∈ I_final ∧ i ∈ I.
Proof.
  apply (@aggregate_dnc_more_iterations_keep_fewer counter_numpy two_clients
           (q 1) 1 1 1 2 0).
  - discriminate.
  - lia.
  - repeat constructor.
  - lia.
Defined.

Lemma dnc_scores_closed_form_witness :
  ∃ mu s,
    dnc_mu [[q 1]; [q 5]; [q 6]] = Ok mu ∧ length mu = 1
    ∧ @dnc_scores counter_numpy [[q 1]; [q 5]; [q 6]] = Ok s
    ∧ length s = length [[q 1]; [q 5]; [q 6]]
    ∧ Forall (λ x, (0 <= x)%Qc) s
    ∧ ∀ i model_i,
        [[q 1]; [q 5]; [q 6]] !! i = Some model_i →
        ∃ x, np_inner model_i
               (@linalg_svd_vh0 counter_numpy
                  (map (λ row, zip_with Qcminus row mu)
                       [[q 1]; [q 5]; [q 6]]))
             = Ok x
             ∧ s !! i = Some (x * x)%Qc.
Proof.
  apply (@dnc_scores_closed_form counter_numpy [[q 1]; [q 5]; [q 6]] 1).
  - repeat constructor.
  - discriminate.
  - lia.
Defined.
